(** * Retention selection, idempotency marker and completion polling of the
      Ops Automator actions

    A shallow embedding of the action classes under
    [source/code/actions]:
    - [dynamodb_delete_backup_action.py]
    - [ec2_delete_image_action.py]
    - [rds_delete_instance_snapshot_action.py]
    - [ec2_terminate_instance_action.py]

    Python dictionaries that describe provider resources are records whose
    fields are the keys the code reads; a key the select expression of the
    action does not produce is an [option] field.  Tag mappings are
    [gmap string string].  Exceptions are explicit: an [outcome] is either a
    returned value or a raised exception. *)

From Stdlib Require Import ZArith List Bool Permutation Sorted Lia.
From Stdlib Require Import String Ascii OrderedTypeEx.
From stdpp Require Import base option gmap strings.

Import ListNotations.
Local Open Scope string_scope.
Local Open Scope Z_scope.

(** ** Exceptions and outcomes *)

Inductive exception : Type :=
| ValueError (msg : string)
| KeyError (key : string)
| TypeError (msg : string)
| AttributeError (msg : string)
| ParserError (text : string)
| ClientError (code : string)
| OverflowError (msg : string)
| Exception_ (format : string) (args : list string).

Inductive outcome (A : Type) : Type :=
| Return (a : A)
| Raise (e : exception).
Arguments Return {A} a.
Arguments Raise {A} e.

Definition bind {A B : Type} (m : outcome A) (k : A -> outcome B) : outcome B :=
  match m with
  | Return a => k a
  | Raise e => Raise e
  end.

Notation "'let*' x ':=' m 'in' k" := (bind m (fun x => k))
  (at level 10, x name, m at level 100, k at level 200).

Definition returned {A : Type} (m : outcome A) : bool :=
  match m with Return _ => true | Raise _ => false end.

(** ** Python [datetime] values

    [wall] is the value of the calendar and clock fields, counted in
    microseconds from 2019-05-31T00:00:00; [tzinfo] is [None] for a naive
    value and [Some off] for an aware one, [off] being its UTC offset in
    microseconds. *)

Module Datetime.

Record datetime : Type := mkdt { wall : Z; tzinfo : option Z }.

Definition usec_per_second : Z := 1000000.
Definition usec_per_day : Z := 86400 * usec_per_second.

(** [dt.replace(tzinfo=pytz.timezone("UTC"))]: the fields are kept, the zone
    is overwritten. *)
Definition replace_tzinfo_utc (d : datetime) : datetime :=
  mkdt (wall d) (Some 0).

(** [datetime.utcnow()] at clock reading [now]: a naive value. *)
Definition utcnow (now : Z) : datetime := mkdt now None.

(** The range of the type: [datetime.min] is 0001-01-01T00:00:00, 737209
    days before the origin of [wall], and [datetime.max] is
    9999-12-31T23:59:59.999999, the last microsecond of the 2914849th day
    after it.  The range is one of the calendar and clock fields, whatever
    the zone. *)
Definition min_wall : Z := - 737209 * usec_per_day.
Definition max_wall : Z := 2914850 * usec_per_day - 1.

Definition representable (w : Z) : bool :=
  (min_wall <=? w) && (w <=? max_wall).

(** [timedelta(days=n)] takes at most 999999999 days either way. *)
Definition max_delta_days : Z := 999999999.

Definition msg_delta_overflow : string :=
  "days; must have magnitude <= 999999999".
Definition msg_date_overflow : string := "date value out of range".

(** The fields of [d - timedelta(days=n)]. *)
Definition days_before (d : datetime) (n : Z) : datetime :=
  mkdt (wall d - n * usec_per_day) (tzinfo d).

(** [d - timedelta(days=n)]: [OverflowError] when the timedelta or the
    difference is outside the range of its type. *)
Definition minus_days (d : datetime) (n : Z) : outcome datetime :=
  if Z.abs n >? max_delta_days
  then Raise (OverflowError msg_delta_overflow)
  else if representable (wall d - n * usec_per_day)
  then Return (days_before d n)
  else Raise (OverflowError msg_date_overflow).

Definition is_aware (d : datetime) : bool :=
  match tzinfo d with Some _ => true | None => false end.

(** The instant on the UTC time line an aware value denotes. *)
Definition utc_instant (d : datetime) : Z :=
  match tzinfo d with
  | Some off => wall d - off
  | None => wall d
  end.

Definition msg_naive_aware : string :=
  "can't compare offset-naive and offset-aware datetimes".
Definition msg_sub_naive_aware : string :=
  "can't subtract offset-naive and offset-aware datetimes".

(** [a < b]: two naive values compare by their fields, two aware values by
    their instants, a naive and an aware value raise [TypeError]. *)
Definition lt (a b : datetime) : outcome bool :=
  match tzinfo a, tzinfo b with
  | None, None => Return (wall a <? wall b)
  | Some oa, Some ob => Return (wall a - oa <? wall b - ob)
  | _, _ => Raise (TypeError msg_naive_aware)
  end.

(** [a - b] as a [timedelta], in microseconds. *)
Definition sub (a b : datetime) : outcome Z :=
  match tzinfo a, tzinfo b with
  | None, None => Return (wall a - wall b)
  | Some oa, Some ob => Return ((wall a - oa) - (wall b - ob))
  | _, _ => Raise (TypeError msg_sub_naive_aware)
  end.

(** [int(td.total_seconds())]: whole seconds, truncated towards zero. *)
Definition int_total_seconds (td : Z) : Z := Z.quot td usec_per_second.

End Datetime.
Export Datetime.

(** A timestamp as it arrives in a resource: a structured [datetime] or a
    string. *)
Inductive timestamp : Type :=
| TsDatetime (d : datetime)
| TsString (s : string).

(** ** Python [sorted]

    [sorted] is stable and only calls [<] on the keys.  [before y x] answers
    whether [y] has to be placed strictly ahead of [x]; it may raise, and the
    first failing comparison aborts the sort.  For an ascending sort
    [before y x] is [key y < key x], for [reverse=True] it is
    [key x < key y]. *)

Section Sorting.
Context {A : Type}.
Variable before : A -> A -> outcome bool.

Fixpoint insert_sorted (x : A) (l : list A) : outcome (list A) :=
  match l with
  | [] => Return [x]
  | y :: l' =>
      let* b := before y x in
      if b then (let* r := insert_sorted x l' in Return (y :: r))
      else Return (x :: y :: l')
  end.

Fixpoint sorted (l : list A) : outcome (list A) :=
  match l with
  | [] => Return []
  | x :: l' => let* s := sorted l' in insert_sorted x s
  end.
End Sorting.

(** The same sort for a comparison that cannot fail. *)
Section PureSorting.
Context {A : Type}.
Variable ahead : A -> A -> bool.

Fixpoint insert_pure (x : A) (l : list A) : list A :=
  match l with
  | [] => [x]
  | y :: l' => if ahead y x then y :: insert_pure x l' else x :: y :: l'
  end.

Fixpoint sort_pure (l : list A) : list A :=
  match l with
  | [] => []
  | x :: l' => insert_pure x (sort_pure l')
  end.

(** [a] may stand before [b]: [b] does not have to be placed ahead of it. *)
Definition may_precede (a b : A) : Prop := ahead b a = false.
End PureSorting.

(** The order [sorted(l, key=..., reverse=...)] puts on the elements. *)
Definition ahead_by {A K : Type} (keyf : A -> K) (ltb : K -> K -> bool)
    (reverse : bool) (y x : A) : bool :=
  if reverse then ltb (keyf x) (keyf y) else ltb (keyf y) (keyf x).


(** [sorted(l, key=key, reverse=reverse)] for keys ordered by [lt]: the keys
    of all elements are computed first, in list order. *)
Fixpoint with_keys {A K : Type} (key : A -> outcome K) (l : list A)
  : outcome (list (K * A)) :=
  match l with
  | [] => Return []
  | a :: l' =>
      let* k := key a in
      let* r := with_keys key l' in
      Return ((k, a) :: r)
  end.

Definition key_before {A K : Type} (lt : K -> K -> outcome bool)
    (reverse : bool) (y x : K * A) : outcome bool :=
  if reverse then lt (fst x) (fst y) else lt (fst y) (fst x).

Definition sorted_by_key {A K : Type} (key : A -> outcome K)
    (lt : K -> K -> outcome bool) (reverse : bool) (l : list A)
  : outcome (list A) :=
  let* ks := with_keys key l in
  let* s := sorted (key_before lt reverse) ks in
  Return (map snd s).

(** A generator body [for x in l: if cond(x): yield x] whose condition may
    raise. *)
Fixpoint yield_if {A : Type} (cond : A -> outcome bool) (l : list A)
  : outcome (list A) :=
  match l with
  | [] => Return []
  | x :: l' =>
      let* b := cond x in
      let* r := yield_if cond l' in
      Return (if b then x :: r else r)
  end.

Definition text_of_exception (e : exception) : string :=
  match e with
  | ValueError m | KeyError m | TypeError m | AttributeError m
  | ParserError m | ClientError m | OverflowError m | Exception_ m _ => m
  end.

(** ** Log records *)

Inductive level : Type := INFO | WARNING | ERROR.

Record log_entry : Type := mklog {
  log_level : level;
  log_format : string;
  log_args : list string
}.

(** ** Retention parameters, shared by the three delete actions *)

Definition PARAM_RETENTION_DAYS : string := "RetentionDays".
Definition PARAM_RETENTION_COUNT : string := "RetentionCount".

Definition ERR_RETENTION_PARAM_BOTH : string :=
  "Only one of RetentionCount or RetentionDays parameters can be specified".
Definition ERR_RETENTION_PARAM_NONE : string :=
  "RetentionCount or RetentionDays parameter must be specified".

(** Truth value of an optional integer: [None] and [0] are false. *)
Definition truthy (v : option Z) : bool :=
  match v with
  | None => false
  | Some z => negb (z =? 0)
  end.

(** [action_validate_parameters], literally the same in
    [DynamodbDeleteBackupAction], [Ec2DeleteImageAction] and
    [RdsDeleteInstanceSnapshotAction].  [raise_value_error] raises a
    [ValueError] with the formatted message. *)
Definition action_validate_parameters (parameters : gmap string Z)
  : outcome (gmap string Z) :=
  let retention_days := parameters !! PARAM_RETENTION_DAYS in
  let retention_count := parameters !! PARAM_RETENTION_COUNT in
  if negb (truthy retention_count) && negb (truthy retention_days)
  then Raise (ValueError ERR_RETENTION_PARAM_NONE)
  else if truthy retention_days && truthy retention_count
  then Raise (ValueError ERR_RETENTION_PARAM_BOTH)
  else Return parameters.

(** What the specification calls a well-formed policy: exactly one of
    [AgeThreshold(days > 0)] and [KeepCount(n >= 0)] is given. *)
Definition spec_exactly_one_policy (parameters : gmap string Z) : Prop :=
  (exists days, parameters !! PARAM_RETENTION_DAYS = Some days /\ 0 < days /\
                parameters !! PARAM_RETENTION_COUNT = None)
  \/ (exists n, parameters !! PARAM_RETENTION_COUNT = Some n /\ 0 <= n /\
                parameters !! PARAM_RETENTION_DAYS = None).

(** ** [dynamodb_delete_backup_action.py] *)

Module DynamodbDeleteBackup.

Record backup : Type := mkbackup {
  BackupArn : string;
  BackupName : string;
  BackupCreationDateTime : datetime;
  TableName : string;
  AwsAccount : string;
  Region : string;
  ResourceTypeName : string;
  Service : string
}.

(** An entry of the ["backups-deleted"] list: the backup without the keys
    [AwsAccount], [Region], [ResourceTypeName] and [Service]. *)
Record deleted_backup : Type := mkdeleted {
  deleted_arn : string;
  deleted_name : string;
  deleted_creation : datetime;
  deleted_table : string
}.

Definition strip (bk : backup) : deleted_backup :=
  mkdeleted (BackupArn bk) (BackupName bk) (BackupCreationDateTime bk)
            (TableName bk).

Definition by_retention_days (now : Z) (retention_days : Z)
    (table_backups : list backup) : outcome (list backup) :=
  let utc_time_now := replace_tzinfo_utc (utcnow now) in
  let* delete_before_dt := minus_days utc_time_now retention_days in
  yield_if (fun bk =>
      let backup_dt := replace_tzinfo_utc (BackupCreationDateTime bk) in
      Datetime.lt backup_dt delete_before_dt)
    table_backups.

(** The counting loop of [by_retention_count]. *)
Fixpoint count_loop (retention_count : Z) (count_for_table : Z)
    (sorted_backups : list backup) : list backup :=
  match sorted_backups with
  | [] => []
  | bk :: rest =>
      let count_for_table := count_for_table + 1 in
      if count_for_table >? retention_count
      then bk :: count_loop retention_count count_for_table rest
      else count_loop retention_count count_for_table rest
  end.

Definition by_retention_count (retention_count : Z)
    (table_backups : list backup) : outcome (list backup) :=
  let* sorted_backups :=
    sorted_by_key (fun b => Return (BackupCreationDateTime b))
                  Datetime.lt true table_backups in
  Return (count_loop retention_count 0 sorted_backups).

(** [by_retention_count] when [_retention_count_] is [None]: the backups
    are sorted, and the counter cannot be compared with the missing count
    at the first backup of the loop. *)
Definition by_missing_retention_count (table_backups : list backup)
  : outcome (list backup) :=
  let* sorted_backups :=
    sorted_by_key (fun b => Return (BackupCreationDateTime b))
                  Datetime.lt true table_backups in
  match sorted_backups with
  | [] => Return []
  | _ :: _ =>
      Raise (TypeError "'>' not supported between instances of 'int' and 'NoneType'")
  end.

(** [backups_to_delete]: days when [_retention_days_] is truthy, else
    count. *)
Definition backups_to_delete (now : Z) (retention_days retention_count : option Z)
    (table_backups : list backup) : outcome (list backup) :=
  if truthy retention_days
  then by_retention_days now (default 0 retention_days) table_backups
  else match retention_count with
       | Some n => by_retention_count n table_backups
       | None => by_missing_retention_count table_backups
       end.

Definition INF_DELETED_BACKUP : string := "Deleted backup {}".
Definition ERR_DELETING_BACKUP : string := "Error deleting backup {} for table {}, {}".

Record result : Type := mkresult {
  backups : nat;
  backups_deleted : list deleted_backup;
  calls : list string;
  log : list log_entry
}.

(** The deletion loop of [execute].  [delete_backup] is the provider call:
    it answers [None] on success and the error text when it raises. *)
Fixpoint delete_loop (delete_backup : string -> option string)
    (table_name : string) (to_delete : list backup)
    (deleted : list deleted_backup) (called : list string)
    (logged : list log_entry)
  : list deleted_backup * list string * list log_entry :=
  match to_delete with
  | [] => (deleted, called, logged)
  | bk :: rest =>
      match delete_backup (BackupArn bk) with
      | None =>
          delete_loop delete_backup table_name rest
            (deleted ++ [strip bk])
            (called ++ [BackupArn bk])
            (logged ++ [mklog INFO INF_DELETED_BACKUP [BackupName bk]])
      | Some ex =>
          delete_loop delete_backup table_name rest
            deleted
            (called ++ [BackupArn bk])
            (logged ++ [mklog ERROR ERR_DELETING_BACKUP
                                [BackupName bk; table_name; ex]])
      end
  end.

Definition execute (now : Z) (retention_days retention_count : option Z)
    (delete_backup : string -> option string) (table_name : string)
    (backups_for_table : list backup) : outcome result :=
  let* to_delete :=
    backups_to_delete now retention_days retention_count backups_for_table in
  let '(deleted, called, logged) :=
    delete_loop delete_backup table_name to_delete [] [] [] in
  Return (mkresult (length backups_for_table) deleted called logged).

(** Whether the provider call for [bk] succeeds. *)
Definition delete_succeeds (delete_backup : string -> option string)
    (bk : backup) : bool :=
  match delete_backup (BackupArn bk) with None => true | Some _ => false end.

End DynamodbDeleteBackup.

(** [str < str]: lexicographic on code points. *)
Definition str_lt (a b : string) : outcome bool := Return (String.ltb a b).

(** ** [rds_delete_instance_snapshot_action.py] *)

Module RdsDeleteInstanceSnapshot.

(** A snapshot as the select expression of the action delivers it.  The
    expression produces no ["SnapshotId"]; the field is there because
    [process_and_select_resource] reads that key. *)
Record snapshot : Type := mksnapshot {
  DBSnapshotIdentifier : string;
  DBInstanceIdentifier : option string;
  DBSnapshotArn : string;
  SnapshotCreateTime : timestamp;
  Status : string;
  Tags : gmap string string;
  Region : string;
  SnapshotId : option string
}.

Definition set_DBInstanceIdentifier (v : string) (s : snapshot) : snapshot :=
  mksnapshot (DBSnapshotIdentifier s) (Some v) (DBSnapshotArn s)
             (SnapshotCreateTime s) (Status s) (Tags s) (Region s)
             (SnapshotId s).

Definition INFO_NO_SOURCE_INSTANCE_ID_WITH_RETENTION : string :=
  "Original db instance id can not be retrieved for snapshot {}, original instance id is required for use with Retention count parameter not equal to 0, snapshot skipped".

Section Environment.
(** [dateutil.parser.parse] *)
Variable parse : string -> outcome datetime.
(** [MARKER_RDS_TAG_SOURCE_DB_INSTANCE_ID.format(os.getenv(handlers.ENV_STACK_NAME))] *)
Variable source_marker_tag : string.

Definition process_and_select_resource (resource : snapshot)
    (task_parameters : gmap string Z)
  : outcome (option snapshot * list log_entry) :=
  match DBInstanceIdentifier resource with
  | None =>
      match Tags resource !! source_marker_tag with
      | Some source_db_instance_id_from_tag =>
          Return (Some (set_DBInstanceIdentifier
                          source_db_instance_id_from_tag resource), [])
      | None =>
          if default 0 (task_parameters !! PARAM_RETENTION_COUNT) >? 0
          then
            match SnapshotId resource with
            | None => Raise (KeyError "SnapshotId")
            | Some sid =>
                Return (None,
                        [mklog INFO INFO_NO_SOURCE_INSTANCE_ID_WITH_RETENTION
                               [sid]])
            end
          else Return (Some resource, [])
      end
  | Some _ => Return (Some resource, [])
  end.

Definition get_creation_time (s : snapshot) : outcome datetime :=
  match SnapshotCreateTime s with
  | TsDatetime d => Return d
  | TsString str => parse str
  end.

Definition by_retention_days (now : Z) (retention_days : Z)
    (snapshots : list snapshot) : outcome (list snapshot) :=
  let* delete_before_dt :=
    minus_days (replace_tzinfo_utc (utcnow now)) retention_days in
  let* by_region :=
    sorted_by_key (fun s => Return (Region s)) str_lt false snapshots in
  yield_if (fun sn =>
      let* snapshot_dt := get_creation_time sn in
      Datetime.lt snapshot_dt delete_before_dt)
    by_region.

(** [<] on the sort key [(s["DBInstanceIdentifier"], get_creation_time(s))]:
    the first components decide unless they are equal. *)
Definition key_lt (k1 k2 : option string * datetime) : outcome bool :=
  if decide (fst k1 = fst k2) then Datetime.lt (snd k1) (snd k2)
  else match fst k1, fst k2 with
       | Some a, Some b => str_lt a b
       | _, _ => Raise (TypeError "'<' not supported between instances of 'NoneType' and 'str'")
       end.

Fixpoint count_loop (retention_count : Z) (db_instance : option string)
    (count_for_instance : Z) (sorted_snapshots : list snapshot)
  : list snapshot :=
  match sorted_snapshots with
  | [] => []
  | sn :: rest =>
      let '(db_instance, count_for_instance) :=
        if decide (DBInstanceIdentifier sn = db_instance)
        then (db_instance, count_for_instance)
        else (DBInstanceIdentifier sn, 0) in
      let count_for_instance := count_for_instance + 1 in
      if count_for_instance >? retention_count
      then sn :: count_loop retention_count db_instance count_for_instance rest
      else count_loop retention_count db_instance count_for_instance rest
  end.

Definition by_retention_count (retention_count : Z)
    (snapshots : list snapshot) : outcome (list snapshot) :=
  let* sorted_snapshots :=
    sorted_by_key
      (fun s => let* t := get_creation_time s in
                Return (DBInstanceIdentifier s, t))
      key_lt true snapshots in
  Return (count_loop retention_count None 0 sorted_snapshots).

Definition snapshots_to_delete (now : Z) (retention_days retention_count : Z)
    (snapshots : list snapshot) : outcome (list snapshot) :=
  if negb (retention_days =? 0)
  then by_retention_days now retention_days snapshots
  else by_retention_count retention_count snapshots.
End Environment.

End RdsDeleteInstanceSnapshot.

(** ** [ec2_delete_image_action.py] *)

Module Ec2DeleteImage.

(** An image as the select expression delivers it.  The expression produces
    no ["StartTime"]; the field is there because [get_creation_time] reads
    that key.  ["SourceInstanceId"] is added by
    [process_and_select_resource]. *)
Record image : Type := mkimage {
  ImageId : string;
  CreationDate : timestamp;
  StartTime : option datetime;
  Tags : gmap string string;
  Snapshots : list string;
  Region : string;
  SourceInstanceId : option string
}.

Definition set_SourceInstanceId (v : string) (i : image) : image :=
  mkimage (ImageId i) (CreationDate i) (StartTime i) (Tags i) (Snapshots i)
          (Region i) (Some v).

Definition INFO_NO_SOURCE_INSTANCE_WITH_RETENTION : string :=
  "Original instance can not be retrieved for image {}, original volume is required for use with Retention count parameter not equal to 0, image skipped".

Section Environment.
(** [dateutil.parser.parse] *)
Variable parse : string -> outcome datetime.
(** [marker_image_source_instance_tag()] *)
Variable source_marker_tag : string.

Definition _image_instance (img : image) : string :=
  default "" (Tags img !! source_marker_tag).

Definition process_and_select_resource (resource : image)
    (task_parameters : gmap string Z)
  : option image * list log_entry :=
  let instance_from_tag := _image_instance resource in
  if negb (String.eqb instance_from_tag "")
  then (Some (set_SourceInstanceId instance_from_tag resource), [])
  else
    if default 0 (task_parameters !! PARAM_RETENTION_COUNT) >? 0
    then (None, [mklog INFO INFO_NO_SOURCE_INSTANCE_WITH_RETENTION
                       [ImageId resource]])
    else (Some resource, []).

Definition get_creation_time (s : image) : outcome datetime :=
  match CreationDate s with
  | TsDatetime _ =>
      match StartTime s with
      | Some d => Return d
      | None => Raise (KeyError "StartTime")
      end
  | TsString str => parse str
  end.

Definition by_retention_days (now : Z) (retention_days : Z)
    (images : list image) : outcome (list image) :=
  let* delete_before_dt :=
    minus_days (replace_tzinfo_utc (utcnow now)) retention_days in
  let* by_region :=
    sorted_by_key (fun s => Return (Region s)) str_lt false images in
  yield_if (fun img =>
      let* snapshot_dt := get_creation_time img in
      Datetime.lt snapshot_dt delete_before_dt)
    by_region.

Definition key_lt (k1 k2 : string * datetime) : outcome bool :=
  if decide (fst k1 = fst k2) then Datetime.lt (snd k1) (snd k2)
  else str_lt (fst k1) (fst k2).

Fixpoint count_loop (retention_count : Z) (instance : option string)
    (count_for_instance : Z) (sorted_snapshots : list image) : list image :=
  match sorted_snapshots with
  | [] => []
  | img :: rest =>
      let img_instance := _image_instance img in
      let '(instance, count_for_instance) :=
        if decide (Some img_instance = instance)
        then (instance, count_for_instance)
        else (Some img_instance, 0) in
      let count_for_instance := count_for_instance + 1 in
      if count_for_instance >? retention_count
      then img :: count_loop retention_count instance count_for_instance rest
      else count_loop retention_count instance count_for_instance rest
  end.

Definition by_retention_count (retention_count : Z) (images : list image)
  : outcome (list image) :=
  let* sorted_snapshots :=
    sorted_by_key
      (fun s =>
         match SourceInstanceId s with
         | None => Raise (KeyError "SourceInstanceId")
         | Some src =>
             let* t := get_creation_time s in Return (src, t)
         end)
      key_lt true images in
  Return (count_loop retention_count None 0 sorted_snapshots).
End Environment.

End Ec2DeleteImage.

(** ** JSON values, as [json.loads] returns them *)

#[local] Unset Elimination Schemes.
Inductive json : Type :=
| JNull
| JBool (b : bool)
| JNumber (z : Z)
| JString (s : string)
| JArray (items : list json)
| JObject (members : list (string * json)).
#[local] Set Elimination Schemes.

Fixpoint assoc (key : string) (members : list (string * json)) : option json :=
  match members with
  | [] => None
  | (k, v) :: rest => if String.eqb k key then Some v else assoc key rest
  end.

(** [d.get(key, dflt)]: only a [dict] has the method. *)
Definition json_get (d : json) (key : string) (dflt : json) : outcome json :=
  match d with
  | JObject members => Return (default dflt (assoc key members))
  | _ => Raise (AttributeError "object has no attribute 'get'")
  end.

(** [d[key]] for a string key. *)
Definition json_getitem (d : json) (key : string) : outcome json :=
  match d with
  | JObject members =>
      match assoc key members with
      | Some v => Return v
      | None => Raise (KeyError key)
      end
  | _ => Raise (TypeError "indices must be integers")
  end.

(** ** [ec2_terminate_instance_action.py] *)

Module Ec2TerminateInstance.

Definition EC2_STATE_TERMINATED : Z := 48.
Definition EC2_STATE_SHUTTING_DOWN : Z := 32.
Definition EC2_STATE_STOPPING : Z := 64.

Definition INSTANCE_TERMINATION_MARKER_TAG : string :=
  "ops-automator:Ec2TerminateInstance".
Definition ACTION_COMPLETION_TIMEOUT_MINUTES : Z := 60.

Definition INF_ALREADY_TERMINATED : string :=
  "Ec2 instance {} already terminated by Ops Automator stack {}, task {}, task id {}".
Definition INF_TERMINATE_TIMEOUT : string :=
  "Ec2 instance {} already terminated by Ops Automator stack {}, task {}, task id {}, but timed out".
Definition ERR_INVALID_DATE_IN_TERMINATION_MARKER : string :=
  "{} in tag {} not a valid date {}".
Definition ERR_SETTING_INSTANCE_TAGS : string :=
  "Error setting tags to terminated instance {}, {}".
Definition ERR_SETTING_LAUNCH_PERMISSIONS : string :=
  "Error setting launch permissions for accounts {}, {}".
Definition ERR_CREATING_IMAGE : string :=
  "Creation of image for terminated instance {} failed, reason is {}".
Definition ERR_TERMINATING : string := "Error terminating instance {}, {}".
Definition ERR_SETTING_IMAGE_TAGS : string := "Error setting tags to image {}, {}".
Definition ERR_CREATING_IMAGE_START : string :=
  "Error creating image for instance {}, image will not be terminated, {}".

Record instance : Type := mkinstance {
  InstanceId : string;
  Tags : gmap string string;
  State : string;
  Region : string
}.

(** The text a JSON value contributes to a formatted log line. *)
Definition text_of (render : json -> string) (v : json) : string :=
  match v with
  | JString s => s
  | _ => render v
  end.

Section Selection.
(** [json.loads], [helpers.safe_json], [dateutil.parser.parse] and
    [datetime.isoformat] *)
Variable json_loads : string -> outcome json.
Variable safe_json : json -> string.
Variable parse : string -> outcome datetime.
Variable isoformat : datetime -> string.

(** The [try] block that reads the date of the marker. *)
Definition marker_date (now : Z) (terminate_data : json) : outcome datetime :=
  let* date_str :=
    json_get terminate_data "datetime" (JString (isoformat (utcnow now))) in
  match date_str with
  | JString s => parse s
  | _ => Raise (TypeError "Parser must be a string or character stream")
  end.

(** The value [date_str] holds when the error is logged. *)
Definition logged_date (now : Z) (terminate_data : json) : string :=
  match json_get terminate_data "datetime"
                 (JString (isoformat (utcnow now))) with
  | Return v => text_of safe_json v
  | Raise _ => ""
  end.

(** The arguments of the two log lines about an existing marker:
    [resource["InstanceId"]], [terminate_data["stack"]],
    [terminate_data["task"]] and [terminate_data["task-id"]]. *)
Definition marker_log_args (resource : instance) (terminate_data : json)
  : outcome (list string) :=
  let* stack := json_getitem terminate_data "stack" in
  let* task := json_getitem terminate_data "task" in
  let* task_id := json_getitem terminate_data "task-id" in
  Return [InstanceId resource; text_of safe_json stack;
          text_of safe_json task; text_of safe_json task_id].

(** [process_and_select_resource].  [now] is the reading of
    [date_time_provider().utcnow()] during the call; [task_timeout] is
    [task.get(ACTION_PARAM_TIMEOUT)], in minutes. *)
Definition process_and_select_resource (now : Z) (resource : instance)
    (task_timeout : option Z)
  : outcome (option instance * list log_entry) :=
  match Tags resource !! INSTANCE_TERMINATION_MARKER_TAG with
  | Some tag_value =>
      let* terminate_data := json_loads tag_value in
      let '(dt, logged) :=
        match marker_date now terminate_data with
        | Return dt => (dt, [])
        | Raise ex =>
            (utcnow now,
             [mklog ERROR ERR_INVALID_DATE_IN_TERMINATION_MARKER
                    [logged_date now terminate_data;
                     INSTANCE_TERMINATION_MARKER_TAG;
                     text_of_exception ex]])
        end in
      let* age := Datetime.sub (utcnow now) dt in
      if int_total_seconds age
         <? default ACTION_COMPLETION_TIMEOUT_MINUTES task_timeout * 60
      then
        let* args := marker_log_args resource terminate_data in
        Return (None, (logged ++ [mklog INFO INF_ALREADY_TERMINATED args])%list)
      else
        let* args := marker_log_args resource terminate_data in
        Return (Some resource,
                (logged ++ [mklog INFO INF_TERMINATE_TIMEOUT args])%list)
  | None => Return (Some resource, [])
  end.
End Selection.

(** *** The provider, seen from the action

    Mutating provider calls are recorded in the order they are issued.
    Whether a call raises is the provider's answer, given by [fails]. *)

Inductive api_call : Type :=
| CreateTags (resource : string) (tags : list (string * string))
| DeleteTags (resource : string) (tags : list (string * string))
| SetEc2Tags (resource : string) (tags : gmap string string)
| ModifyImageAttribute (image_id : string) (launch_permission_add : list string)
| TerminateInstances (instance_id : string)
| CreateImage (instance_id name description : string).

(** A computation that issues provider calls and may raise: the calls issued
    so far are kept when it raises. *)
Definition action (A : Type) : Type :=
  list api_call -> outcome A * list api_call.

Definition ret {A : Type} (a : A) : action A := fun tr => (Return a, tr).
Definition throw {A : Type} (e : exception) : action A := fun tr => (Raise e, tr).
Definition seq {A B : Type} (m : action A) (k : A -> action B) : action B :=
  fun tr =>
    match m tr with
    | (Return a, tr') => k a tr'
    | (Raise e, tr') => (Raise e, tr')
    end.
(** [try: m except Exception as ex: h(ex)] *)
Definition try_except {A : Type} (m : action A) (h : exception -> action A)
  : action A :=
  fun tr =>
    match m tr with
    | (Return a, tr') => (Return a, tr')
    | (Raise e, tr') => h e tr'
    end.

Notation "'run' x ':=' m 'in' k" := (seq m (fun x => k))
  (at level 10, x name, m at level 100, k at level 200).
Notation "m '>>' k" := (seq m (fun _ => k))
  (at level 90, right associativity).

Record image_description : Type := mkimagedesc {
  image_State : string;
  image_StateReason_Message : string
}.

Record execute_results : Type := mkexec {
  image_id : option string;
  image_name : option string
}.

Record result : Type := mkresult {
  account : string;
  region : string;
  instance_ : string;
  task_ : string;
  result_image_id : option string;
  result_image_name : option string;
  launch_access_accounts : option (list string);
  metrics : option Z
}.

Definition set_launch_access (accounts : list string) (r : result) : result :=
  mkresult (account r) (region r) (instance_ r) (task_ r) (result_image_id r)
           (result_image_name r) (Some accounts) (metrics r).

Definition set_image (id name : string) (r : result) : result :=
  mkresult (account r) (region r) (instance_ r) (task_ r) (Some id)
           (Some name) (launch_access_accounts r) (metrics r).

Definition set_metrics (terminated_instances : Z) (r : result) : result :=
  mkresult (account r) (region r) (instance_ r) (task_ r) (result_image_id r)
           (result_image_name r) (launch_access_accounts r)
           (Some terminated_instances).

Section Action.
(** the provider's answers *)
Variable fails : api_call -> option exception.
(** [self.instance_id], [self.create_image],
    [self.accounts_with_launch_access] *)
Variable instance_id : string.
Variable create_image : bool.
Variable accounts_with_launch_access : option (list string).
(** [self.build_tags_from_template(parameter_name=PARAM_INSTANCE_TAGS, ...)]
    for an image id and an image name *)
Variable build_instance_tags : string -> string -> gmap string string.
(** [a.strip()] *)
Variable strip : string -> string.

Definition call (c : api_call) : action unit :=
  fun tr =>
    match fails c with
    | None => (Return tt, (tr ++ [c])%list)
    | Some e => (Raise e, (tr ++ [c])%list)
    end.

Definition _create_terminated_instance_tags (image_id image_name : string)
  : action unit :=
  let tags := build_instance_tags image_id image_name in
  if (0 <? Z.of_nat (size tags))
  then try_except
         (call (SetEc2Tags instance_id tags))
         (fun ex => throw (Exception_ ERR_SETTING_INSTANCE_TAGS
                             [instance_id; text_of_exception ex]))
  else ret tt.

Definition _grant_launch_access (image_id : string) (r : result)
  : action result :=
  match accounts_with_launch_access with
  | Some (a :: rest) =>
      try_except
        (call (ModifyImageAttribute image_id (map strip (a :: rest))) >>
         ret (set_launch_access (map strip (a :: rest)) r))
        (fun ex => throw (Exception_ ERR_SETTING_LAUNCH_PERMISSIONS
                            ((a :: rest) ++ [text_of_exception ex])%list))
  | _ => ret r
  end.

Definition _delete_instance_marker_tag : action unit :=
  call (DeleteTags instance_id [(INSTANCE_TERMINATION_MARKER_TAG, "")]).

Definition _terminate_instance : action unit :=
  try_except
    (call (TerminateInstances instance_id))
    (fun ex => _delete_instance_marker_tag >>
               throw (Exception_ ERR_TERMINATING
                        [instance_id; text_of_exception ex])).

(** [is_completed].  [state_code] is [State.Code] of the instance as the
    provider reports it ([0] when absent), [image] the description of the
    image, [None] when the provider does not know it yet. *)
Definition is_completed (self_result : result) (state_code : Z)
    (image : option image_description) (execute_results : execute_results)
  : action (option result) :=
  let state := Z.land state_code 255 in
  if state =? EC2_STATE_TERMINATED
  then
    _create_terminated_instance_tags
      (default "" (image_id execute_results))
      (default "" (image_name execute_results)) >>
    ret (Some self_result)
  else if (state =? EC2_STATE_SHUTTING_DOWN) || (state =? EC2_STATE_STOPPING)
  then ret None
  else if create_image
  then
    match image_id execute_results with
    | None => throw (KeyError "image-id")
    | Some image_id =>
        match image with
        | None => ret None
        | Some image =>
            let status := image_State image in
            if String.eqb status "pending" then ret None
            else if String.eqb status "failed" || String.eqb status "error"
                    || String.eqb status "invalid"
            then _delete_instance_marker_tag >>
                 throw (Exception_ ERR_CREATING_IMAGE
                          [instance_id; image_StateReason_Message image])
            else if String.eqb status "available"
            then run r := _grant_launch_access image_id self_result in
                 _terminate_instance >>
                 ret None
            else ret None
        end
    end
  else ret None.

(** [set_in_termination_tag] of [execute]: the marker written at [now]. *)
Definition marker_value (stack task task_id : string)
    (isoformat : datetime -> string) (now : Z) : json :=
  JObject [("stack", JString stack); ("task", JString task);
           ("task-id", JString task_id);
           ("datetime", JString (isoformat (utcnow now)))].

Definition set_in_termination_tag (safe_json : json -> string)
    (isoformat : datetime -> string) (stack task task_id : string) (now : Z)
  : action unit :=
  call (CreateTags instance_id
          [(INSTANCE_TERMINATION_MARKER_TAG,
            safe_json (marker_value stack task task_id isoformat now))]).

(** the image name and description built from the templates, the tags
    for the image (copied instance tags and [PARAM_AMI_TAGS]), the tag
    name [IMAGE_INSTANCE_TAG.format(stack)], and the ["ImageId"] of the
    provider's answer to [create_image] *)
Variable image_name_ : string.
Variable description : string.
Variable image_tags : gmap string string.
Variable image_instance_tag : string.
Variable new_image_id : string.

Definition _create_image_tags (image_id : string) : action unit :=
  let tags := <[image_instance_tag := instance_id]> image_tags in
  if (0 <? Z.of_nat (size tags))
  then try_except
         (call (SetEc2Tags image_id tags))
         (fun ex => throw (Exception_ ERR_SETTING_IMAGE_TAGS
                             [image_id; text_of_exception ex]))
  else ret tt.

Definition _create_image : action (string * string) :=
  try_except
    (call (CreateImage instance_id image_name_ description) >>
     _create_image_tags new_image_id >>
     ret (new_image_id, image_name_))
    (fun ex => throw (Exception_ ERR_CREATING_IMAGE_START
                        [instance_id; text_of_exception ex])).

Definition execute (safe_json : json -> string)
    (isoformat : datetime -> string) (stack task task_id : string) (now : Z)
    (self_result : result) : action result :=
  set_in_termination_tag safe_json isoformat stack task task_id now >>
  run r := (if create_image
            then run created := _create_image in
                 ret (set_image (fst created) (snd created) self_result)
            else _terminate_instance >> ret self_result) in
  ret (set_metrics 1 r).
End Action.

(** The image is looked at by [is_completed]: the instance is neither
    terminated nor on its way there, an image was asked for and [execute]
    recorded its id. *)
Definition image_is_polled (state_code : Z) (create_image : bool)
    (er : execute_results) (id : string) : Prop :=
  Z.land state_code 255 <> EC2_STATE_TERMINATED /\
  Z.land state_code 255 <> EC2_STATE_SHUTTING_DOWN /\
  Z.land state_code 255 <> EC2_STATE_STOPPING /\
  create_image = true /\ image_id er = Some id.

Definition terminal_failure_status (status : string) : Prop :=
  status = "failed" \/ status = "error" \/ status = "invalid".

(** An action only appends to the calls issued so far. *)
Definition extends {A : Type} (m : action A) : Prop :=
  forall tr, exists rest, snd (m tr) = (tr ++ rest)%list.

End Ec2TerminateInstance.

(** * Definitions used to state the properties *)

(** ** Orders on sort keys, as total functions *)

(** The order on owner ids extended to a missing id, which the code never
    compares with a present one without raising. *)
Definition owner_ltb (a b : option string) : bool :=
  match a, b with
  | Some x, Some y => String.ltb x y
  | None, Some _ => true
  | _, _ => false
  end.

(** Lexicographic [<] on pairs, the second components compared through
    [ltB]. *)
Definition lex_ltb {A B : Type} `{EqDecision A} (ltA : A -> A -> bool)
    (ltB : B -> B -> bool) (k1 k2 : A * B) : bool :=
  if decide (fst k1 = fst k2) then ltB (snd k1) (snd k2)
  else ltA (fst k1) (fst k2).

Definition instant_ltb (a b : datetime) : bool :=
  utc_instant a <? utc_instant b.

(** A strict total order, as a boolean test. *)
Record strict_total {A : Type} (ltb : A -> A -> bool) : Prop := {
  st_irrefl : forall a, ltb a a = false;
  st_trans : forall a b c, ltb a b = true -> ltb b c = true -> ltb a c = true;
  st_total : forall a b, ltb a b = false -> ltb b a = false -> a = b
}.

(** A strict weak order: ties are allowed. *)
Record strict_weak {A : Type} (ltb : A -> A -> bool) : Prop := {
  sw_asym : forall a b, ltb a b = true -> ltb b a = false;
  sw_cotrans : forall a b c,
      ltb a c = true -> ltb a b = true \/ ltb b c = true
}.

(** ** The retention selector in the words of the specification *)

(** "sorts by creation time descending (ties keep original input order)" *)
Definition spec_newest_first {A : Type} (instant : A -> Z) (l : list A)
  : list A :=
  sort_pure (ahead_by instant Z.ltb true) l.

(** "the first [n] per partition are retained, everything after position
    [n] is yielded for deletion" *)
Definition spec_partition_deletions {A : Type} (instant : A -> Z)
    (in_partition : A -> bool) (n : Z) (l : list A) : list A :=
  skipn (Z.to_nat n) (spec_newest_first instant (List.filter in_partition l)).

Module DynamodbRetention.
Import DynamodbDeleteBackup.

Definition creation_instant (bk : backup) : Z :=
  utc_instant (BackupCreationDateTime bk).

(** The clock fields of the creation time, which [by_retention_days]
    reads as UTC. *)
Definition creation_wall_clock (bk : backup) : Z :=
  wall (BackupCreationDateTime bk).

Definition same_awareness (aware : bool) (l : list backup) : Prop :=
  Forall (fun bk => is_aware (BackupCreationDateTime bk) = aware) l.

End DynamodbRetention.

(** The time a timestamp of a resource stands for: a structured value
    stands for itself, a text for what the parser reads from it. *)
Definition time_of (parse : string -> outcome datetime) (t : timestamp)
  : datetime :=
  match t with
  | TsDatetime d => d
  | TsString str =>
      match parse str with
      | Return d => d
      | Raise _ => mkdt 0 None
      end
  end.

(** The timestamp can be read, and what it stands for has awareness
    [aware]. *)
Definition stamp_reads (parse : string -> outcome datetime) (aware : bool)
    (t : timestamp) : Prop :=
  match t with
  | TsDatetime d => is_aware d = aware
  | TsString str => exists d, parse str = Return d /\ is_aware d = aware
  end.

Module Ec2Retention.
Import Ec2DeleteImage.

Section Environment.
Variable parse : string -> outcome datetime.

(** The creation time of an image is what its ["CreationDate"] stands
    for. *)
Definition creation_time (img : image) : datetime :=
  time_of parse (CreationDate img).

Definition creation_instant (img : image) : Z :=
  utc_instant (creation_time img).

(** The creation date is a text that reads as a time with awareness
    [aware], which is how the provider delivers it. *)
Definition dated (aware : bool) (img : image) : Prop :=
  exists str d,
    CreationDate img = TsString str
    /\ parse str = Return d /\ is_aware d = aware.

(** The creation date is a text that reads as a time with a zone. *)
Definition readable_aware (img : image) : Prop := dated true img.
End Environment.
End Ec2Retention.

(** "cutoff = now(UTC) - policy.days" *)
Definition spec_cutoff (now days : Z) : Z := now - days * usec_per_day.

(** The cutoff is a date: the number of days is one a [timedelta] takes,
    and [now - days] lies between the years 1 and 9999, that is from 737209
    days before to 2914849 days after the day clock readings are counted
    from. *)
Definition cutoff_is_a_date (now days : Z) : Prop :=
  Z.abs days <= 999999999
  /\ - 737209 * usec_per_day <= spec_cutoff now days
  /\ spec_cutoff now days < 2914850 * usec_per_day.

Module RdsRetention.
Import RdsDeleteInstanceSnapshot.

Section Environment.
Variable parse : string -> outcome datetime.

(** The creation time of a snapshot is what its ["SnapshotCreateTime"]
    stands for. *)
Definition creation_time (s : snapshot) : datetime :=
  time_of parse (SnapshotCreateTime s).

Definition creation_instant (s : snapshot) : Z :=
  utc_instant (creation_time s).

Definition sort_key (s : snapshot) : option string * datetime :=
  (DBInstanceIdentifier s, creation_time s).

(** The timestamp is readable and has awareness [aware]; the owner is
    known. *)
Definition comparable (aware : bool) (s : snapshot) : Prop :=
  stamp_reads parse aware (SnapshotCreateTime s)
  /\ is_Some (DBInstanceIdentifier s).
End Environment.

Definition owner_is (o : option string) (s : snapshot) : bool :=
  bool_decide (DBInstanceIdentifier s = o).

(** Owners never increase from [a] to [b]. *)
Definition owners_descend (a b : snapshot) : Prop :=
  owner_ltb (DBInstanceIdentifier a) (DBInstanceIdentifier b) = false.
End RdsRetention.

(** [delete_before_dt] of the age-based selections, when it is a date. *)
Definition delete_before_dt (now days : Z) : datetime :=
  days_before (replace_tzinfo_utc (utcnow now)) days.

(** ** The idempotency marker in the words of the specification *)

Module Marker.
Import Ec2TerminateInstance.

Section Environment.
Variable json_loads : string -> outcome json.
Variable parse : string -> outcome datetime.

(** The tag holds what [set_in_termination_tag] writes: an object with
    the owning stack, task and task id and a date text that reads as
    the naive value [written]. *)
Definition parsable (tag_value : string) (written : datetime) : Prop :=
  exists members date_str stack task task_id,
    json_loads tag_value = Return (JObject members)
    /\ assoc "datetime" members = Some (JString date_str)
    /\ parse date_str = Return written
    /\ tzinfo written = None
    /\ assoc "stack" members = Some stack
    /\ assoc "task" members = Some task
    /\ assoc "task-id" members = Some task_id.

(** The tag holds JSON that names its owner, but no date can be read
    from it. *)
Definition corrupted_date (now : Z) (isoformat : datetime -> string)
    (tag_value : string) (terminate_data : json) : Prop :=
  json_loads tag_value = Return terminate_data
  /\ returned (marker_date parse isoformat now terminate_data) = false
  /\ returned (json_getitem terminate_data "stack") = true
  /\ returned (json_getitem terminate_data "task") = true
  /\ returned (json_getitem terminate_data "task-id") = true.
End Environment.

(** Age of the marker and the action timeout, in microseconds. *)
Definition age (now : Z) (written : datetime) : Z := now - wall written.
Definition timeout (task_timeout : option Z) : Z :=
  default ACTION_COMPLETION_TIMEOUT_MINUTES task_timeout * 60
  * usec_per_second.

(** Age of the marker in whole seconds, fractions dropped towards zero,
    and the action timeout, given in minutes, in seconds. *)
Definition age_seconds (now : Z) (written : datetime) : Z :=
  Z.quot (now - wall written) 1000000.
Definition timeout_seconds (task_timeout : option Z) : Z :=
  default 60 task_timeout * 60.

(** The first of the keys ["stack"], ["task"] and ["task-id"] that the
    marker does not have. *)
Definition first_missing_owner_key (members : list (string * json))
  : option string :=
  List.find (fun key => match assoc key members with
                        | None => true
                        | Some _ => false
                        end)
    ["stack"; "task"; "task-id"].

(** No zone can be read from the date of the marker: from its text, or
    from the text of the current time when the marker has no date. *)
Definition date_without_zone (parse : string -> outcome datetime)
    (isoformat : datetime -> string) (now : Z)
    (members : list (string * json)) : Prop :=
  match assoc "datetime" members with
  | Some (JString date_str) =>
      forall d, parse date_str = Return d -> tzinfo d = None
  | Some _ => True
  | None =>
      forall d, parse (isoformat (utcnow now)) = Return d -> tzinfo d = None
  end.
End Marker.

(** * Concrete resources used in the examples *)

Module Examples.

(** Midnight UTC of day [k], the [k]th of June 2019, as an aware value. *)
Definition day (k : Z) : datetime := mkdt (k * usec_per_day) (Some 0).
(** The same clock reading without zone. *)
Definition naive_day (k : Z) : datetime := mkdt (k * usec_per_day) None.

(** A parser that knows two texts. *)
Definition parse (s : string) : outcome datetime :=
  if String.eqb s "2019-06-02T00:00:00+00:00" then Return (day 2)
  else if String.eqb s "2019-06-03T00:00:00Z" then Return (day 3)
  else Raise (ParserError s).

Definition table_backup (k : Z) (name : string)
  : DynamodbDeleteBackup.backup :=
  DynamodbDeleteBackup.mkbackup
    ("arn:aws:dynamodb:eu-west-1:111122223333:table/T/backup/" +:+ name)
    name (day k) "T" "111122223333" "eu-west-1" "Backups" "dynamodb".

(** Scenario A: backups of table T at days 1, 2, 3 and 10. *)
Definition scenario_A : list DynamodbDeleteBackup.backup :=
  [table_backup 1 "day1"; table_backup 2 "day2"; table_backup 3 "day3";
   table_backup 10 "day10"].

Definition db_snapshot (id : string) (owner : option string) (t : timestamp)
  : RdsDeleteInstanceSnapshot.snapshot :=
  RdsDeleteInstanceSnapshot.mksnapshot
    id owner ("arn:aws:rds:eu-west-1:111122223333:snapshot:" +:+ id) t
    "available" ∅ "eu-west-1" None.

(** Two database instances; timestamps arrive in both shapes. *)
Definition rds_snapshots : list RdsDeleteInstanceSnapshot.snapshot :=
  [db_snapshot "a-1" (Some "db-a") (TsDatetime (day 1));
   db_snapshot "b-5" (Some "db-b") (TsDatetime (day 5));
   db_snapshot "a-3" (Some "db-a") (TsString "2019-06-03T00:00:00Z");
   db_snapshot "a-2" (Some "db-a") (TsString "2019-06-02T00:00:00+00:00");
   db_snapshot "b-4" (Some "db-b") (TsDatetime (day 4))].

Definition ami (id region : string) (created : timestamp)
  : Ec2DeleteImage.image :=
  Ec2DeleteImage.mkimage id created None ∅ [] region None.

Definition images : list Ec2DeleteImage.image :=
  [ami "ami-3" "us-east-1" (TsString "2019-06-03T00:00:00Z");
   ami "ami-2" "eu-west-1" (TsString "2019-06-02T00:00:00+00:00")].

(** An RDS snapshot without owner id and without source tag. *)
Definition orphan_snapshot : RdsDeleteInstanceSnapshot.snapshot :=
  db_snapshot "orphan" None (TsDatetime (day 1)).

Definition rds_source_tag : string := "ops-automator:OpsAutomator-source-db".

(** An image without source-instance tag. *)
Definition orphan_image : Ec2DeleteImage.image :=
  ami "ami-orphan" "eu-west-1" (TsString "2019-06-02T00:00:00+00:00").

Definition ec2_source_tag : string := "Automator:SourceInstanceId_opsautomator".

(** A snapshot whose creation time is a naive structured value. *)
Definition naive_snapshot : RdsDeleteInstanceSnapshot.snapshot :=
  db_snapshot "a-naive" (Some "db-a") (TsDatetime (naive_day 1)).

(** Three snapshots of [db-a], of days 1, 2 and 3; the first timestamp
    has no zone. *)
Definition mixed_snapshots : list RdsDeleteInstanceSnapshot.snapshot :=
  [naive_snapshot;
   db_snapshot "a-2" (Some "db-a") (TsString "2019-06-02T00:00:00+00:00");
   db_snapshot "a-3" (Some "db-a") (TsString "2019-06-03T00:00:00Z")].


(** An image whose creation date is a structured value. *)
Definition structured_image : Ec2DeleteImage.image :=
  ami "ami-structured" "eu-west-1" (TsDatetime (day 1)).

(** *** Termination markers *)

Definition marker_members (date : string) : list (string * json) :=
  [("stack", JString "OpsAutomator"); ("task", JString "terminate");
   ("task-id", JString "7f3c"); ("datetime", JString date)].

(** Tag values stand for the JSON texts of [marker_members]. *)
Definition json_loads (s : string) : outcome json :=
  if String.eqb s "marker written on day 1"
  then Return (JObject (marker_members "2019-06-01T00:00:00"))
  else if String.eqb s "marker with a broken date"
  then Return (JObject (marker_members "not-a-date"))
  else Raise (ValueError "No JSON object could be decoded").

Definition safe_json (v : json) : string := "marker written on day 1".

Definition parse_naive (s : string) : outcome datetime :=
  if String.eqb s "2019-06-01T00:00:00" then Return (naive_day 1)
  else Raise (ParserError s).

Definition isoformat (d : datetime) : string := "2019-06-01T00:00:00".

Definition server (tags : gmap string string)
  : Ec2TerminateInstance.instance :=
  Ec2TerminateInstance.mkinstance "i-0abc" tags "running" "eu-west-1".

Definition marked_server (tag_value : string)
  : Ec2TerminateInstance.instance :=
  server {[ Ec2TerminateInstance.INSTANCE_TERMINATION_MARKER_TAG := tag_value ]}.

(** *** Completion polling *)

Definition base_result : Ec2TerminateInstance.result :=
  Ec2TerminateInstance.mkresult "111122223333" "eu-west-1" "i-0abc"
    "terminate" None None None None.

(** A provider that refuses tagging and permission changes. *)
Definition refuse_secondary (c : Ec2TerminateInstance.api_call)
  : option exception :=
  match c with
  | Ec2TerminateInstance.SetEc2Tags _ _ => Some (ClientError "RequestLimitExceeded")
  | Ec2TerminateInstance.ModifyImageAttribute _ _ => Some (ClientError "AuthFailure")
  | _ => None
  end.

Definition accept_all (c : Ec2TerminateInstance.api_call) : option exception :=
  None.

Definition terminated_tags (image_id image_name : string)
  : gmap string string := {[ "Terminated" := "yes" ]}.

Definition failed_image : Ec2TerminateInstance.image_description :=
  Ec2TerminateInstance.mkimagedesc "failed" "snapshot creation failed".

Definition available_image : Ec2TerminateInstance.image_description :=
  Ec2TerminateInstance.mkimagedesc "available" "".

Definition with_image : Ec2TerminateInstance.execute_results :=
  Ec2TerminateInstance.mkexec (Some "ami-0123") (Some "i-0abc-201906010000").

(** A provider whose first backup deletion fails. *)
Definition delete_backup (arn : string) : option string :=
  if String.eqb arn
       "arn:aws:dynamodb:eu-west-1:111122223333:table/T/backup/day1"
  then Some "BackupInUseException" else None.

End Examples.


(** * Further definitions for the retention selections *)

(** The counting loop of the count-based selections, for an arbitrary way
    of reading the owner of an element. *)
Fixpoint count_loop_by {A : Type} (owner : A -> option string)
    (retention_count : Z) (current : option string) (count : Z)
    (l : list A) : list A :=
  match l with
  | [] => []
  | x :: rest =>
      let '(current, count) :=
        if decide (owner x = current) then (current, count)
        else (owner x, 0) in
      let count := count + 1 in
      if count >? retention_count
      then x :: count_loop_by owner retention_count current count rest
      else count_loop_by owner retention_count current count rest
  end.

(** Owners never increase from [a] to [b]. *)
Definition owners_descend_by {A : Type} (owner : A -> option string)
    (a b : A) : Prop :=
  owner_ltb (owner a) (owner b) = false.

Module RdsAge.
Import RdsDeleteInstanceSnapshot.

(** The creation time can be read and carries a zone. *)
Definition readable_aware (parse : string -> outcome datetime)
    (s : snapshot) : Prop :=
  stamp_reads parse true (SnapshotCreateTime s).

(** Regions never decrease from [a] to [b]. *)
Definition regions_ascend (a b : snapshot) : Prop :=
  String.ltb (Region b) (Region a) = false.
End RdsAge.

Module Ec2Count.
Import Ec2DeleteImage.

(** The image went through [process_and_select_resource] with a source
    tag: its sort key is the value of the tag; its creation date is a
    text that reads as a time with awareness [aware]. *)
Definition prepared (parse : string -> outcome datetime) (tag : string)
    (aware : bool) (img : image) : Prop :=
  SourceInstanceId img = Some (_image_instance tag img)
  /\ Ec2Retention.dated parse aware img.

Definition source_is (tag : string) (o : string) (img : image) : bool :=
  bool_decide (_image_instance tag img = o).

Definition sort_key (parse : string -> outcome datetime) (tag : string)
    (img : image) : string * datetime :=
  (_image_instance tag img, Ec2Retention.creation_time parse img).
End Ec2Count.

(** * More concrete resources *)

Module MoreExamples.

(** An image as [process_and_select_resource] hands it on: tagged with its
    source instance and carrying the same id as sort key. *)
Definition tagged_ami (id instance : string) (created : timestamp)
  : Ec2DeleteImage.image :=
  Ec2DeleteImage.mkimage id created None
    {[ Examples.ec2_source_tag := instance ]} ["snap-" +:+ id] "eu-west-1"
    (Some instance).

Definition tagged_images : list Ec2DeleteImage.image :=
  [tagged_ami "ami-a2" "i-aaa" (TsString "2019-06-02T00:00:00+00:00");
   tagged_ami "ami-b3" "i-bbb" (TsString "2019-06-03T00:00:00Z");
   tagged_ami "ami-a3" "i-aaa" (TsString "2019-06-03T00:00:00Z")].

(** The same image before selection. *)
Definition raw_tagged_ami : Ec2DeleteImage.image :=
  Ec2DeleteImage.mkimage "ami-a2" (TsString "2019-06-02T00:00:00+00:00") None
    {[ Examples.ec2_source_tag := "i-aaa" ]} ["snap-ami-a2"] "eu-west-1" None.

(** Tag values standing for markers that are not as [execute] writes
    them. *)
Definition json_loads (s : string) : outcome json :=
  if String.eqb s "marker with a zone"
  then Return (JObject (Examples.marker_members "2019-06-03T00:00:00Z"))
  else if String.eqb s "marker without stack"
  then Return (JObject [("task", JString "terminate");
                        ("task-id", JString "7f3c");
                        ("datetime", JString "2019-06-01T00:00:00")])
  else if String.eqb s "marker without date"
  then Return (JObject [("stack", JString "OpsAutomator");
                        ("task", JString "terminate");
                        ("task-id", JString "7f3c")])
  else if String.eqb s "marker with stack and date only"
  then Return (JObject [("stack", JString "OpsAutomator");
                        ("datetime", JString "2019-06-01T00:00:00")])
  else Raise (ValueError "No JSON object could be decoded").

(** Parses the two texts of [Examples.parse] and the naive text. *)
Definition parse (s : string) : outcome datetime :=
  if String.eqb s "2019-06-01T00:00:00" then Return (Examples.naive_day 1)
  else Examples.parse s.

(** A provider that refuses to terminate. *)
Definition refuse_terminate (c : Ec2TerminateInstance.api_call)
  : option exception :=
  match c with
  | Ec2TerminateInstance.TerminateInstances _ =>
      Some (ClientError "OperationNotPermitted")
  | _ => None
  end.

Definition no_tags (image_id image_name : string) : gmap string string := ∅.

End MoreExamples.

(** * Further definitions for the terminate-instance action *)

Module Ec2TerminateFacts.
Import Ec2TerminateInstance.

(** The provider calls [is_completed] can issue. *)
Definition completion_call (c : api_call) : bool :=
  match c with
  | SetEc2Tags _ _ | DeleteTags _ _ | ModifyImageAttribute _ _
  | TerminateInstances _ => true
  | CreateTags _ _ | CreateImage _ _ _ => false
  end.

(** The longest run of calls from the front that the provider accepts,
    with the first refused call at its end. *)
Fixpoint until_refused (fails : api_call -> option exception)
    (calls : list api_call) : list api_call :=
  match calls with
  | [] => []
  | c :: rest =>
      match fails c with
      | None => c :: until_refused fails rest
      | Some _ => [c]
      end
  end.

(** The first refusal among the calls, if any. *)
Fixpoint first_refusal (fails : api_call -> option exception)
    (calls : list api_call) : option exception :=
  match calls with
  | [] => None
  | c :: rest =>
      match fails c with
      | None => first_refusal fails rest
      | Some e => Some e
      end
  end.

Definition marker_removal (instance_id : string) : api_call :=
  DeleteTags instance_id [(INSTANCE_TERMINATION_MARKER_TAG, "")].

Definition marker_write (safe_json : json -> string)
    (isoformat : datetime -> string) (instance_id stack task task_id : string)
    (now : Z) : api_call :=
  CreateTags instance_id
    [(INSTANCE_TERMINATION_MARKER_TAG,
      safe_json (marker_value stack task task_id isoformat now))].

(** The image status is neither pending, nor a failure, nor available. *)
Definition unknown_status (status : string) : Prop :=
  status <> "pending" /\ status <> "failed" /\ status <> "error"
  /\ status <> "invalid" /\ status <> "available".

(** The poll has nothing to do yet. *)
Definition still_waiting (state_code : Z) (create_image : bool)
    (image : option image_description) (er : execute_results) : Prop :=
  Z.land state_code 255 = EC2_STATE_SHUTTING_DOWN
  \/ Z.land state_code 255 = EC2_STATE_STOPPING
  \/ (Z.land state_code 255 <> EC2_STATE_TERMINATED
      /\ (create_image = false
          \/ (is_Some (image_id er)
              /\ (image = None
                  \/ (exists img, image = Some img
                        /\ (image_State img = "pending"
                            \/ unknown_status (image_State img))))))).
End Ec2TerminateFacts.

(** * [custom_aggregation] and [execute] of the delete actions *)

(** The grouping loop of the two [custom_aggregation] generators: [current]
    is the key of the group being collected in [group]; a group is yielded
    when the key changes and once more at the end. *)
Fixpoint group_loop {A K : Type} `{EqDecision K} (key : A -> K) (current : K)
    (group : list A) (l : list A) : list (list A) :=
  match l with
  | [] => [group]
  | x :: rest =>
      if decide (current = key x)
      then group_loop key current (group ++ [x])%list rest
      else group :: group_loop key (key x) [x] rest
  end.

(** The provider's reply to a call: accepted, a [ClientError] with its
    error code, or another exception with its text. *)
Inductive reply : Type :=
| Accepted
| ClientFault (code : string)
| OtherFault (text : string).

Module Ec2DeleteImageExecute.
Import Ec2DeleteImage.

Definition custom_aggregation (source_marker_tag : string)
    (resources : list image) : outcome (list (list image)) :=
  let* images_sorted_by_instance_id :=
    sorted_by_key (fun k => Return (_image_instance source_marker_tag k))
      str_lt false resources in
  let instance :=
    match images_sorted_by_instance_id with
    | first :: _ => Some (_image_instance source_marker_tag first)
    | [] => None
    end in
  Return (group_loop (fun img => Some (_image_instance source_marker_tag img))
            instance [] images_sorted_by_instance_id).

Inductive provider_call : Type :=
| DeregisterImage (region image_id : string)
| DeleteSnapshot (region snapshot_id : string).

Definition ERR_DELETING_IMAGE_SNAPSHOT : string :=
  "Error deleting snapshots for image {}, {}".
Definition ERR_DEREGISTER : string := "Unable to deregister image {}, {}".

Section Execute.
(** the provider's replies *)
Variable provider : provider_call -> reply.

(** [deregister_image]: whether the image was deregistered, and the call. *)
Definition deregister_image (img : image)
  : outcome bool * list provider_call :=
  let c := DeregisterImage (Region img) (ImageId img) in
  match provider c with
  | Accepted => (Return true, [c])
  | ClientFault code =>
      if String.eqb code "InvalidAMIID.Unavailable"
         || String.eqb code "InvalidAMIID.NotFound"
      then (Return false, [c])
      else (Raise (ClientError code), [c])
  | OtherFault e => (Raise (Exception_ ERR_DEREGISTER [ImageId img; e]), [c])
  end.

(** The loop of [delete_image_snapshots]: the failures collected so far and
    the calls issued. *)
Fixpoint delete_snapshots_loop (region : string) (snapshot_ids : list string)
    (failed : list (string * string)) (called : list provider_call)
  : list (string * string) * list provider_call :=
  match snapshot_ids with
  | [] => (failed, called)
  | snapshot_id :: rest =>
      let c := DeleteSnapshot region snapshot_id in
      match provider c with
      | Accepted | ClientFault _ =>
          delete_snapshots_loop region rest failed (called ++ [c])%list
      | OtherFault ex =>
          delete_snapshots_loop region rest
            (failed ++ [(snapshot_id, ex)])%list (called ++ [c])%list
      end
  end.

Definition delete_image_snapshots (img : image)
  : outcome unit * list provider_call :=
  let '(failed, called) :=
    delete_snapshots_loop (Region img) (Snapshots img) [] [] in
  match failed with
  | [] => (Return tt, called)
  | _ :: _ =>
      (Raise (Exception_ ERR_DELETING_IMAGE_SNAPSHOT
                [ImageId img;
                 String.concat ", "
                   (map (fun f => fst f +:+ ":" +:+ snd f) failed)]),
       called)
  end.

Record result : Type := mkresult {
  deleted : gmap string (list image);
  images : nat;
  images_deleted : Z
}.

(** The loop of [execute] over the selected images. *)
Fixpoint execute_loop (to_delete : list image) (region : option string)
    (deleted : gmap string (list image)) (deleted_count : Z)
    (called : list provider_call)
  : outcome (gmap string (list image) * Z) * list provider_call :=
  match to_delete with
  | [] => (Return (deleted, deleted_count), called)
  | image :: rest =>
      let deleted :=
        if decide (Some (Region image) = region) then deleted
        else <[Region image := []]> deleted in
      let region := Some (Region image) in
      match deregister_image image with
      | (Raise e, c1) => (Raise e, (called ++ c1)%list)
      | (Return false, c1) =>
          execute_loop rest region deleted (deleted_count + 1)
            (called ++ c1)%list
      | (Return true, c1) =>
          let deleted :=
            <[Region image :=
                (default [] (deleted !! Region image) ++ [image])%list]>
              deleted in
          match delete_image_snapshots image with
          | (Raise e, c2) => (Raise e, (called ++ c1 ++ c2)%list)
          | (Return _, c2) =>
              execute_loop rest region deleted (deleted_count + 1)
                (called ++ c1 ++ c2)%list
          end
      end
  end.

(** [execute]: [selection] is what [images_to_delete()] yields; the
    generator is run to its end before the first provider call. *)
Definition execute (selection : outcome (list image)) (all_images : list image)
  : outcome result * list provider_call :=
  match selection with
  | Raise e => (Raise e, [])
  | Return to_delete =>
      match execute_loop to_delete None ∅ 0 [] with
      | (Return (deleted, deleted_count), called) =>
          (Return (mkresult deleted (length all_images) deleted_count), called)
      | (Raise e, called) => (Raise e, called)
      end
  end.
End Execute.

(** [images_to_delete]: by age when [retention_days] is non-zero, else by
    count. *)
Definition images_to_delete (parse : string -> outcome datetime)
    (source_marker_tag : string) (now retention_days retention_count : Z)
    (all_images : list image) : outcome (list image) :=
  if negb (retention_days =? 0)
  then by_retention_days parse now retention_days all_images
  else by_retention_count parse source_marker_tag retention_count all_images.

(** The calls [execute] issues for one image when nothing raises: the
    deregistration, and, when it was accepted, the deletion of each of its
    snapshots. *)
Definition calls_for (provider : provider_call -> reply) (img : image)
  : list provider_call :=
  DeregisterImage (Region img) (ImageId img)
  :: match provider (DeregisterImage (Region img) (ImageId img)) with
     | Accepted => map (DeleteSnapshot (Region img)) (Snapshots img)
     | _ => []
     end.

Definition deregistered (provider : provider_call -> reply) (img : image)
  : bool :=
  match provider (DeregisterImage (Region img) (ImageId img)) with
  | Accepted => true
  | _ => false
  end.

(** The replies under which the work on one image raises nothing. *)
Definition tolerated (provider : provider_call -> reply) (img : image)
  : Prop :=
  match provider (DeregisterImage (Region img) (ImageId img)) with
  | Accepted =>
      Forall (fun s => forall e,
                provider (DeleteSnapshot (Region img) s) <> OtherFault e)
        (Snapshots img)
  | ClientFault code =>
      code = "InvalidAMIID.Unavailable" \/ code = "InvalidAMIID.NotFound"
  | OtherFault _ => False
  end.
(** A reply makes the work on the image raise. *)
Definition refused (provider : provider_call -> reply) (img : image) : Prop :=
  match provider (DeregisterImage (Region img) (ImageId img)) with
  | Accepted =>
      exists s e, In s (Snapshots img)
                  /\ provider (DeleteSnapshot (Region img) s) = OtherFault e
  | ClientFault code =>
      code <> "InvalidAMIID.Unavailable" /\ code <> "InvalidAMIID.NotFound"
  | OtherFault _ => True
  end.
End Ec2DeleteImageExecute.

Module RdsDeleteSnapshotExecute.
Import RdsDeleteInstanceSnapshot.

(** A snapshot without owner cannot be ordered by [sorted]. *)
Definition owner_lt (a b : option string) : outcome bool :=
  match a, b with
  | Some x, Some y => str_lt x y
  | _, _ => Raise (TypeError "'<' not supported between instances of 'NoneType' and 'str'")
  end.

Definition custom_aggregation (resources : list snapshot)
    (params : gmap string Z) : outcome (list (list snapshot)) :=
  if default 0 (params !! PARAM_RETENTION_COUNT) =? 0
  then Return [resources]
  else
    let* snapshots_sorted_by_instanceid :=
      sorted_by_key (fun k => Return (DBInstanceIdentifier k)) owner_lt false
        resources in
    let db_instance_id :=
      match snapshots_sorted_by_instanceid with
      | first :: _ => DBInstanceIdentifier first
      | [] => None
      end in
    Return (group_loop DBInstanceIdentifier db_instance_id []
              snapshots_sorted_by_instanceid).

Definition ERR_DELETING_SNAPSHOT : string :=
  "Error deleting snapshot {} for RDS instance {}, ({})".

Record result : Type := mkresult {
  deleted_snapshots : list string;
  snapshots : nat;
  deleted_count : Z
}.

Section Execute.
(** [delete_db_snapshot]: [None] when accepted, else the name of the
    exception's type and its text. *)
Variable delete_db_snapshot : string -> option (string * string).
(** [self.time_out()] at the check before the snapshot at a position *)
Variable time_out : nat -> bool.

(** The loop of [execute]; [position] counts the snapshots looked at. *)
Fixpoint execute_loop (to_delete : list snapshot) (position : nat)
    (deleted : list string) (deleted_count : Z) (called : list string)
  : outcome (list string * Z) * list string :=
  match to_delete with
  | [] => (Return (deleted, deleted_count), called)
  | snapshot :: rest =>
      if time_out position then (Return (deleted, deleted_count), called)
      else
        let snapshot_id := DBSnapshotIdentifier snapshot in
        match delete_db_snapshot snapshot_id with
        | None =>
            execute_loop rest (S position) (deleted ++ [snapshot_id])%list
              (deleted_count + 1) (called ++ [snapshot_id])%list
        | Some (exception_name, ex) =>
            if String.eqb exception_name "DBSnapshotNotFoundFault"
            then execute_loop rest (S position) deleted deleted_count
                   (called ++ [snapshot_id])%list
            else (Raise (Exception_ ERR_DELETING_SNAPSHOT
                           [snapshot_id;
                            default "None" (DBInstanceIdentifier snapshot);
                            ex]),
                  (called ++ [snapshot_id])%list)
        end
  end.

Definition execute (selection : outcome (list snapshot))
    (all_snapshots : list snapshot) : outcome result * list string :=
  match selection with
  | Raise e => (Raise e, [])
  | Return to_delete =>
      match execute_loop to_delete 0 [] 0 [] with
      | (Return (deleted, count), called) =>
          (Return (mkresult deleted (length all_snapshots) count), called)
      | (Raise e, called) => (Raise e, called)
      end
  end.
End Execute.

(** The snapshots looked at before the first check that reports a
    time-out. *)
Fixpoint before_time_out {A : Type} (time_out : nat -> bool) (position : nat)
    (l : list A) : list A :=
  match l with
  | [] => []
  | x :: rest =>
      if time_out position then []
      else x :: before_time_out time_out (S position) rest
  end.

Definition accepted
    (delete_db_snapshot : string -> option (string * string))
    (s : snapshot) : bool :=
  match delete_db_snapshot (DBSnapshotIdentifier s) with
  | None => true
  | Some _ => false
  end.

(** The deletion is accepted or the snapshot is already gone. *)
Definition gone_or_accepted
    (delete_db_snapshot : string -> option (string * string))
    (s : snapshot) : Prop :=
  delete_db_snapshot (DBSnapshotIdentifier s) = None
  \/ exists ex, delete_db_snapshot (DBSnapshotIdentifier s)
                = Some ("DBSnapshotNotFoundFault", ex).
End RdsDeleteSnapshotExecute.

(** Keys never decrease from [a] to [b]. *)
Definition keys_ascend {A : Type} (key : A -> option string) (a b : A)
  : Prop :=
  owner_ltb (key b) (key a) = false.

Definition has_key {A : Type} (key : A -> option string) (o : option string)
    (x : A) : bool :=
  bool_decide (key x = o).

Module ExecuteExamples.

(** [ami-b3] is no longer there; deleting the snapshot of [ami-a2] is not
    permitted. *)
Definition image_provider (c : Ec2DeleteImageExecute.provider_call) : reply :=
  match c with
  | Ec2DeleteImageExecute.DeregisterImage _ id =>
      if String.eqb id "ami-b3" then ClientFault "InvalidAMIID.NotFound"
      else Accepted
  | Ec2DeleteImageExecute.DeleteSnapshot _ id =>
      if String.eqb id "snap-ami-a2" then ClientFault "UnauthorizedOperation"
      else Accepted
  end.

(** Deregistering [ami-b3] is not permitted. *)
Definition refusing_provider (c : Ec2DeleteImageExecute.provider_call)
  : reply :=
  match c with
  | Ec2DeleteImageExecute.DeregisterImage _ id =>
      if String.eqb id "ami-b3" then ClientFault "UnauthorizedOperation"
      else Accepted
  | Ec2DeleteImageExecute.DeleteSnapshot _ _ => Accepted
  end.

(** Snapshot [a-3] is already gone. *)
Definition delete_db_snapshot (id : string) : option (string * string) :=
  if String.eqb id "a-3"
  then Some ("DBSnapshotNotFoundFault", "DBSnapshot not found: a-3")
  else None.

(** Snapshot [a-3] is in use. *)
Definition failing_delete_db_snapshot (id : string)
  : option (string * string) :=
  if String.eqb id "a-3"
  then Some ("InvalidDBSnapshotStateFault", "snapshot a-3 is in use")
  else None.

(** Time is up after three snapshots. *)
Definition time_out (position : nat) : bool := (3 <=? position)%nat.

Definition never_time_out (position : nat) : bool := false.

End ExecuteExamples.
(** * Facts about the model of [sorted] *)

Section SortingFacts.
Context {A : Type}.

(** When no comparison can raise, the sort is the pure insertion sort. *)
Lemma insert_sorted_pure (before : A -> A -> outcome bool)
    (ahead : A -> A -> bool) (P : A -> Prop) x l :
  (forall a b, P a -> P b -> before a b = Return (ahead a b)) ->
  P x -> Forall P l ->
  insert_sorted before x l = Return (insert_pure ahead x l).
Proof.
  intros Hcmp Hx. induction 1 as [|y l Hy Hl IH]; cbn; [reflexivity|].
  rewrite (Hcmp y x Hy Hx). cbn. destruct (ahead y x); [|reflexivity].
  rewrite IH. reflexivity.
Qed.

Lemma insert_pure_Forall (ahead : A -> A -> bool) (P : A -> Prop) x l :
  P x -> Forall P l -> Forall P (insert_pure ahead x l).
Proof.
  intros Hx. induction 1 as [|y l Hy Hl IH]; cbn.
  - repeat constructor; assumption.
  - destruct (ahead y x); repeat constructor; assumption.
Qed.

Lemma sort_pure_Forall (ahead : A -> A -> bool) (P : A -> Prop) l :
  Forall P l -> Forall P (sort_pure ahead l).
Proof.
  induction 1; cbn; [constructor|]. apply insert_pure_Forall; assumption.
Qed.

Lemma sorted_pure (before : A -> A -> outcome bool)
    (ahead : A -> A -> bool) (P : A -> Prop) l :
  (forall a b, P a -> P b -> before a b = Return (ahead a b)) ->
  Forall P l ->
  sorted before l = Return (sort_pure ahead l).
Proof.
  intros Hcmp. induction 1 as [|x l Hx Hl IH]; cbn; [reflexivity|].
  rewrite IH. cbn.
  apply (insert_sorted_pure before ahead P); auto using sort_pure_Forall.
Qed.

Variable ahead : A -> A -> bool.

Lemma insert_pure_perm x l : Permutation (insert_pure ahead x l) (x :: l).
Proof.
  induction l as [|y l IH]; cbn; [reflexivity|].
  destruct (ahead y x); [|reflexivity].
  rewrite IH. apply perm_swap.
Qed.

Lemma sort_pure_perm l : Permutation (sort_pure ahead l) l.
Proof.
  induction l as [|x l IH]; cbn; [reflexivity|].
  rewrite insert_pure_perm. constructor. exact IH.
Qed.

Lemma sort_pure_In x l : In x (sort_pure ahead l) <-> In x l.
Proof.
  split; apply Permutation_in;
    [apply sort_pure_perm | symmetry; apply sort_pure_perm].
Qed.

Hypothesis precede_trans :
  forall a b c, (may_precede ahead) a b -> (may_precede ahead) b c -> (may_precede ahead) a c.
Hypothesis ahead_asym : forall a b, ahead a b = true -> ahead b a = false.

Lemma insert_pure_sorted x l :
  StronglySorted (may_precede ahead) l ->
  StronglySorted (may_precede ahead) (insert_pure ahead x l).
Proof.
  induction 1 as [|y l Hl IH Hy]; cbn.
  - repeat constructor.
  - destruct (ahead y x) eqn:Hyx.
    + constructor; [exact IH|].
      eapply Permutation_Forall.
      * symmetry. apply insert_pure_perm.
      * constructor; [apply ahead_asym; exact Hyx | exact Hy].
    + constructor; [constructor; assumption|].
      constructor; [exact Hyx|].
      eapply List.Forall_impl; [|exact Hy]. intros z Hz.
      eapply precede_trans; eassumption.
Qed.

Lemma sort_pure_sorted l : StronglySorted (may_precede ahead) (sort_pure ahead l).
Proof.
  induction l; cbn; [constructor | apply insert_pure_sorted; assumption].
Qed.

Lemma insert_pure_front x l :
  Forall ((may_precede ahead) x) l -> insert_pure ahead x l = x :: l.
Proof.
  destruct 1 as [|y l Hy _]; cbn; [reflexivity|].
  unfold may_precede in Hy. rewrite Hy. reflexivity.
Qed.

(** Selecting by a predicate commutes with the stable sort. *)
Lemma filter_insert_pure (p : A -> bool) x l :
  StronglySorted (may_precede ahead) l ->
  List.filter p (insert_pure ahead x l)
  = if p x then insert_pure ahead x (List.filter p l) else List.filter p l.
Proof.
  induction 1 as [|y l Hl IH Hy]; cbn.
  - destruct (p x); reflexivity.
  - destruct (ahead y x) eqn:Hyx; cbn.
    + rewrite IH. destruct (p y), (p x); cbn; try rewrite Hyx; reflexivity.
    + destruct (p x) eqn:Hpx, (p y) eqn:Hpy; cbn;
        rewrite ?Hpx, ?Hpy, ?Hyx; try reflexivity.
      symmetry. apply insert_pure_front.
      apply List.Forall_forall. intros z Hz.
      apply filter_In in Hz as [Hz _].
      rewrite List.Forall_forall in Hy.
      eapply precede_trans; [exact Hyx | apply Hy, Hz].
Qed.

Lemma filter_sort_pure (p : A -> bool) l :
  List.filter p (sort_pure ahead l) = sort_pure ahead (List.filter p l).
Proof.
  induction l as [|x l IH]; cbn; [reflexivity|].
  rewrite filter_insert_pure by apply sort_pure_sorted.
  rewrite IH. destruct (p x); reflexivity.
Qed.
End SortingFacts.

(** Two comparisons that agree on the elements of a list sort it alike. *)
Lemma insert_pure_ext {A : Type} (f g : A -> A -> bool) (P : A -> Prop) x l :
  (forall a b, P a -> P b -> f a b = g a b) -> P x -> Forall P l ->
  insert_pure f x l = insert_pure g x l.
Proof.
  intros Hfg Hx. induction 1 as [|y l Hy Hl IH]; cbn; [reflexivity|].
  rewrite (Hfg y x Hy Hx), IH. reflexivity.
Qed.

Lemma sort_pure_ext {A : Type} (f g : A -> A -> bool) (P : A -> Prop) l :
  (forall a b, P a -> P b -> f a b = g a b) -> Forall P l ->
  sort_pure f l = sort_pure g l.
Proof.
  intros Hfg. induction 1 as [|x l Hx Hl IH]; cbn; [reflexivity|].
  rewrite IH. apply (insert_pure_ext f g P); auto using sort_pure_Forall.
Qed.

(** Sorting decorated elements and dropping the decoration. *)
Lemma insert_pure_map {A B : Type} (f : A -> B) (ahead : A -> A -> bool)
    (ahead' : B -> B -> bool) x l :
  (forall a b, ahead' (f a) (f b) = ahead a b) ->
  insert_pure ahead' (f x) (map f l) = map f (insert_pure ahead x l).
Proof.
  intros H. induction l as [|y l IH]; cbn; [reflexivity|].
  rewrite H. destruct (ahead y x); cbn; [rewrite IH|]; reflexivity.
Qed.

Lemma sort_pure_map {A B : Type} (f : A -> B) (ahead : A -> A -> bool)
    (ahead' : B -> B -> bool) l :
  (forall a b, ahead' (f a) (f b) = ahead a b) ->
  sort_pure ahead' (map f l) = map f (sort_pure ahead l).
Proof.
  intros H. induction l as [|x l IH]; cbn; [reflexivity|].
  rewrite IH. apply insert_pure_map. exact H.
Qed.

Lemma with_keys_pure {A K : Type} (key : A -> outcome K) (keyf : A -> K) l :
  Forall (fun a => key a = Return (keyf a)) l ->
  with_keys key l = Return (map (fun a => (keyf a, a)) l).
Proof.
  induction 1 as [|a l Ha Hl IH]; cbn; [reflexivity|].
  rewrite Ha, IH. reflexivity.
Qed.

Lemma sorted_by_key_pure {A K : Type} (key : A -> outcome K)
    (lt : K -> K -> outcome bool) (keyf : A -> K) (ltb : K -> K -> bool)
    (reverse : bool) (l : list A) :
  Forall (fun a => key a = Return (keyf a)) l ->
  (forall a b, In a l -> In b l ->
     lt (keyf a) (keyf b) = Return (ltb (keyf a) (keyf b))) ->
  sorted_by_key key lt reverse l
  = Return (sort_pure (ahead_by keyf ltb reverse) l).
Proof.
  intros Hkey Hlt. unfold sorted_by_key.
  rewrite (with_keys_pure key keyf) by exact Hkey. cbn.
  rewrite (sorted_pure _
             (fun y x : K * A =>
                if reverse then ltb (fst x) (fst y) else ltb (fst y) (fst x))
             (fun ka => In (snd ka) l /\ fst ka = keyf (snd ka))).
  - cbn. f_equal.
    rewrite (sort_pure_map (fun a => (keyf a, a)) (ahead_by keyf ltb reverse)).
    + rewrite map_map. cbn. apply map_id.
    + intros a b. reflexivity.
  - intros [ka a] [kb b] [Ha Hka] [Hb Hkb]. cbn in *. subst.
    unfold key_before. cbn. destruct reverse; apply Hlt; assumption.
  - apply List.Forall_forall. intros [k a] Hin.
    apply in_map_iff in Hin as (a' & Heq & Hin). injection Heq as <- <-.
    split; [exact Hin | reflexivity].
Qed.

(** * Order facts for the sort keys *)

Lemma str_ltb_lt a b : String.ltb a b = true <-> String_as_OT.lt a b.
Proof.
  unfold String.ltb. rewrite <- String_as_OT.cmp_lt. unfold String_as_OT.cmp.
  destruct (String.compare a b); split; congruence.
Qed.

Lemma str_ltb_irrefl a : String.ltb a a = false.
Proof.
  unfold String.ltb. replace (String.compare a a) with Eq; [reflexivity|].
  symmetry. apply String_as_OT.cmp_eq. reflexivity.
Qed.

Lemma str_ltb_trans a b c :
  String.ltb a b = true -> String.ltb b c = true -> String.ltb a c = true.
Proof. rewrite !str_ltb_lt. apply String_as_OT.lt_trans. Qed.

Lemma str_ltb_total a b :
  String.ltb a b = false -> String.ltb b a = false -> a = b.
Proof.
  unfold String.ltb. rewrite (String.compare_antisym a b).
  destruct (String.compare b a) eqn:Hc; cbn; try discriminate.
  intros _ _. symmetry. apply String.compare_eq_iff. exact Hc.
Qed.

Lemma owner_ltb_strict_total : strict_total owner_ltb.
Proof.
  split.
  - intros [a|]; cbn; [apply str_ltb_irrefl | reflexivity].
  - intros [a|] [b|] [c|]; cbn; try discriminate; auto.
    apply str_ltb_trans.
  - intros [a|] [b|]; cbn; try discriminate; auto.
    intros H1 H2. f_equal. apply str_ltb_total; assumption.
Qed.

Lemma strict_total_weak {A : Type} (ltb : A -> A -> bool) :
  strict_total ltb -> strict_weak ltb.
Proof.
  intros [Hirr Htr Htot]. split.
  - intros a b Hab. destruct (ltb b a) eqn:Hba; [|reflexivity].
    rewrite <- (Hirr a). symmetry. eapply Htr; eassumption.
  - intros a b c Hac.
    destruct (ltb a b) eqn:Hab; [left; reflexivity | right].
    destruct (ltb b c) eqn:Hbc; [reflexivity|].
    destruct (ltb b a) eqn:Hba.
    + rewrite <- Hbc. eapply Htr; eassumption.
    + assert (a = b) by (apply Htot; assumption). subst. congruence.
Qed.

Lemma instant_ltb_strict_weak : strict_weak instant_ltb.
Proof.
  unfold instant_ltb. split.
  - intros a b. rewrite Z.ltb_lt, Z.ltb_ge. lia.
  - intros a b c. rewrite !Z.ltb_lt. lia.
Qed.

Section Lexicographic.
Context {A B : Type} `{EqDecision A}.
Variable ltA : A -> A -> bool.
Variable ltB : B -> B -> bool.
Hypothesis HA : strict_total ltA.
Hypothesis HB : strict_weak ltB.

Lemma lex_ltb_strict_weak : strict_weak (lex_ltb ltA ltB).
Proof.
  destruct HA as [Hirr Htr Htot]. pose proof (strict_total_weak _ HA) as HAw.
  destruct HAw as [HasA HcoA]. destruct HB as [HasB HcoB].
  unfold lex_ltb. split.
  - intros [a1 b1] [a2 b2]; cbn.
    destruct (decide (a1 = a2)) as [->|Hne].
    + rewrite decide_True by reflexivity. apply HasB.
    + rewrite decide_False by congruence. apply HasA.
  - intros [a1 b1] [a2 b2] [a3 b3]; cbn.
    destruct (decide (a1 = a3)) as [->|H13].
    + destruct (decide (a3 = a2)) as [->|H32].
      * rewrite decide_True by reflexivity. apply HcoB.
      * rewrite decide_False by congruence. intros _.
        destruct (ltA a3 a2) eqn:E1; [left; reflexivity | right].
        destruct (ltA a2 a3) eqn:E2; [reflexivity|].
        exfalso. apply H32. apply Htot; assumption.
    + intros H. destruct (decide (a1 = a2)) as [->|H12].
      * right. rewrite decide_False by congruence. exact H.
      * destruct (decide (a2 = a3)) as [->|H23]; [left; exact H|].
        apply HcoA. exact H.
Qed.

(** The first components alone never decrease along [lex_ltb]. *)
Lemma lex_ltb_fst k1 k2 :
  lex_ltb ltA ltB k1 k2 = false -> ltA (fst k1) (fst k2) = false.
Proof.
  destruct HA as [Hirr _ _]. unfold lex_ltb.
  destruct (decide (fst k1 = fst k2)) as [->|]; [intros _; apply Hirr | auto].
Qed.
End Lexicographic.

(** A strict weak order on keys makes [ahead_by] fit for the sorting facts. *)
Section AheadBy.
Context {A K : Type}.
Variable keyf : A -> K.
Variable ltb : K -> K -> bool.
Variable reverse : bool.
Hypothesis Hsw : strict_weak ltb.

Lemma ahead_by_asym a b :
  ahead_by keyf ltb reverse a b = true -> ahead_by keyf ltb reverse b a = false.
Proof. unfold ahead_by. destruct reverse; apply (sw_asym _ Hsw). Qed.

Lemma ahead_by_precede_trans a b c :
  may_precede (ahead_by keyf ltb reverse) a b ->
  may_precede (ahead_by keyf ltb reverse) b c ->
  may_precede (ahead_by keyf ltb reverse) a c.
Proof.
  unfold may_precede, ahead_by. destruct reverse; intros H1 H2.
  - destruct (ltb (keyf a) (keyf c)) eqn:E; [|reflexivity].
    destruct (sw_cotrans _ Hsw _ (keyf b) _ E); congruence.
  - destruct (ltb (keyf c) (keyf a)) eqn:E; [|reflexivity].
    destruct (sw_cotrans _ Hsw _ (keyf b) _ E); congruence.
Qed.
End AheadBy.

(** * Count-based retention *)

Section DynamodbCount.
Import DynamodbDeleteBackup DynamodbRetention.

Lemma dynamodb_count_loop_skipn n l :
  forall cnt, count_loop n cnt l = skipn (Z.to_nat (n - cnt)) l.
Proof.
  induction l as [|bk rest IH]; intros cnt; cbn.
  - rewrite skipn_nil. reflexivity.
  - destruct (Z.gtb_spec (cnt + 1) n) as [Hgt|Hle].
    + rewrite IH. replace (Z.to_nat (n - (cnt + 1))) with 0%nat by lia.
      replace (Z.to_nat (n - cnt)) with 0%nat by lia. reflexivity.
    + rewrite IH.
      replace (Z.to_nat (n - cnt)) with (S (Z.to_nat (n - (cnt + 1)))) by lia.
      reflexivity.
Qed.

Lemma datetime_lt_same_awareness aware a b :
  is_aware a = aware -> is_aware b = aware ->
  Datetime.lt a b = Return (instant_ltb a b).
Proof.
  unfold is_aware, Datetime.lt, instant_ltb, utc_instant.
  destruct (tzinfo a), (tzinfo b); intros <-; intros; try discriminate;
    reflexivity.
Qed.

(** A timestamp that can be read is read by the code as what it stands
    for. *)
Lemma stamp_reads_time parse aware t :
  stamp_reads parse aware t ->
  match t with
  | TsDatetime d => Return d
  | TsString str => parse str
  end = Return (time_of parse t)
  /\ is_aware (time_of parse t) = aware.
Proof.
  destruct t as [d|str]; cbn.
  - intros Haw. split; [reflexivity | exact Haw].
  - intros (d & Hd & Haw). rewrite Hd. split; [reflexivity | exact Haw].
Qed.

Lemma dynamodb_sorted_newest_first aware l :
  same_awareness aware l ->
  sorted_by_key (fun b => Return (BackupCreationDateTime b)) Datetime.lt
    true l
  = Return (spec_newest_first creation_instant l).
Proof.
  intros Haw.
  rewrite (sorted_by_key_pure _ _ BackupCreationDateTime instant_ltb).
  - reflexivity.
  - apply List.Forall_forall. reflexivity.
  - unfold same_awareness in Haw. rewrite List.Forall_forall in Haw.
    intros a b Ha Hb. apply (datetime_lt_same_awareness aware); auto.
Qed.

Lemma dynamodb_by_retention_count aware n l :
  same_awareness aware l ->
  by_retention_count n l
  = Return (skipn (Z.to_nat n) (spec_newest_first creation_instant l)).
Proof.
  intros Haw. unfold by_retention_count.
  rewrite (dynamodb_sorted_newest_first aware) by exact Haw. cbn.
  rewrite dynamodb_count_loop_skipn, Z.sub_0_r. reflexivity.
Qed.
End DynamodbCount.

Section RdsCount.
Import RdsDeleteInstanceSnapshot RdsRetention.
Variable parse : string -> outcome datetime.

Local Abbreviation key_ltb := (lex_ltb owner_ltb instant_ltb).
Local Abbreviation by_key := (ahead_by (sort_key parse) key_ltb true).

Lemma key_ltb_strict_weak : strict_weak key_ltb.
Proof.
  apply lex_ltb_strict_weak;
    [apply owner_ltb_strict_total | apply instant_ltb_strict_weak].
Qed.

Lemma rds_get_creation_time aware s :
  stamp_reads parse aware (SnapshotCreateTime s) ->
  get_creation_time parse s = Return (creation_time parse s)
  /\ is_aware (creation_time parse s) = aware.
Proof. apply stamp_reads_time. Qed.

Lemma rds_key_lt_pure aware a b :
  comparable parse aware a -> comparable parse aware b ->
  key_lt (sort_key parse a) (sort_key parse b)
  = Return (key_ltb (sort_key parse a) (sort_key parse b)).
Proof.
  intros [Ha [oa Hoa]] [Hb [ob Hob]].
  destruct (rds_get_creation_time aware a Ha) as [_ Hawa].
  destruct (rds_get_creation_time aware b Hb) as [_ Hawb].
  unfold key_lt, lex_ltb, sort_key. cbn. rewrite Hoa, Hob.
  destruct (decide (Some oa = Some ob)).
  - apply (datetime_lt_same_awareness aware); assumption.
  - reflexivity.
Qed.

Lemma rds_sorted_pure aware l :
  Forall (comparable parse aware) l ->
  sorted_by_key
    (fun s => let* t := get_creation_time parse s in
              Return (DBInstanceIdentifier s, t))
    key_lt true l
  = Return (sort_pure by_key l).
Proof.
  intros Hc. apply sorted_by_key_pure.
  - eapply List.Forall_impl; [|exact Hc].
    intros s [Hs _]. destruct (rds_get_creation_time aware s Hs) as [Hd _].
    rewrite Hd. reflexivity.
  - rewrite List.Forall_forall in Hc. intros a b Ha Hb.
    apply (rds_key_lt_pure aware); auto.
Qed.

Lemma rds_sorted_owners_descend l :
  StronglySorted owners_descend (sort_pure by_key l).
Proof.
  assert (Hs : StronglySorted (may_precede by_key) (sort_pure by_key l)).
  { apply sort_pure_sorted.
    - apply ahead_by_precede_trans, key_ltb_strict_weak.
    - apply ahead_by_asym, key_ltb_strict_weak. }
  induction Hs as [|x m Hm IH Hx]; constructor; [exact IH|].
  eapply List.Forall_impl; [|exact Hx]. intros y Hy.
  unfold may_precede, ahead_by in Hy.
  apply (lex_ltb_fst owner_ltb instant_ltb owner_ltb_strict_total) in Hy.
  exact Hy.
Qed.

Lemma owner_is_true o s : owner_is o s = true <-> DBInstanceIdentifier s = o.
Proof. unfold owner_is. apply bool_decide_eq_true. Qed.

Lemma owner_is_false o s : owner_is o s = false <-> DBInstanceIdentifier s <> o.
Proof. unfold owner_is. apply bool_decide_eq_false. Qed.

Lemma filter_owner_nil o x l :
  owner_ltb o (DBInstanceIdentifier x) = false ->
  DBInstanceIdentifier x <> o ->
  Forall (owners_descend x) l ->
  List.filter (owner_is o) l = [].
Proof.
  intros Hox Hne Hl. destruct owner_ltb_strict_total as [Hirr Htr Htot].
  induction Hl as [|z l Hz Hl IH]; cbn; [reflexivity|].
  destruct (owner_is o z) eqn:Hoz; [|exact IH].
  apply owner_is_true in Hoz. unfold owners_descend in Hz. rewrite Hoz in Hz.
  exfalso. apply Hne. apply Htot; assumption.
Qed.

Lemma rds_count_loop_filter n o l :
  StronglySorted owners_descend l ->
  forall cur cnt,
    cnt = 0 \/
      Forall (fun s => owner_ltb cur (DBInstanceIdentifier s) = false) l ->
    List.filter (owner_is o) (count_loop n cur cnt l)
    = skipn (Z.to_nat (n - (if decide (cur = o) then cnt else 0)))
            (List.filter (owner_is o) l).
Proof.
  destruct owner_ltb_strict_total as [Hirr Htr Htot].
  induction 1 as [|x l Hl IH Hx]; intros cur cnt Hinv.
  - cbn. rewrite skipn_nil. reflexivity.
  - assert (Hbelow : Forall (fun s => owner_ltb (DBInstanceIdentifier x)
                                (DBInstanceIdentifier s) = false) l).
    { exact Hx. }
    cbn [count_loop].
    destruct (decide (DBInstanceIdentifier x = cur)) as [Hxc|Hxc].
    + (* same owner as the running one *)
      subst cur.
      assert (Hinv' : cnt + 1 = 0 \/
         Forall (fun s => owner_ltb (DBInstanceIdentifier x)
                            (DBInstanceIdentifier s) = false) l)
        by (right; exact Hbelow).
      specialize (IH (DBInstanceIdentifier x) (cnt + 1) Hinv').
      cbn [List.filter].
      destruct (decide (DBInstanceIdentifier x = o)) as [Ho|Ho].
      * assert (Hox : owner_is o x = true) by (apply owner_is_true; exact Ho).
        rewrite Hox.
        destruct (Z.gtb_spec (cnt + 1) n).
        -- cbn [List.filter]. rewrite Hox, IH.
           replace (Z.to_nat (n - (cnt + 1))) with 0%nat by lia.
           replace (Z.to_nat (n - cnt)) with 0%nat by lia. reflexivity.
        -- rewrite IH.
           replace (Z.to_nat (n - cnt)) with (S (Z.to_nat (n - (cnt + 1))))
             by lia.
           reflexivity.
      * assert (Hox : owner_is o x = false) by (apply owner_is_false; exact Ho).
        rewrite Hox.
        destruct (Z.gtb_spec (cnt + 1) n);
          cbn [List.filter]; rewrite ?Hox, IH; reflexivity.
    + (* a new owner starts *)
      assert (Hinv' : 0 + 1 = 0 \/
         Forall (fun s => owner_ltb (DBInstanceIdentifier x)
                            (DBInstanceIdentifier s) = false) l)
        by (right; exact Hbelow).
      specialize (IH (DBInstanceIdentifier x) (0 + 1) Hinv').
      cbn [List.filter].
      destruct (decide (DBInstanceIdentifier x = o)) as [Ho|Ho].
      * assert (Hox : owner_is o x = true) by (apply owner_is_true; exact Ho).
        rewrite Hox. rewrite decide_False by congruence.
        destruct (Z.gtb_spec (0 + 1) n).
        -- cbn [List.filter]. rewrite Hox, IH.
           replace (Z.to_nat (n - (0 + 1))) with 0%nat by lia.
           replace (Z.to_nat (n - 0)) with 0%nat by lia. reflexivity.
        -- rewrite IH.
           replace (Z.to_nat (n - 0)) with (S (Z.to_nat (n - (0 + 1))))
             by lia.
           reflexivity.
      * assert (Hox : owner_is o x = false) by (apply owner_is_false; exact Ho).
        rewrite Hox.
        assert (Hrest : List.filter (owner_is o)
                   (count_loop n (DBInstanceIdentifier x) (0 + 1) l)
                 = skipn (Z.to_nat n) (List.filter (owner_is o) l)).
        { rewrite IH, Z.sub_0_r. reflexivity. }
        assert (Hgoal : List.filter (owner_is o)
                   (count_loop n (DBInstanceIdentifier x) (0 + 1) l)
                 = skipn (Z.to_nat (n - (if decide (cur = o) then cnt else 0)))
                     (List.filter (owner_is o) l)).
        { rewrite Hrest.
          destruct (decide (cur = o)) as [->|]; [|rewrite Z.sub_0_r; reflexivity].
          destruct Hinv as [->|Hall]; [rewrite Z.sub_0_r; reflexivity|].
          inversion Hall as [|? ? Hxo Hall']; subst.
          rewrite (filter_owner_nil o x l Hxo Ho Hx).
          rewrite !skipn_nil. reflexivity. }
        destruct (Z.gtb_spec (0 + 1) n);
          cbn [List.filter]; rewrite ?Hox; exact Hgoal.
Qed.

Lemma rds_sort_partition o l :
  List.filter (owner_is o) (sort_pure by_key l)
  = spec_newest_first (creation_instant parse) (List.filter (owner_is o) l).
Proof.
  rewrite filter_sort_pure.
  - unfold spec_newest_first.
    apply (sort_pure_ext _ _ (fun s => DBInstanceIdentifier s = o)).
    + intros a b Ha Hb. unfold ahead_by, lex_ltb, sort_key. cbn.
      rewrite decide_True by congruence. reflexivity.
    + apply List.Forall_forall. intros s Hs.
      apply filter_In in Hs as [_ Hs]. apply owner_is_true. exact Hs.
  - apply ahead_by_precede_trans, key_ltb_strict_weak.
  - apply ahead_by_asym, key_ltb_strict_weak.
Qed.

Lemma rds_by_retention_count aware n l :
  Forall (comparable parse aware) l ->
  exists out,
    by_retention_count parse n l = Return out
    /\ forall o,
        List.filter (owner_is o) out
        = spec_partition_deletions (creation_instant parse) (owner_is o) n l.
Proof.
  intros Hc. unfold by_retention_count.
  rewrite (rds_sorted_pure aware) by exact Hc. cbn.
  eexists. split; [reflexivity|]. intros o.
  rewrite (rds_count_loop_filter n o _ (rds_sorted_owners_descend l) None 0)
    by (left; reflexivity).
  replace (n - (if decide (None = o) then 0 else 0)) with n
    by (destruct (decide (None = o)); lia).
  rewrite rds_sort_partition. reflexivity.
Qed.
End RdsCount.

Lemma newest_first_three {A : Type} (instant : A -> Z) (a1 a2 a3 : A)
    (l : list A) :
  instant a1 < instant a2 -> instant a2 < instant a3 ->
  Permutation l [a1; a2; a3] ->
  spec_newest_first instant l = [a3; a2; a1].
Proof.
  intros H12 H23 Hperm. symmetry in Hperm.
  apply permutations_Permutation in Hperm. cbn in Hperm.
  unfold spec_newest_first, ahead_by.
  repeat (apply elem_of_cons in Hperm as [->|Hperm]);
    [..|apply elem_of_nil in Hperm; destruct Hperm]; cbn;
    repeat match goal with
           | |- context [?a <? ?b] => destruct (Z.ltb_spec a b); try lia; cbn
           end; reflexivity.
Qed.

(** C1, as the specification states it, fails when the timestamps of one
    owner's snapshots cannot be compared with each other: of three snapshots
    of [db-a], created on days 1, 2 and 3, the first has a structured
    timestamp without zone.  With [RetentionCount = 2] the specification
    selects the snapshot of day 1; the sort raises [TypeError] and nothing
    is selected. *)
Lemma count_selection_fails_on_mixed_timestamps :
  spec_partition_deletions (RdsRetention.creation_instant Examples.parse)
    (RdsRetention.owner_is (Some "db-a")) 2 Examples.mixed_snapshots
  = [Examples.naive_snapshot]
  /\ RdsDeleteInstanceSnapshot.by_retention_count Examples.parse 2
       Examples.mixed_snapshots
     = Raise (TypeError msg_naive_aware).
Proof. split; vm_compute; reflexivity. Qed.

(** C1 (amended): count-based selection.  For snapshots whose owner is
    known and whose timestamps can be read and compared with each other,
    [by_retention_count] of the RDS action returns, for every owner, exactly
    the snapshots of that owner that come after position [n] when the
    owner's snapshots are put newest first by a stable sort, the creation
    time of a snapshot being what its ["SnapshotCreateTime"] stands for.
    For the backups of one table, all with or all without zone, the
    DynamoDB action returns the backups after position [n] of the
    newest-first order; with [n = 0] these are all backups, and with
    [n = 2] and three backups created at [t1 < t2 < t3], whatever their
    input order, exactly the one created at [t1]. *)
Theorem by_retention_count_keeps_newest
    (parse : string -> outcome datetime) (aware : bool) (n : Z)
    (snapshots : list RdsDeleteInstanceSnapshot.snapshot)
    (table_backups : list DynamodbDeleteBackup.backup) :
  Forall (RdsRetention.comparable parse aware) snapshots ->
  DynamodbRetention.same_awareness aware table_backups ->
  (exists out,
      RdsDeleteInstanceSnapshot.by_retention_count parse n snapshots
      = Return out
      /\ forall o,
          List.filter (RdsRetention.owner_is o) out
          = spec_partition_deletions (RdsRetention.creation_instant parse)
              (RdsRetention.owner_is o) n snapshots)
  /\ DynamodbDeleteBackup.by_retention_count n table_backups
     = Return (skipn (Z.to_nat n)
                 (spec_newest_first DynamodbRetention.creation_instant
                    table_backups))
  /\ (exists all,
        DynamodbDeleteBackup.by_retention_count 0 table_backups = Return all
        /\ Permutation all table_backups)
  /\ (forall b1 b2 b3,
        DynamodbRetention.creation_instant b1
          < DynamodbRetention.creation_instant b2 ->
        DynamodbRetention.creation_instant b2
          < DynamodbRetention.creation_instant b3 ->
        Permutation table_backups [b1; b2; b3] ->
        DynamodbDeleteBackup.by_retention_count 2 table_backups
        = Return [b1]).
Proof.
  intros Hsn Hbk. split; [|split; [|split]].
  - apply (rds_by_retention_count parse aware). exact Hsn.
  - apply (dynamodb_by_retention_count aware). exact Hbk.
  - eexists. split.
    + apply (dynamodb_by_retention_count aware). exact Hbk.
    + cbn. unfold spec_newest_first. apply sort_pure_perm.
  - intros b1 b2 b3 H12 H23 Hperm.
    rewrite (dynamodb_by_retention_count aware) by exact Hbk.
    rewrite (newest_first_three _ b1 b2 b3) by assumption.
    reflexivity.
Qed.

Lemma examples_rds_comparable :
  Forall (RdsRetention.comparable Examples.parse true) Examples.rds_snapshots.
Proof.
  repeat constructor; try (eexists; split; reflexivity);
    try (eexists; reflexivity).
Qed.

Lemma examples_scenario_A_aware :
  DynamodbRetention.same_awareness true Examples.scenario_A.
Proof. repeat constructor. Qed.

(** Two owners with timestamps in both shapes, and scenario A, both with
    [RetentionCount = 2]. *)
Lemma by_retention_count_keeps_newest_witness :
  (exists out,
      RdsDeleteInstanceSnapshot.by_retention_count Examples.parse 2
        Examples.rds_snapshots = Return out
      /\ forall o,
          List.filter (RdsRetention.owner_is o) out
          = spec_partition_deletions
              (RdsRetention.creation_instant Examples.parse)
              (RdsRetention.owner_is o) 2 Examples.rds_snapshots)
  /\ DynamodbDeleteBackup.by_retention_count 2 Examples.scenario_A
     = Return (skipn 2 (spec_newest_first DynamodbRetention.creation_instant
                          Examples.scenario_A)).
Proof.
  split.
  - exact (proj1 (by_retention_count_keeps_newest Examples.parse true 2
                    Examples.rds_snapshots Examples.scenario_A
                    examples_rds_comparable examples_scenario_A_aware)).
  - exact (proj1 (proj2 (by_retention_count_keeps_newest Examples.parse true 2
                           Examples.rds_snapshots Examples.scenario_A
                           examples_rds_comparable
                           examples_scenario_A_aware))).
Defined.

(** Scenario A: backups at days 1, 2, 3 and 10, [RetentionCount = 2]: the
    backups of day 2 and day 1 are selected. *)
Example scenario_A_count_2 :
  DynamodbDeleteBackup.by_retention_count 2 Examples.scenario_A
  = Return [Examples.table_backup 2 "day2"; Examples.table_backup 1 "day1"].
Proof. vm_compute. reflexivity. Qed.

(** Two owners, [RetentionCount = 1]: of [db-b] the snapshot of day 4, of
    [db-a] those of day 2 and day 1 are selected. *)
Example rds_count_1 :
  RdsDeleteInstanceSnapshot.by_retention_count Examples.parse 1
    Examples.rds_snapshots
  = Return
      [Examples.db_snapshot "b-4" (Some "db-b") (TsDatetime (Examples.day 4));
       Examples.db_snapshot "a-2" (Some "db-a")
         (TsString "2019-06-02T00:00:00+00:00");
       Examples.db_snapshot "a-1" (Some "db-a") (TsDatetime (Examples.day 1))].
Proof. vm_compute. reflexivity. Qed.

(** * Age-based retention *)

Lemma yield_if_pure {A : Type} (cond : A -> outcome bool) (f : A -> bool) l :
  Forall (fun x => cond x = Return (f x)) l ->
  yield_if cond l = Return (List.filter f l).
Proof.
  induction 1 as [|x l Hx Hl IH]; cbn; [reflexivity|].
  rewrite Hx, IH. cbn. destruct (f x); reflexivity.
Qed.

(** The cutoff is computed when it is a date, and only then. *)
Lemma minus_days_cutoff now days :
  cutoff_is_a_date now days ->
  minus_days (replace_tzinfo_utc (utcnow now)) days
  = Return (delete_before_dt now days).
Proof.
  unfold cutoff_is_a_date, spec_cutoff, minus_days, representable, min_wall,
    max_wall, max_delta_days. cbn [wall replace_tzinfo_utc utcnow].
  intros (Hd & Hlo & Hhi).
  destruct (Z.gtb_spec (Z.abs days) 999999999); [lia|].
  destruct (Z.leb_spec (- 737209 * usec_per_day) (now - days * usec_per_day));
    [|lia].
  destruct (Z.leb_spec (now - days * usec_per_day)
              (2914850 * usec_per_day - 1)); [|lia].
  reflexivity.
Qed.

Lemma minus_days_overflow now days :
  ~ cutoff_is_a_date now days ->
  exists msg,
    minus_days (replace_tzinfo_utc (utcnow now)) days
    = Raise (OverflowError msg).
Proof.
  unfold cutoff_is_a_date, spec_cutoff, minus_days, representable, min_wall,
    max_wall, max_delta_days. cbn [wall replace_tzinfo_utc utcnow].
  intros Hno.
  destruct (Z.gtb_spec (Z.abs days) 999999999); [eexists; reflexivity|].
  destruct (Z.leb_spec (- 737209 * usec_per_day) (now - days * usec_per_day));
    [|eexists; reflexivity].
  destruct (Z.leb_spec (now - days * usec_per_day)
              (2914850 * usec_per_day - 1)); [|eexists; reflexivity].
  exfalso. apply Hno. lia.
Qed.

Lemma lt_delete_before_dt now days d :
  is_aware d = true ->
  Datetime.lt d (delete_before_dt now days)
  = Return (utc_instant d <? spec_cutoff now days).
Proof.
  intros Hd. unfold is_aware in Hd.
  unfold Datetime.lt, utc_instant, delete_before_dt, days_before, spec_cutoff.
  cbn. destruct (tzinfo d); [|discriminate]. rewrite Z.sub_0_r. reflexivity.
Qed.

Lemma dynamodb_by_retention_days now days l :
  cutoff_is_a_date now days ->
  DynamodbDeleteBackup.by_retention_days now days l
  = Return (List.filter
              (fun bk => DynamodbRetention.creation_wall_clock bk
                         <? spec_cutoff now days) l).
Proof.
  intros Hc. unfold DynamodbDeleteBackup.by_retention_days.
  rewrite minus_days_cutoff by exact Hc. cbn [bind].
  apply yield_if_pure.
  apply List.Forall_forall. intros bk _.
  rewrite lt_delete_before_dt by reflexivity.
  unfold utc_instant, DynamodbRetention.creation_wall_clock. cbn.
  rewrite Z.sub_0_r. reflexivity.
Qed.

Lemma ec2_get_creation_time parse aware img :
  Ec2Retention.dated parse aware img ->
  Ec2DeleteImage.get_creation_time parse img
  = Return (Ec2Retention.creation_time parse img)
  /\ is_aware (Ec2Retention.creation_time parse img) = aware.
Proof.
  intros (str & d & Hs & Hd & Haw).
  unfold Ec2DeleteImage.get_creation_time, Ec2Retention.creation_time.
  rewrite Hs. cbn. rewrite Hd. split; [reflexivity | exact Haw].
Qed.





Lemma example_cutoff_is_a_date : cutoff_is_a_date (10 * usec_per_day) 7.
Proof. vm_compute. repeat split; discriminate. Qed.

Lemma example_cutoff_is_no_date :
  ~ cutoff_is_a_date (10 * usec_per_day) 1000000.
Proof. vm_compute. intros (_ & H & _). apply H. reflexivity. Qed.


(** Today is day 10 and the retention period is 7 days: the cutoff is day
    3.  The backups of day 1 and day 2 are selected; the backup created
    exactly at the cutoff is kept. *)
Example scenario_A_days_7 :
  DynamodbDeleteBackup.by_retention_days (10 * usec_per_day) 7
    Examples.scenario_A
  = Return [Examples.table_backup 1 "day1"; Examples.table_backup 2 "day2"].
Proof. vm_compute. reflexivity. Qed.

Example images_days_7 :
  Ec2DeleteImage.by_retention_days Examples.parse (10 * usec_per_day) 7
    Examples.images
  = Return [Examples.ami "ami-2" "eu-west-1"
              (TsString "2019-06-02T00:00:00+00:00")].
Proof. vm_compute. reflexivity. Qed.

(** A retention period of a million days reaches back before the year 1:
    the selection raises. *)
Example scenario_A_days_1000000 :
  DynamodbDeleteBackup.by_retention_days (10 * usec_per_day) 1000000
    Examples.scenario_A
  = Raise (OverflowError msg_date_overflow).
Proof. vm_compute. reflexivity. Qed.

(** * Properties *)

(** ** Validation of the retention parameters *)

Lemma truthy_Some (z : Z) : truthy (Some z) = negb (z =? 0).
Proof. reflexivity. Qed.

Lemma validate_cases (parameters : gmap string Z) :
  action_validate_parameters parameters =
    match truthy (parameters !! PARAM_RETENTION_DAYS),
          truthy (parameters !! PARAM_RETENTION_COUNT) with
    | false, false => Raise (ValueError ERR_RETENTION_PARAM_NONE)
    | true, true => Raise (ValueError ERR_RETENTION_PARAM_BOTH)
    | _, _ => Return parameters
    end.
Proof.
  unfold action_validate_parameters.
  destruct (truthy (parameters !! PARAM_RETENTION_DAYS)),
           (truthy (parameters !! PARAM_RETENTION_COUNT)); reflexivity.
Qed.

(** C3, as the specification states it, fails for [KeepCount(0)]: the
    parameter set with only [RetentionCount = 0] is a well-formed policy in
    the sense of the specification, and validation raises. *)
Lemma validate_rejects_keep_count_zero :
  spec_exactly_one_policy {[ PARAM_RETENTION_COUNT := 0 ]} /\
  action_validate_parameters {[ PARAM_RETENTION_COUNT := 0 ]}
    = Raise (ValueError ERR_RETENTION_PARAM_NONE).
Proof.
  split.
  - right. exists 0. split; [apply lookup_singleton_eq|].
    split; [lia|]. apply lookup_singleton_ne. discriminate.
  - rewrite validate_cases.
    rewrite lookup_singleton_eq, lookup_singleton_ne by discriminate.
    reflexivity.
Qed.

(** C3 (amended): validation raises exactly when both [RetentionDays] and
    [RetentionCount] are non-zero ("both") or when neither is non-zero, a
    parameter that is absent or [0] counting as not given ("none"); it
    returns the parameters unchanged exactly when one of the two is
    non-zero and the other is absent or [0]. *)
Theorem validate_parameters_one_nonzero (parameters : gmap string Z) :
  let days := parameters !! PARAM_RETENTION_DAYS in
  let count := parameters !! PARAM_RETENTION_COUNT in
  (action_validate_parameters parameters = Return parameters
     <-> xorb (truthy days) (truthy count) = true)
  /\ (action_validate_parameters parameters
        = Raise (ValueError ERR_RETENTION_PARAM_BOTH)
     <-> truthy days = true /\ truthy count = true)
  /\ (action_validate_parameters parameters
        = Raise (ValueError ERR_RETENTION_PARAM_NONE)
     <-> truthy days = false /\ truthy count = false)
  /\ (forall z, truthy (Some z) = true <-> z <> 0)
  /\ truthy None = false.
Proof.
  cbv zeta. rewrite validate_cases.
  split; [|split; [|split; [|split]]].
  - destruct (truthy (parameters !! PARAM_RETENTION_DAYS)),
             (truthy (parameters !! PARAM_RETENTION_COUNT)); cbn;
      unfold ERR_RETENTION_PARAM_BOTH, ERR_RETENTION_PARAM_NONE;
      intuition congruence.
  - destruct (truthy (parameters !! PARAM_RETENTION_DAYS)),
             (truthy (parameters !! PARAM_RETENTION_COUNT)); cbn;
      unfold ERR_RETENTION_PARAM_BOTH, ERR_RETENTION_PARAM_NONE;
      intuition congruence.
  - destruct (truthy (parameters !! PARAM_RETENTION_DAYS)),
             (truthy (parameters !! PARAM_RETENTION_COUNT)); cbn;
      unfold ERR_RETENTION_PARAM_BOTH, ERR_RETENTION_PARAM_NONE;
      intuition congruence.
  - intros z. rewrite truthy_Some.
    destruct (Z.eqb_spec z 0); cbn; split; congruence.
  - reflexivity.
Qed.

(** ** The deletion loop of the DynamoDB action *)

Module DynamodbExecute.
Import DynamodbDeleteBackup.

Lemma delete_loop_spec delete_backup table_name to_delete :
  forall deleted called logged,
    let '(d, c, l) :=
      delete_loop delete_backup table_name to_delete deleted called logged in
    d = (deleted ++ map strip (List.filter (delete_succeeds delete_backup) to_delete))%list
    /\ c = (called ++ map BackupArn to_delete)%list
    /\ (exists l', l = (logged ++ l')%list /\
          forall bk ex, In bk to_delete ->
            delete_backup (BackupArn bk) = Some ex ->
            In (mklog ERROR ERR_DELETING_BACKUP [BackupName bk; table_name; ex]) l').
Proof.
  induction to_delete as [|bk rest IH]; intros deleted called logged; cbn.
  - rewrite !app_nil_r. repeat split. exists []. rewrite app_nil_r.
    split; [reflexivity | intros ? ? []].
  - unfold delete_succeeds at 1.
    destruct (delete_backup (BackupArn bk)) as [ex|] eqn:Hdel.
    + specialize (IH deleted (called ++ [BackupArn bk])%list
        (logged ++ [mklog ERROR ERR_DELETING_BACKUP
                            [BackupName bk; table_name; ex]])%list).
      destruct (delete_loop _ _ rest _ _ _) as [[d c] l].
      destruct IH as (Hd & Hc & l' & Hl & Herr).
      split; [exact Hd|]. split; [rewrite Hc, <- app_assoc; reflexivity|].
      eexists. split; [rewrite Hl, <- app_assoc; reflexivity|].
      intros b e [<-|Hin] Hb.
      * left. rewrite Hdel in Hb. injection Hb as <-. reflexivity.
      * right. eauto.
    + specialize (IH (deleted ++ [strip bk])%list
        (called ++ [BackupArn bk])%list
        (logged ++ [mklog INFO INF_DELETED_BACKUP [BackupName bk]])%list).
      destruct (delete_loop _ _ rest _ _ _) as [[d c] l].
      destruct IH as (Hd & Hc & l' & Hl & Herr).
      split; [rewrite Hd, <- app_assoc; reflexivity|].
      split; [rewrite Hc, <- app_assoc; reflexivity|].
      eexists. split; [rewrite Hl, <- app_assoc; reflexivity|].
      intros b e [<-|Hin] Hb.
      * congruence.
      * right. eauto.
Qed.

End DynamodbExecute.

(** C10: when the selection yields [to_delete], [execute] of the DynamoDB
    delete-backup action returns a result whatever the individual
    [delete_backup] calls answer: every selected backup is attempted, in
    order; ["backups-deleted"] holds, in that order, one entry for every
    selected backup whose delete call succeeded and no other, the entry
    carrying the ARN, name, creation time and table of the backup; every
    failed delete is logged as an error. *)
Theorem execute_contains_delete_failures
    (now : Z) (retention_days retention_count : option Z)
    (delete_backup : string -> option string) (table_name : string)
    (backups_for_table to_delete : list DynamodbDeleteBackup.backup) :
  DynamodbDeleteBackup.backups_to_delete now retention_days retention_count
    backups_for_table = Return to_delete ->
  exists r,
    DynamodbDeleteBackup.execute now retention_days retention_count
      delete_backup table_name backups_for_table = Return r
    /\ DynamodbDeleteBackup.calls r
       = map DynamodbDeleteBackup.BackupArn to_delete
    /\ DynamodbDeleteBackup.backups_deleted r
       = map (fun bk =>
                DynamodbDeleteBackup.mkdeleted
                  (DynamodbDeleteBackup.BackupArn bk)
                  (DynamodbDeleteBackup.BackupName bk)
                  (DynamodbDeleteBackup.BackupCreationDateTime bk)
                  (DynamodbDeleteBackup.TableName bk))
           (List.filter
              (fun bk =>
                 match delete_backup (DynamodbDeleteBackup.BackupArn bk) with
                 | None => true
                 | Some _ => false
                 end)
              to_delete)
    /\ DynamodbDeleteBackup.backups r = length backups_for_table
    /\ forall bk ex, In bk to_delete ->
         delete_backup (DynamodbDeleteBackup.BackupArn bk) = Some ex ->
         In (mklog ERROR DynamodbDeleteBackup.ERR_DELETING_BACKUP
                   [DynamodbDeleteBackup.BackupName bk; table_name; ex])
            (DynamodbDeleteBackup.log r).
Proof.
  intros Hsel. unfold DynamodbDeleteBackup.execute. rewrite Hsel. cbn.
  pose proof (DynamodbExecute.delete_loop_spec delete_backup table_name
                to_delete [] [] []) as H.
  destruct (DynamodbDeleteBackup.delete_loop _ _ _ _ _ _) as [[d c] l].
  destruct H as (Hd & Hc & l' & Hl & Herr).
  eexists. split; [reflexivity|]. cbn. subst. cbn.
  split; [reflexivity|]. split; [reflexivity|]. split; [reflexivity|].
  exact Herr.
Qed.

(** ** Completion polling of the terminate-instance action *)

Section IsCompleted.
Import Ec2TerminateInstance.
Variable fails : api_call -> option exception.
Variable instance_id : string.
Variable accounts : option (list string).
Variable build_instance_tags : string -> string -> gmap string string.
Variable strip : string -> string.

Lemma polled_is_completed create_image self_result state_code img er id tr :
  image_is_polled state_code create_image er id ->
  is_completed fails instance_id create_image accounts build_instance_tags
    strip self_result state_code (Some img) er tr
  = (let status := image_State img in
     if String.eqb status "pending" then ret None
     else if String.eqb status "failed" || String.eqb status "error"
             || String.eqb status "invalid"
     then seq (_delete_instance_marker_tag fails instance_id)
            (fun _ => throw (Exception_ ERR_CREATING_IMAGE
                               [instance_id; image_StateReason_Message img]))
     else if String.eqb status "available"
     then seq (_grant_launch_access fails accounts strip id self_result)
            (fun _ => seq (_terminate_instance fails instance_id)
                        (fun _ => ret None))
     else ret None) tr.
Proof.
  intros (H1 & H2 & H3 & -> & Hid). unfold is_completed.
  apply Z.eqb_neq in H1, H2, H3. rewrite H1, H2, H3, Hid. reflexivity.
Qed.

Lemma failure_status_test status :
  terminal_failure_status status ->
  String.eqb status "pending" = false /\
  String.eqb status "failed" || String.eqb status "error"
    || String.eqb status "invalid" = true.
Proof. intros [-> | [-> | ->]]; split; reflexivity. Qed.

(** C7: when [is_completed] looks at the image and its state is
    ["failed"], ["error"] or ["invalid"], the one provider call it issues
    is the removal of the termination marker tag from the instance, and
    it then raises: it returns neither [None] nor a result.  The
    exception is the image-creation failure unless the tag removal itself
    raised. *)
Theorem is_completed_failed_image create_image self_result state_code img
    er id tr :
  image_is_polled state_code create_image er id ->
  terminal_failure_status (image_State img) ->
  let marker_removal :=
    DeleteTags instance_id [(INSTANCE_TERMINATION_MARKER_TAG, "")] in
  exists e,
    is_completed fails instance_id create_image accounts build_instance_tags
      strip self_result state_code (Some img) er tr
    = (Raise e, (tr ++ [marker_removal])%list)
    /\ (fails marker_removal = None ->
        e = Exception_ ERR_CREATING_IMAGE
              [instance_id; image_StateReason_Message img]).
Proof.
  intros Hpoll Hst. cbv zeta. rewrite (polled_is_completed _ _ _ _ _ _ _ Hpoll).
  cbv zeta. destruct (failure_status_test _ Hst) as [-> ->].
  unfold seq, _delete_instance_marker_tag, call, throw.
  destruct (fails _) as [e|].
  - exists e. split; [reflexivity | discriminate].
  - eexists. split; [reflexivity | reflexivity].
Qed.

Lemma terminated_is_completed create_image self_result state_code image er tr :
  Z.land state_code 255 = EC2_STATE_TERMINATED ->
  is_completed fails instance_id create_image accounts build_instance_tags
    strip self_result state_code image er tr
  = seq (_create_terminated_instance_tags fails instance_id
           build_instance_tags
           (default "" (image_id er)) (default "" (image_name er)))
        (fun _ => ret (Some self_result)) tr.
Proof. intros H. unfold is_completed. rewrite H. reflexivity. Qed.

(** C8 (amended): once the instance is terminated, a failure of tagging
    it makes [is_completed] raise an exception that carries the tagging
    error, so the poll does not report success; the only provider call of
    that poll is the tagging call, so the termination is neither reversed
    nor issued again.  Likewise a failure of granting launch permission
    on the available image raises, carrying the error, and no terminate
    call is issued in that poll. *)
Theorem is_completed_secondary_failure_raises create_image self_result
    state_code image er tr :
  (forall e,
     Z.land state_code 255 = EC2_STATE_TERMINATED ->
     let tags := build_instance_tags (default "" (image_id er))
                                     (default "" (image_name er)) in
     size tags <> 0%nat ->
     fails (SetEc2Tags instance_id tags) = Some e ->
     is_completed fails instance_id create_image accounts
       build_instance_tags strip self_result state_code image er tr
     = (Raise (Exception_ ERR_SETTING_INSTANCE_TAGS
                 [instance_id; text_of_exception e]),
        (tr ++ [SetEc2Tags instance_id tags])%list))
  /\ (forall e id img a rest,
        image_is_polled state_code create_image er id ->
        image = Some img -> image_State img = "available" ->
        accounts = Some (a :: rest) ->
        fails (ModifyImageAttribute id (map strip (a :: rest))) = Some e ->
        is_completed fails instance_id create_image accounts
          build_instance_tags strip self_result state_code image er tr
        = (Raise (Exception_ ERR_SETTING_LAUNCH_PERMISSIONS
                    ((a :: rest) ++ [text_of_exception e])%list),
           (tr ++ [ModifyImageAttribute id (map strip (a :: rest))])%list)).
Proof.
  split.
  - intros e Hst tags Hsize Hfail.
    rewrite terminated_is_completed by assumption.
    unfold seq, _create_terminated_instance_tags. fold tags.
    destruct (Z.ltb_spec 0 (Z.of_nat (size tags))); [|lia].
    unfold try_except, call, throw. rewrite Hfail. reflexivity.
  - intros e id img a rest Hpoll -> Hav Hacc Hfail.
    rewrite (polled_is_completed _ _ _ _ _ _ _ Hpoll). cbv zeta.
    rewrite Hav. cbn [String.eqb orb]. 
    replace (String.eqb "available" "pending") with false by reflexivity.
    replace (String.eqb "available" "failed" || String.eqb "available" "error"
             || String.eqb "available" "invalid") with false by reflexivity.
    replace (String.eqb "available" "available") with true by reflexivity.
    unfold seq at 1. unfold _grant_launch_access. rewrite Hacc.
    unfold try_except, seq, call, throw. rewrite Hfail. reflexivity.
Qed.
End IsCompleted.

(** * Owner resolution *)

(** The EC2 action: an image without source tag is dropped and reported
    when the task keeps a positive count. *)
Lemma ec2_unresolved_owner_excluded parse tag (img : Ec2DeleteImage.image)
    (task_parameters : gmap string Z) :
  Ec2DeleteImage.Tags img !! tag = None ->
  0 < default 0 (task_parameters !! PARAM_RETENTION_COUNT) ->
  Ec2DeleteImage.process_and_select_resource tag img task_parameters
  = (None, [mklog INFO Ec2DeleteImage.INFO_NO_SOURCE_INSTANCE_WITH_RETENTION
                  [Ec2DeleteImage.ImageId img]])
  /\ (forall n out,
        Ec2DeleteImage.by_retention_count parse tag n [img] = Return out ->
        Ec2DeleteImage.SourceInstanceId img <> None).
Proof.
  intros Htag Hcount. split.
  - unfold Ec2DeleteImage.process_and_select_resource,
      Ec2DeleteImage._image_instance.
    rewrite Htag. cbn. destruct (Z.gtb_spec
      (default 0 (task_parameters !! PARAM_RETENTION_COUNT)) 0); [reflexivity | lia].
  - intros n out. unfold Ec2DeleteImage.by_retention_count, sorted_by_key. cbn.
    destruct (Ec2DeleteImage.SourceInstanceId img); cbn;
      [intros _ | intros H]; discriminate.
Qed.

(** The RDS action never hands an unresolved snapshot on when the task
    keeps a positive count. *)
Lemma rds_unresolved_owner_never_selected tag
    (s : RdsDeleteInstanceSnapshot.snapshot) (task_parameters : gmap string Z) :
  RdsDeleteInstanceSnapshot.DBInstanceIdentifier s = None ->
  RdsDeleteInstanceSnapshot.Tags s !! tag = None ->
  0 < default 0 (task_parameters !! PARAM_RETENTION_COUNT) ->
  RdsDeleteInstanceSnapshot.process_and_select_resource tag s task_parameters
  = match RdsDeleteInstanceSnapshot.SnapshotId s with
    | None => Raise (KeyError "SnapshotId")
    | Some sid =>
        Return (None,
                [mklog INFO
                   RdsDeleteInstanceSnapshot.INFO_NO_SOURCE_INSTANCE_ID_WITH_RETENTION
                   [sid]])
    end.
Proof.
  intros Hid Htag Hcount.
  unfold RdsDeleteInstanceSnapshot.process_and_select_resource.
  rewrite Hid, Htag.
  destruct (Z.gtb_spec (default 0 (task_parameters !! PARAM_RETENTION_COUNT)) 0);
    [reflexivity | lia].
Qed.

(** C4 on the RDS action: a snapshot as the select expression delivers it,
    without owner id and without source tag, under [RetentionCount = 2].
    Selection neither drops nor reports it: reading the key ["SnapshotId"]
    for the log line raises [KeyError]. *)
Theorem rds_unresolved_owner_raises :
  RdsDeleteInstanceSnapshot.process_and_select_resource
    Examples.rds_source_tag Examples.orphan_snapshot
    {[ PARAM_RETENTION_COUNT := 2 ]}
  = Raise (KeyError "SnapshotId").
Proof.
  rewrite rds_unresolved_owner_never_selected; reflexivity.
Qed.

(** The sibling in the EC2 action, on the like input, drops the image and
    logs it. *)
Example ec2_unresolved_owner_example :
  Ec2DeleteImage.process_and_select_resource Examples.ec2_source_tag
    Examples.orphan_image {[ PARAM_RETENTION_COUNT := 2 ]}
  = (None, [mklog INFO Ec2DeleteImage.INFO_NO_SOURCE_INSTANCE_WITH_RETENTION
                  ["ami-orphan"]]).
Proof.
  apply (ec2_unresolved_owner_excluded Examples.parse); reflexivity.
Qed.

(** * Creation timestamps *)

(** C9, as the specification states it, fails for a structured timestamp
    without zone: [get_creation_time] hands it on as it is, and comparing it
    with the aware cutoff raises [TypeError]. *)
Lemma naive_timestamp_comparison_fails :
  RdsDeleteInstanceSnapshot.get_creation_time Examples.parse
    Examples.naive_snapshot = Return (Examples.naive_day 1)
  /\ RdsDeleteInstanceSnapshot.by_retention_days Examples.parse
       (10 * usec_per_day) 7 [Examples.naive_snapshot]
     = Raise (TypeError msg_naive_aware).
Proof. split; reflexivity. Qed.

(** The structured branch of the EC2 action reads the key ["StartTime"],
    which an image does not have. *)
Example ec2_structured_timestamp_raises :
  Ec2DeleteImage.get_creation_time Examples.parse Examples.structured_image
  = Raise (KeyError "StartTime").
Proof. reflexivity. Qed.

(** C9 (amended): [get_creation_time] of the RDS action hands a structured
    timestamp on unchanged and parses a string; for an image the EC2 action
    parses a string.  No zone is added or converted.  When the value obtained
    carries a zone, comparing it with the cutoff, and with another such
    value, succeeds and compares UTC instants, so both shapes of one instant
    are treated alike; when it carries no zone, comparing it with the cutoff
    raises a [TypeError]. *)
Theorem get_creation_time_keeps_zone (parse : string -> outcome datetime)
    (now days : Z) :
  (forall s d, RdsDeleteInstanceSnapshot.SnapshotCreateTime s = TsDatetime d ->
     RdsDeleteInstanceSnapshot.get_creation_time parse s = Return d)
  /\ (forall s str, RdsDeleteInstanceSnapshot.SnapshotCreateTime s = TsString str ->
        RdsDeleteInstanceSnapshot.get_creation_time parse s = parse str)
  /\ (forall img str, Ec2DeleteImage.CreationDate img = TsString str ->
        Ec2DeleteImage.get_creation_time parse img = parse str)
  /\ (forall d, is_aware d = true ->
        Datetime.lt d (delete_before_dt now days)
        = Return (utc_instant d <? spec_cutoff now days))
  /\ (forall d1 d2, is_aware d1 = true -> is_aware d2 = true ->
        Datetime.lt d1 d2 = Return (utc_instant d1 <? utc_instant d2))
  /\ (forall d, is_aware d = false ->
        Datetime.lt d (delete_before_dt now days)
        = Raise (TypeError msg_naive_aware)).
Proof.
  repeat split.
  - intros s d H. unfold RdsDeleteInstanceSnapshot.get_creation_time.
    rewrite H. reflexivity.
  - intros s str H. unfold RdsDeleteInstanceSnapshot.get_creation_time.
    rewrite H. reflexivity.
  - intros img str H. unfold Ec2DeleteImage.get_creation_time.
    rewrite H. reflexivity.
  - intros d Hd. unfold is_aware in Hd.
    unfold Datetime.lt, utc_instant, delete_before_dt, spec_cutoff. cbn.
    destruct (tzinfo d); [|discriminate]. rewrite Z.sub_0_r. reflexivity.
  - intros d1 d2 H1 H2.
    apply (datetime_lt_same_awareness true); assumption.
  - intros d Hd. unfold is_aware in Hd. unfold Datetime.lt, delete_before_dt.
    cbn. destruct (tzinfo d); [discriminate | reflexivity].
Qed.

Lemma get_creation_time_keeps_zone_witness :
  Datetime.lt (Examples.day 2) (delete_before_dt (10 * usec_per_day) 7)
  = Return (utc_instant (Examples.day 2) <? spec_cutoff (10 * usec_per_day) 7).
Proof.
  apply (proj1 (proj2 (proj2 (proj2
    (get_creation_time_keeps_zone Examples.parse (10 * usec_per_day) 7))))).
  reflexivity.
Defined.

(** * The idempotency marker *)

(** Whole seconds against a limit in seconds, and microseconds against the
    same limit. *)
Lemma whole_seconds_ltb (age limit : Z) :
  0 < limit \/ 0 <= age ->
  (int_total_seconds age <? limit) = (age <? limit * usec_per_second).
Proof.
  intros H. unfold int_total_seconds, usec_per_second.
  destruct (Z.le_gt_cases 0 age) as [Hage|Hage].
  - rewrite Z.quot_div_nonneg by lia.
    pose proof (Z.div_mod age 1000000 ltac:(lia)) as Hdm.
    pose proof (Z.mod_pos_bound age 1000000 ltac:(lia)) as Hb.
    destruct (Z.ltb_spec (age / 1000000) limit),
             (Z.ltb_spec age (limit * 1000000)); try reflexivity; nia.
  - destruct H as [Hlim|]; [|lia].
    assert (Hq : Z.quot age 1000000 <= 0).
    { replace age with (- (- age)) by lia.
      rewrite Z.quot_opp_l by lia.
      pose proof (Z.quot_pos (- age) 1000000 ltac:(lia) ltac:(lia)). lia. }
    destruct (Z.ltb_spec (Z.quot age 1000000) limit),
             (Z.ltb_spec age (limit * 1000000)); try reflexivity; nia.
Qed.

Section TraceGrows.
Import Ec2TerminateInstance.

Lemma extends_ret {A : Type} (a : A) : extends (ret a).
Proof. intros tr. exists []. cbn. rewrite app_nil_r. reflexivity. Qed.

Lemma extends_throw {A : Type} e : extends (@throw A e).
Proof. intros tr. exists []. cbn. rewrite app_nil_r. reflexivity. Qed.

Lemma extends_call fails c : extends (call fails c).
Proof.
  intros tr. exists [c]. unfold call. destruct (fails c); reflexivity.
Qed.

Lemma extends_seq {A B : Type} (m : action A) (k : A -> action B) :
  extends m -> (forall a, extends (k a)) -> extends (seq m k).
Proof.
  intros Hm Hk tr. unfold seq. destruct (Hm tr) as [r1 H1].
  destruct (m tr) as [[a|e] tr1]; cbn in H1; subst.
  - destruct (Hk a (tr ++ r1)%list) as [r2 H2]. exists (r1 ++ r2)%list.
    rewrite H2, app_assoc. reflexivity.
  - exists r1. reflexivity.
Qed.

Lemma extends_try {A : Type} (m : action A) (h : exception -> action A) :
  extends m -> (forall e, extends (h e)) -> extends (try_except m h).
Proof.
  intros Hm Hh tr. unfold try_except. destruct (Hm tr) as [r1 H1].
  destruct (m tr) as [[a|e] tr1]; cbn in H1; subst.
  - exists r1. reflexivity.
  - destruct (Hh e (tr ++ r1)%list) as [r2 H2]. exists (r1 ++ r2)%list.
    rewrite H2, app_assoc. reflexivity.
Qed.
End TraceGrows.

Section Selection.
Import Ec2TerminateInstance.
Variable json_loads : string -> outcome json.
Variable safe_json : json -> string.
Variable parse : string -> outcome datetime.
Variable isoformat : datetime -> string.

Local Abbreviation select :=
  (process_and_select_resource json_loads safe_json parse isoformat).

Lemma select_parsable now resource task_timeout tag_value written :
  Tags resource !! INSTANCE_TERMINATION_MARKER_TAG = Some tag_value ->
  Marker.parsable json_loads parse tag_value written ->
  exists args,
    select now resource task_timeout
    = if Marker.age_seconds now written <? Marker.timeout_seconds task_timeout
      then Return (None, [mklog INFO INF_ALREADY_TERMINATED args])
      else Return (Some resource, [mklog INFO INF_TERMINATE_TIMEOUT args]).
Proof.
  intros Htag (members & date_str & stack & task & task_id & Hjson & Hdate
               & Hparse & Hnaive & Hstack & Htask & Hid).
  unfold process_and_select_resource. rewrite Htag, Hjson. cbn.
  unfold marker_date. cbn. rewrite Hdate. cbn. rewrite Hparse.
  unfold Datetime.sub. cbn. rewrite Hnaive. cbn.
  unfold marker_log_args. cbn. rewrite Hstack, Htask, Hid. cbn.
  unfold Marker.age_seconds, Marker.timeout_seconds, int_total_seconds,
    usec_per_second, ACTION_COMPLETION_TIMEOUT_MINUTES.
  eexists. destruct (_ <? _); reflexivity.
Qed.

Lemma select_unmarked now resource task_timeout :
  Tags resource !! INSTANCE_TERMINATION_MARKER_TAG = None ->
  select now resource task_timeout = Return (Some resource, []).
Proof.
  intros Htag. unfold process_and_select_resource. rewrite Htag. reflexivity.
Qed.

Lemma execute_writes_marker_first fails instance_id create_image
    image_name description image_tags image_instance_tag new_image_id
    stack task task_id now self_result tr :
  exists out rest,
    execute fails instance_id create_image image_name description image_tags
      image_instance_tag new_image_id safe_json isoformat stack task task_id
      now self_result tr
    = (out,
       (tr ++ CreateTags instance_id
                [(INSTANCE_TERMINATION_MARKER_TAG,
                  safe_json (marker_value stack task task_id isoformat now))]
             :: rest)%list).
Proof.
  unfold execute, set_in_termination_tag. unfold seq at 1. unfold call at 1.
  destruct (fails _) as [e|].
  - exists (Raise e), []. reflexivity.
  - match goal with
    | |- exists out rest, ?k ?tr1 = _ =>
        assert (Hext : extends k)
    end.
    { apply extends_seq.
      - destruct create_image.
        + apply extends_seq; [|intros; apply extends_ret].
          apply extends_try; [|intros; apply extends_throw].
          apply extends_seq; [apply extends_call|]. intros _.
          apply extends_seq; [|intros; apply extends_ret].
          unfold _create_image_tags.
          destruct (0 <? _); [|apply extends_ret].
          apply extends_try; [apply extends_call | intros; apply extends_throw].
        + apply extends_seq; [|intros; apply extends_ret].
          apply extends_try; [apply extends_call|]. intros e.
          apply extends_seq; [apply extends_call | intros; apply extends_throw].
      - intros; apply extends_ret. }
    match goal with
    | |- exists out rest, ?k ?tr1 = _ =>
        destruct (Hext tr1) as [rest Hrest];
        destruct (k tr1) as [out tr2] eqn:Hk
    end.
    cbn in Hrest. subst. exists out, rest.
    rewrite <- app_assoc. reflexivity.
Qed.

(** C5 (amended): for a resource whose marker tag holds what
    [set_in_termination_tag] writes, an object that names stack, task and
    task id and has a date without zone, selection skips the resource,
    without error, when the age of the marker, in whole seconds, is
    strictly below the action timeout, and hands the resource on when it
    has reached the timeout; for a marker that is not from the future this
    is the comparison of the exact age with the timeout.  A resource
    without marker is handed on, and the provider call [execute] issues
    first writes the marker: the stack, the task, the task id and the text
    of the current time.  When decoding and parsing undo the encodings, a
    resource that carries this marker is skipped until the timeout has
    passed. *)
Theorem try_claim_by_marker_age now (resource : instance)
    (task_timeout : option Z) :
  (forall tag_value written,
      Tags resource !! INSTANCE_TERMINATION_MARKER_TAG = Some tag_value ->
      Marker.parsable json_loads parse tag_value written ->
      (Marker.age_seconds now written < Marker.timeout_seconds task_timeout ->
         exists args,
           select now resource task_timeout
           = Return (None, [mklog INFO INF_ALREADY_TERMINATED args]))
      /\ (Marker.timeout_seconds task_timeout <= Marker.age_seconds now written ->
            exists args,
              select now resource task_timeout
              = Return (Some resource, [mklog INFO INF_TERMINATE_TIMEOUT args]))
      /\ (0 <= Marker.age now written ->
            (Marker.age_seconds now written < Marker.timeout_seconds task_timeout
             <-> Marker.age now written < Marker.timeout task_timeout)))
  /\ (Tags resource !! INSTANCE_TERMINATION_MARKER_TAG = None ->
        select now resource task_timeout = Return (Some resource, [])
        /\ forall fails create_image image_name description image_tags
             image_instance_tag new_image_id stack task task_id started
             self_result tr,
           let fresh :=
             JObject [("stack", JString stack); ("task", JString task);
                      ("task-id", JString task_id);
                      ("datetime", JString (isoformat (utcnow started)))] in
           (exists out rest,
              execute fails (InstanceId resource) create_image image_name
                description image_tags image_instance_tag new_image_id
                safe_json isoformat stack task task_id started self_result tr
              = (out,
                 (tr ++ CreateTags (InstanceId resource)
                          [(INSTANCE_TERMINATION_MARKER_TAG, safe_json fresh)]
                       :: rest)%list))
           /\ (json_loads (safe_json fresh) = Return fresh ->
               parse (isoformat (utcnow started)) = Return (utcnow started) ->
               forall later marked,
                 Tags marked !! INSTANCE_TERMINATION_MARKER_TAG
                 = Some (safe_json fresh) ->
                 Z.quot (later - started) 1000000
                 < Marker.timeout_seconds task_timeout ->
                 exists args,
                   select later marked task_timeout
                   = Return (None, [mklog INFO INF_ALREADY_TERMINATED args]))).
Proof.
  split.
  - intros tag_value written Htag Hp.
    destruct (select_parsable now resource task_timeout tag_value written
                Htag Hp) as [args Hsel].
    split; [|split].
    + intros Hage. exists args. rewrite Hsel.
      apply Z.ltb_lt in Hage. rewrite Hage. reflexivity.
    + intros Hage. exists args. rewrite Hsel.
      apply Z.ltb_ge in Hage. rewrite Hage. reflexivity.
    + intros Hpos.
      pose proof (whole_seconds_ltb (Marker.age now written)
                    (default ACTION_COMPLETION_TIMEOUT_MINUTES task_timeout
                     * 60) (or_intror Hpos)) as Hw.
      unfold Marker.age_seconds, Marker.timeout_seconds, Marker.timeout,
        Marker.age in *.
      unfold int_total_seconds, usec_per_second,
        ACTION_COMPLETION_TIMEOUT_MINUTES in *.
      rewrite <- !Z.ltb_lt. rewrite Hw. reflexivity.
  - intros Htag. split; [apply select_unmarked; exact Htag|].
    intros fails create_image image_name description image_tags
      image_instance_tag new_image_id stack task task_id started self_result
      tr fresh.
    split; [apply execute_writes_marker_first|].
    intros Hjson Hiso later marked Hmarked Hage.
    assert (Hp : Marker.parsable json_loads parse (safe_json fresh)
                   (utcnow started)).
    { exists [("stack", JString stack); ("task", JString task);
              ("task-id", JString task_id);
              ("datetime", JString (isoformat (utcnow started)))],
             (isoformat (utcnow started)), (JString stack), (JString task),
             (JString task_id).
      repeat split; assumption || reflexivity. }
    destruct (select_parsable later marked task_timeout (safe_json fresh)
                (utcnow started) Hmarked Hp) as [args Hsel].
    exists args. rewrite Hsel. unfold Marker.age_seconds. cbn [wall utcnow].
    apply Z.ltb_lt in Hage. rewrite Hage. reflexivity.
Qed.

Lemma select_corrupted_date now resource task_timeout tag_value
    terminate_data :
  Tags resource !! INSTANCE_TERMINATION_MARKER_TAG = Some tag_value ->
  Marker.corrupted_date json_loads parse now isoformat tag_value
    terminate_data ->
  exists error args,
    select now resource task_timeout
    = if 0 <? default ACTION_COMPLETION_TIMEOUT_MINUTES task_timeout * 60
      then Return (None,
                   [mklog ERROR ERR_INVALID_DATE_IN_TERMINATION_MARKER error;
                    mklog INFO INF_ALREADY_TERMINATED args])
      else Return (Some resource,
                   [mklog ERROR ERR_INVALID_DATE_IN_TERMINATION_MARKER error;
                    mklog INFO INF_TERMINATE_TIMEOUT args]).
Proof.
  intros Htag (Hjson & Hdate & Hstack & Htask & Hid).
  unfold process_and_select_resource. rewrite Htag, Hjson. cbn.
  destruct (marker_date parse isoformat now terminate_data) as [d|e];
    [discriminate|].
  unfold Datetime.sub, marker_log_args. cbn.
  destruct (json_getitem terminate_data "stack") as [stack|]; [|discriminate].
  destruct (json_getitem terminate_data "task") as [task|]; [|discriminate].
  destruct (json_getitem terminate_data "task-id") as [task_id|];
    [|discriminate].
  cbn. rewrite Z.sub_diag. unfold int_total_seconds.
  replace (Z.quot 0 usec_per_second) with 0 by reflexivity.
  do 2 eexists. destruct (0 <? _); reflexivity.
Qed.

(** A tag value that is not JSON makes selection raise the decoding
    error: [json.loads] stands outside the [try] block. *)
Lemma select_not_json_raises now (resource : instance)
    (task_timeout : option Z) (tag_value : string) e :
  Tags resource !! INSTANCE_TERMINATION_MARKER_TAG = Some tag_value ->
  json_loads tag_value = Raise e ->
  select now resource task_timeout = Raise e.
Proof.
  intros Htag He. unfold process_and_select_resource.
  rewrite Htag, He. reflexivity.
Qed.

(** C6 (amended): when the marker tag holds JSON that names its owner but
    no date can be read from it, the error is logged and the marker counts
    as written at this moment: with a positive timeout the resource is
    skipped, however old the marker is, and it is handed on only when the
    timeout is not positive. *)
Theorem corrupted_marker_counts_as_fresh now (resource : instance)
    (task_timeout : option Z) (tag_value : string) (terminate_data : json) :
  Tags resource !! INSTANCE_TERMINATION_MARKER_TAG = Some tag_value ->
  Marker.corrupted_date json_loads parse now isoformat tag_value
    terminate_data ->
  (0 < default ACTION_COMPLETION_TIMEOUT_MINUTES task_timeout ->
     exists error args,
       select now resource task_timeout
       = Return (None,
           [mklog ERROR ERR_INVALID_DATE_IN_TERMINATION_MARKER error;
            mklog INFO INF_ALREADY_TERMINATED args]))
  /\ (default ACTION_COMPLETION_TIMEOUT_MINUTES task_timeout <= 0 ->
        exists error args,
          select now resource task_timeout
          = Return (Some resource,
              [mklog ERROR ERR_INVALID_DATE_IN_TERMINATION_MARKER error;
               mklog INFO INF_TERMINATE_TIMEOUT args])).
Proof.
  intros Htag Hc.
  destruct (select_corrupted_date now resource task_timeout tag_value
              terminate_data Htag Hc) as (error & args & Hsel).
  split; intros Ht; exists error, args; rewrite Hsel.
  - destruct (Z.ltb_spec 0
      (default ACTION_COMPLETION_TIMEOUT_MINUTES task_timeout * 60));
      [reflexivity | lia].
  - destruct (Z.ltb_spec 0
      (default ACTION_COMPLETION_TIMEOUT_MINUTES task_timeout * 60));
      [lia | reflexivity].
Qed.
End Selection.

(** * The theorems at concrete inputs *)

Section Concrete.
Import Ec2TerminateInstance.

Local Abbreviation select :=
  (process_and_select_resource Examples.json_loads Examples.safe_json
     Examples.parse_naive Examples.isoformat).

(** Ten minutes after midnight of day 1. *)
Local Abbreviation ten_past := (1 * usec_per_day + 600 * usec_per_second).

Lemma example_marker_parsable :
  Marker.parsable Examples.json_loads Examples.parse_naive
    "marker written on day 1" (Examples.naive_day 1).
Proof.
  exists (Examples.marker_members "2019-06-01T00:00:00"),
         "2019-06-01T00:00:00", (JString "OpsAutomator"),
         (JString "terminate"), (JString "7f3c").
  repeat split.
Qed.

(** C5, as the specification states it, fails for a marker whose date can
    be parsed and carries a zone: the marker names its owner and its date
    reads as midnight UTC of day 3; ten minutes later, with the timeout of
    60 minutes, the resource is neither skipped nor handed on: taking the
    age against the zone-less current time raises [TypeError]. *)
Lemma parsable_marker_with_zone_is_an_error :
  MoreExamples.json_loads "marker with a zone"
  = Return (JObject (Examples.marker_members "2019-06-03T00:00:00Z"))
  /\ MoreExamples.parse "2019-06-03T00:00:00Z" = Return (Examples.day 3)
  /\ process_and_select_resource MoreExamples.json_loads Examples.safe_json
       MoreExamples.parse Examples.isoformat
       (3 * usec_per_day + 600 * usec_per_second)
       (Examples.marked_server "marker with a zone") None
     = Raise (TypeError msg_sub_naive_aware).
Proof. repeat split; vm_compute; reflexivity. Qed.

(** A marker written ten minutes ago, timeout of 60 minutes: skipped.  A
    server without marker is handed on; [execute] at midnight of day 1
    writes the marker first, and ten minutes later a server that carries
    it is skipped. *)
Lemma try_claim_by_marker_age_witness :
  (exists args,
      select ten_past (Examples.marked_server "marker written on day 1") None
      = Return (None, [mklog INFO INF_ALREADY_TERMINATED args]))
  /\ select ten_past (Examples.server ∅) None
     = Return (Some (Examples.server ∅), [])
  /\ (exists out rest,
        execute Examples.accept_all "i-0abc" false "" "" ∅ "" ""
          Examples.safe_json Examples.isoformat "OpsAutomator" "terminate"
          "7f3c" (1 * usec_per_day) Examples.base_result []
        = (out,
           ([] ++ CreateTags "i-0abc"
                    [(INSTANCE_TERMINATION_MARKER_TAG,
                      Examples.safe_json
                        (JObject
                           [("stack", JString "OpsAutomator");
                            ("task", JString "terminate");
                            ("task-id", JString "7f3c");
                            ("datetime",
                             JString (Examples.isoformat
                                        (utcnow (1 * usec_per_day))))]))]
                 :: rest)%list))
  /\ (exists args,
        select ten_past
          (Examples.marked_server
             (Examples.safe_json
                (JObject
                   [("stack", JString "OpsAutomator");
                    ("task", JString "terminate");
                    ("task-id", JString "7f3c");
                    ("datetime",
                     JString (Examples.isoformat
                                (utcnow (1 * usec_per_day))))])))
          None
        = Return (None, [mklog INFO INF_ALREADY_TERMINATED args])).
Proof.
  split.
  - refine (proj1
      (proj1 (try_claim_by_marker_age Examples.json_loads Examples.safe_json
                Examples.parse_naive Examples.isoformat ten_past
                (Examples.marked_server "marker written on day 1") None)
         "marker written on day 1" (Examples.naive_day 1) _
         example_marker_parsable) _).
    + apply lookup_singleton_eq.
    + reflexivity.
  - pose proof (proj2 (try_claim_by_marker_age Examples.json_loads
                         Examples.safe_json Examples.parse_naive
                         Examples.isoformat ten_past (Examples.server ∅) None)
                  (lookup_empty _)) as [Hsel Hexec].
    pose proof (Hexec Examples.accept_all false "" "" ∅ "" "" "OpsAutomator"
                  "terminate" "7f3c" (1 * usec_per_day) Examples.base_result
                  []) as Hfresh.
    cbv zeta in Hfresh. destruct Hfresh as [Hwrite Hback].
    split; [exact Hsel|]. split; [exact Hwrite|].
    apply (Hback eq_refl eq_refl).
    + apply lookup_singleton_eq.
    + reflexivity.
Defined.

(** After two hours the same marker is stale: the resource is handed on. *)
Example stale_marker_resumed :
  select (1 * usec_per_day + 7200 * usec_per_second)
    (Examples.marked_server "marker written on day 1") None
  = Return (Some (Examples.marked_server "marker written on day 1"),
            [mklog INFO INF_TERMINATE_TIMEOUT
               ["i-0abc"; "OpsAutomator"; "terminate"; "7f3c"]]).
Proof. vm_compute. reflexivity. Qed.

Lemma example_marker_corrupted now :
  Marker.corrupted_date Examples.json_loads Examples.parse_naive now
    Examples.isoformat "marker with a broken date"
    (JObject (Examples.marker_members "not-a-date")).
Proof. repeat split. Qed.

(** C6, as the specification states it, fails for a marker whose date
    cannot be parsed: nine days after the marker was set, with the timeout
    of 60 minutes, the resource is skipped, not selected. *)
Lemma corrupted_marker_is_skipped :
  Examples.parse_naive "not-a-date" = Raise (ParserError "not-a-date")
  /\ select (10 * usec_per_day)
       (Examples.marked_server "marker with a broken date") None
     = Return (None,
         [mklog ERROR ERR_INVALID_DATE_IN_TERMINATION_MARKER
            ["not-a-date"; INSTANCE_TERMINATION_MARKER_TAG; "not-a-date"];
          mklog INFO INF_ALREADY_TERMINATED
            ["i-0abc"; "OpsAutomator"; "terminate"; "7f3c"]]).
Proof. split; vm_compute; reflexivity. Qed.

Lemma corrupted_marker_counts_as_fresh_witness :
  exists error args,
    select (10 * usec_per_day)
      (Examples.marked_server "marker with a broken date") None
    = Return (None,
        [mklog ERROR ERR_INVALID_DATE_IN_TERMINATION_MARKER error;
         mklog INFO INF_ALREADY_TERMINATED args]).
Proof.
  refine (proj1
    (corrupted_marker_counts_as_fresh Examples.json_loads
       Examples.safe_json Examples.parse_naive Examples.isoformat
       (10 * usec_per_day)
       (Examples.marked_server "marker with a broken date") None
       "marker with a broken date"
       (JObject (Examples.marker_members "not-a-date")) _
       (example_marker_corrupted _)) _).
  - apply lookup_singleton_eq.
  - reflexivity.
Defined.

Lemma example_image_polled :
  image_is_polled 16 true Examples.with_image "ami-0123".
Proof. repeat split; discriminate. Qed.

Lemma is_completed_failed_image_witness :
  exists e,
    is_completed Examples.accept_all "i-0abc" true None
      Examples.terminated_tags (fun a => a) Examples.base_result 16
      (Some Examples.failed_image) Examples.with_image []
    = (Raise e,
       [DeleteTags "i-0abc" [(INSTANCE_TERMINATION_MARKER_TAG, "")]])
    /\ (Examples.accept_all
          (DeleteTags "i-0abc" [(INSTANCE_TERMINATION_MARKER_TAG, "")])
        = None ->
        e = Exception_ ERR_CREATING_IMAGE
              ["i-0abc"; "snapshot creation failed"]).
Proof.
  refine (is_completed_failed_image Examples.accept_all "i-0abc" None
            Examples.terminated_tags (fun a => a) true Examples.base_result
            16 Examples.failed_image Examples.with_image "ami-0123" []
            example_image_polled _).
  left. reflexivity.
Defined.

(** C8, as the specification states it, fails when tagging the
    terminated instance fails: the instance is terminated (state code 48),
    and the poll raises instead of returning the result. *)
Lemma tagging_failure_fails_the_poll :
  Z.land 48 255 = EC2_STATE_TERMINATED
  /\ is_completed Examples.refuse_secondary "i-0abc" false None
       Examples.terminated_tags (fun a => a) Examples.base_result 48 None
       Examples.with_image []
     = (Raise (Exception_ ERR_SETTING_INSTANCE_TAGS
                 ["i-0abc"; "RequestLimitExceeded"]),
        [SetEc2Tags "i-0abc" {[ "Terminated" := "yes" ]}]).
Proof. split; vm_compute; reflexivity. Qed.

Lemma is_completed_secondary_failure_raises_witness :
  is_completed Examples.refuse_secondary "i-0abc" false None
    Examples.terminated_tags (fun a => a) Examples.base_result 48 None
    Examples.with_image []
  = (Raise (Exception_ ERR_SETTING_INSTANCE_TAGS
              ["i-0abc"; text_of_exception (ClientError "RequestLimitExceeded")]),
     ([] ++ [SetEc2Tags "i-0abc"
               (Examples.terminated_tags
                  (default "" (image_id Examples.with_image))
                  (default "" (image_name Examples.with_image)))])%list).
Proof.
  refine (proj1 (is_completed_secondary_failure_raises
                   Examples.refuse_secondary "i-0abc" None
                   Examples.terminated_tags (fun a => a) false
                   Examples.base_result 48 None Examples.with_image [])
            (ClientError "RequestLimitExceeded") _ _ _).
  - reflexivity.
  - vm_compute. discriminate.
  - reflexivity.
Defined.

(** With the tagging accepted the same poll returns the result. *)
Example tagging_success_completes :
  is_completed Examples.accept_all "i-0abc" false None
    Examples.terminated_tags (fun a => a) Examples.base_result 48 None
    Examples.with_image []
  = (Return (Some Examples.base_result),
     [SetEc2Tags "i-0abc" {[ "Terminated" := "yes" ]}]).
Proof. vm_compute. reflexivity. Qed.
End Concrete.

Lemma example_selection_days_7 :
  DynamodbDeleteBackup.backups_to_delete (10 * usec_per_day) (Some 7) None
    Examples.scenario_A
  = Return [Examples.table_backup 1 "day1"; Examples.table_backup 2 "day2"].
Proof. vm_compute. reflexivity. Qed.

(** Scenario A, seven days: the backups of day 1 and day 2 are selected;
    deleting the first fails, the second is reported. *)
Lemma execute_contains_delete_failures_witness :
  exists r,
    DynamodbDeleteBackup.execute (10 * usec_per_day) (Some 7) None
      Examples.delete_backup "T" Examples.scenario_A = Return r
    /\ DynamodbDeleteBackup.calls r
       = ["arn:aws:dynamodb:eu-west-1:111122223333:table/T/backup/day1";
          "arn:aws:dynamodb:eu-west-1:111122223333:table/T/backup/day2"]
    /\ DynamodbDeleteBackup.backups_deleted r
       = [DynamodbDeleteBackup.mkdeleted
            "arn:aws:dynamodb:eu-west-1:111122223333:table/T/backup/day2"
            "day2" (Examples.day 2) "T"].
Proof.
  destruct (execute_contains_delete_failures (10 * usec_per_day) (Some 7) None
              Examples.delete_backup "T" Examples.scenario_A _
              example_selection_days_7) as (r & Hr & Hcalls & Hdel & _).
  exists r. split; [exact Hr|]. split; [exact Hcalls | exact Hdel].
Defined.

(** A task without [RetentionCount] and without [RetentionDays] selects
    nothing from a table without backups, and fails on the first backup of
    any other table. *)
Example missing_count_on_empty_table :
  DynamodbDeleteBackup.backups_to_delete (10 * usec_per_day) None None []
  = Return []
  /\ returned (DynamodbDeleteBackup.backups_to_delete (10 * usec_per_day)
                 None None Examples.scenario_A) = false.
Proof. split; vm_compute; reflexivity. Qed.

(** The first deletion fails, the second is still carried out. *)
Example execute_continues_after_failure :
  DynamodbDeleteBackup.execute (10 * usec_per_day) (Some 7) None
    Examples.delete_backup "T" Examples.scenario_A
  = Return (DynamodbDeleteBackup.mkresult 4
      [DynamodbDeleteBackup.strip (Examples.table_backup 2 "day2")]
      ["arn:aws:dynamodb:eu-west-1:111122223333:table/T/backup/day1";
       "arn:aws:dynamodb:eu-west-1:111122223333:table/T/backup/day2"]
      [mklog ERROR DynamodbDeleteBackup.ERR_DELETING_BACKUP
         ["day1"; "T"; "BackupInUseException"];
       mklog INFO DynamodbDeleteBackup.INF_DELETED_BACKUP ["day2"]]).
Proof. vm_compute. reflexivity. Qed.

(** * More on the retention selections *)

Lemma strongly_sorted_app {A : Type} (R : A -> A -> Prop) (l1 l2 : list A) :
  StronglySorted R (l1 ++ l2)%list ->
  forall a b, In a l1 -> In b l2 -> R a b.
Proof.
  induction l1 as [|x l1 IH]; cbn; intros Hs a b Ha Hb; [destruct Ha|].
  apply StronglySorted_inv in Hs as [Hs Hx]. destruct Ha as [<-|Ha].
  - rewrite List.Forall_forall in Hx. apply Hx. apply in_or_app. right. exact Hb.
  - apply IH; assumption.
Qed.

Lemma strongly_sorted_filter {A : Type} (R : A -> A -> Prop) (p : A -> bool)
    (l : list A) :
  StronglySorted R l -> StronglySorted R (List.filter p l).
Proof.
  induction 1 as [|x l Hl IH Hx]; cbn; [constructor|].
  destruct (p x); [|exact IH]. constructor; [exact IH|].
  rewrite List.Forall_forall in *. intros y Hy. apply Hx.
  apply filter_In in Hy. tauto.
Qed.

Lemma in_skipn_in {A : Type} (n : nat) (l : list A) (x : A) :
  In x (skipn n l) -> In x l.
Proof.
  intros H. rewrite <- (firstn_skipn n l). apply in_or_app. right. exact H.
Qed.

Lemma newest_first_sorted {A : Type} (instant : A -> Z) (l : list A) :
  StronglySorted (fun a b => instant b <= instant a)
    (spec_newest_first instant l).
Proof.
  assert (Hs : StronglySorted (may_precede (ahead_by instant Z.ltb true))
                 (spec_newest_first instant l)).
  { apply sort_pure_sorted.
    - apply ahead_by_precede_trans. split.
      + intros a b. rewrite Z.ltb_lt, Z.ltb_ge. lia.
      + intros a b c. rewrite !Z.ltb_lt. lia.
    - apply ahead_by_asym. split.
      + intros a b. rewrite Z.ltb_lt, Z.ltb_ge. lia.
      + intros a b c. rewrite !Z.ltb_lt. lia. }
  induction Hs as [|x m Hm IH Hx]; constructor; [exact IH|].
  eapply List.Forall_impl; [|exact Hx]. intros y Hy.
  unfold may_precede, ahead_by in Hy. apply Z.ltb_ge in Hy. exact Hy.
Qed.

(** Cutting the newest-first order after [n] elements: the two parts make
    up the input, the first part has [n] elements if there are that many,
    and nothing in the second part is newer than anything in the first. *)
Lemma newest_first_split {A : Type} (instant : A -> Z) (n : nat) (l : list A) :
  let s := spec_newest_first instant l in
  Permutation (firstn n s ++ skipn n s) l
  /\ length (firstn n s) = Nat.min n (length l)
  /\ forall k d, In k (firstn n s) -> In d (skipn n s) ->
       instant d <= instant k.
Proof.
  cbv zeta. split; [|split].
  - rewrite firstn_skipn. apply sort_pure_perm.
  - rewrite length_firstn. f_equal. apply Permutation_length, sort_pure_perm.
  - apply (strongly_sorted_app (fun a b => instant b <= instant a)).
    rewrite firstn_skipn. apply newest_first_sorted.
Qed.

(** X1: count-based selection of the DynamoDB action keeps
    [min(n, number of backups)] backups, the kept and the selected backups
    together are the backups of the table, and no selected backup is newer
    than a kept one. *)
Theorem dynamodb_count_keeps_the_newest (aware : bool) (n : Z)
    (table_backups out : list DynamodbDeleteBackup.backup) :
  DynamodbRetention.same_awareness aware table_backups ->
  DynamodbDeleteBackup.by_retention_count n table_backups = Return out ->
  exists kept,
    Permutation (kept ++ out) table_backups
    /\ length kept = Nat.min (Z.to_nat n) (length table_backups)
    /\ forall k d, In k kept -> In d out ->
         DynamodbRetention.creation_instant d
         <= DynamodbRetention.creation_instant k.
Proof.
  intros Haw Hout.
  rewrite (dynamodb_by_retention_count aware) in Hout by exact Haw.
  injection Hout as <-.
  exists (firstn (Z.to_nat n)
            (spec_newest_first DynamodbRetention.creation_instant
               table_backups)).
  apply newest_first_split.
Qed.

Lemma dynamodb_count_keeps_the_newest_witness :
  exists kept,
    Permutation
      (kept ++ [Examples.table_backup 2 "day2"; Examples.table_backup 1 "day1"])
      Examples.scenario_A
    /\ length kept = Nat.min (Z.to_nat 2) (length Examples.scenario_A)
    /\ forall k d, In k kept ->
         In d [Examples.table_backup 2 "day2"; Examples.table_backup 1 "day1"] ->
         DynamodbRetention.creation_instant d
         <= DynamodbRetention.creation_instant k.
Proof.
  apply (dynamodb_count_keeps_the_newest true 2 Examples.scenario_A).
  - repeat constructor.
  - vm_compute. reflexivity.
Defined.

(** X2: count-based selection of the RDS action only yields snapshots of
    its input; for every owner it keeps [min(n, number of the owner's
    snapshots)] snapshots, the kept and the selected ones together are the
    owner's snapshots, and no selected snapshot is newer than a kept one of
    the same owner. *)
Theorem rds_count_keeps_the_newest_per_owner
    (parse : string -> outcome datetime) (aware : bool) (n : Z)
    (snapshots out : list RdsDeleteInstanceSnapshot.snapshot) :
  Forall (RdsRetention.comparable parse aware) snapshots ->
  RdsDeleteInstanceSnapshot.by_retention_count parse n snapshots
    = Return out ->
  (forall s, In s out -> In s snapshots)
  /\ forall o, exists kept,
       Permutation (kept ++ List.filter (RdsRetention.owner_is o) out)
         (List.filter (RdsRetention.owner_is o) snapshots)
       /\ length kept
          = Nat.min (Z.to_nat n)
              (length (List.filter (RdsRetention.owner_is o) snapshots))
       /\ forall k d, In k kept ->
            In d (List.filter (RdsRetention.owner_is o) out) ->
            RdsRetention.creation_instant parse d
            <= RdsRetention.creation_instant parse k.
Proof.
  intros Hc Hout.
  destruct (rds_by_retention_count parse aware n snapshots Hc)
    as (out' & Hout' & Hpart).
  rewrite Hout in Hout'. injection Hout' as <-.
  split.
  - intros s Hs.
    assert (Hin : In s (List.filter
                          (RdsRetention.owner_is
                             (RdsDeleteInstanceSnapshot.DBInstanceIdentifier s))
                          out)).
    { apply filter_In. split; [exact Hs|]. apply owner_is_true. reflexivity. }
    rewrite Hpart in Hin. unfold spec_partition_deletions in Hin.
    apply in_skipn_in in Hin. unfold spec_newest_first in Hin.
    apply sort_pure_In in Hin. apply filter_In in Hin. tauto.
  - intros o. rewrite Hpart. unfold spec_partition_deletions.
    eexists. apply newest_first_split.
Qed.

Lemma rds_count_keeps_the_newest_per_owner_witness :
  exists kept,
    Permutation
      (kept ++ List.filter (RdsRetention.owner_is (Some "db-a"))
                 [Examples.db_snapshot "b-4" (Some "db-b")
                    (TsDatetime (Examples.day 4));
                  Examples.db_snapshot "a-2" (Some "db-a")
                    (TsString "2019-06-02T00:00:00+00:00");
                  Examples.db_snapshot "a-1" (Some "db-a")
                    (TsDatetime (Examples.day 1))])
      (List.filter (RdsRetention.owner_is (Some "db-a")) Examples.rds_snapshots)
    /\ length kept
       = Nat.min (Z.to_nat 1)
           (length (List.filter (RdsRetention.owner_is (Some "db-a"))
                      Examples.rds_snapshots))
    /\ forall k d, In k kept ->
         In d (List.filter (RdsRetention.owner_is (Some "db-a"))
                 [Examples.db_snapshot "b-4" (Some "db-b")
                    (TsDatetime (Examples.day 4));
                  Examples.db_snapshot "a-2" (Some "db-a")
                    (TsString "2019-06-02T00:00:00+00:00");
                  Examples.db_snapshot "a-1" (Some "db-a")
                    (TsDatetime (Examples.day 1))]) ->
         RdsRetention.creation_instant Examples.parse d
         <= RdsRetention.creation_instant Examples.parse k.
Proof.
  apply (proj2 (rds_count_keeps_the_newest_per_owner Examples.parse true 1
                  Examples.rds_snapshots _ examples_rds_comparable rds_count_1)
           (Some "db-a")).
Defined.

Section CountLoopBy.
Context {A : Type}.
Variable owner : A -> option string.

Local Abbreviation in_group := (fun o x => bool_decide (owner x = o)).

Lemma in_group_nil o x l :
  owner_ltb o (owner x) = false -> owner x <> o ->
  Forall (owners_descend_by owner x) l ->
  List.filter (in_group o) l = [].
Proof.
  intros Hox Hne Hl. destruct owner_ltb_strict_total as [_ _ Htot].
  induction Hl as [|z l Hz Hl IH]; cbn; [reflexivity|].
  destruct (bool_decide (owner z = o)) eqn:Hoz; [|exact IH].
  apply bool_decide_eq_true in Hoz. unfold owners_descend_by in Hz.
  rewrite Hoz in Hz. exfalso. apply Hne. apply Htot; assumption.
Qed.

(** The elements of one owner that the loop yields from a list in which
    the owners descend. *)
Lemma count_loop_by_filter n o l :
  StronglySorted (owners_descend_by owner) l ->
  forall cur cnt,
    cnt = 0 \/ Forall (fun s => owner_ltb cur (owner s) = false) l ->
    List.filter (in_group o) (count_loop_by owner n cur cnt l)
    = skipn (Z.to_nat (n - (if decide (cur = o) then cnt else 0)))
            (List.filter (in_group o) l).
Proof.
  induction 1 as [|x l Hl IH Hx]; intros cur cnt Hinv.
  - cbn. rewrite skipn_nil. reflexivity.
  - assert (Hstep : forall c,
      List.filter (in_group o) (count_loop_by owner n (owner x) (c + 1) l)
      = skipn (Z.to_nat (n - (if decide (owner x = o) then c + 1 else 0)))
          (List.filter (in_group o) l)).
    { intros c. apply IH. right. exact Hx. }
    cbn [count_loop_by List.filter].
    destruct (decide (owner x = cur)) as [Hxc|Hxc].
    + subst cur. specialize (Hstep cnt).
      destruct (decide (owner x = o)) as [Ho|Ho].
      * rewrite (bool_decide_eq_true_2 _ Ho).
        destruct (Z.gtb_spec (cnt + 1) n).
        -- cbn [List.filter]. rewrite (bool_decide_eq_true_2 _ Ho), Hstep.
           replace (Z.to_nat (n - (cnt + 1))) with 0%nat by lia.
           replace (Z.to_nat (n - cnt)) with 0%nat by lia. reflexivity.
        -- rewrite Hstep.
           replace (Z.to_nat (n - cnt)) with (S (Z.to_nat (n - (cnt + 1))))
             by lia.
           reflexivity.
      * rewrite (bool_decide_eq_false_2 _ Ho).
        destruct (Z.gtb_spec (cnt + 1) n);
          cbn [List.filter]; rewrite ?(bool_decide_eq_false_2 _ Ho), Hstep;
          reflexivity.
    + specialize (Hstep 0).
      destruct (decide (owner x = o)) as [Ho|Ho].
      * rewrite (bool_decide_eq_true_2 _ Ho).
        rewrite decide_False by congruence.
        destruct (Z.gtb_spec (0 + 1) n).
        -- cbn [List.filter]. rewrite (bool_decide_eq_true_2 _ Ho), Hstep.
           replace (Z.to_nat (n - (0 + 1))) with 0%nat by lia.
           replace (Z.to_nat (n - 0)) with 0%nat by lia. reflexivity.
        -- rewrite Hstep.
           replace (Z.to_nat (n - 0)) with (S (Z.to_nat (n - (0 + 1))))
             by lia.
           reflexivity.
      * rewrite (bool_decide_eq_false_2 _ Ho).
        assert (Hgoal :
          List.filter (in_group o) (count_loop_by owner n (owner x) (0 + 1) l)
          = skipn (Z.to_nat (n - (if decide (cur = o) then cnt else 0)))
              (List.filter (in_group o) l)).
        { rewrite Hstep, Z.sub_0_r.
          destruct (decide (cur = o)) as [->|]; [|rewrite Z.sub_0_r; reflexivity].
          destruct Hinv as [->|Hall]; [rewrite Z.sub_0_r; reflexivity|].
          inversion Hall as [|? ? Hxo Hall']; subst.
          rewrite (in_group_nil o x l Hxo Ho Hx).
          rewrite !skipn_nil. reflexivity. }
        destruct (Z.gtb_spec (0 + 1) n);
          cbn [List.filter]; rewrite ?(bool_decide_eq_false_2 _ Ho);
          exact Hgoal.
Qed.
End CountLoopBy.

Section Ec2CountMode.
Import Ec2DeleteImage Ec2Count.
Variable parse : string -> outcome datetime.
Variable tag : string.

Local Abbreviation image_key_ltb := (lex_ltb String.ltb instant_ltb).
Local Abbreviation by_image_key :=
  (ahead_by (sort_key parse tag) image_key_ltb true).

Lemma str_ltb_strict_total : strict_total String.ltb.
Proof.
  split; [apply str_ltb_irrefl | apply str_ltb_trans | apply str_ltb_total].
Qed.

Lemma image_key_ltb_strict_weak : strict_weak image_key_ltb.
Proof.
  apply lex_ltb_strict_weak;
    [apply str_ltb_strict_total | apply instant_ltb_strict_weak].
Qed.

Lemma ec2_count_loop_by n l :
  forall cur cnt,
    count_loop tag n cur cnt l
    = count_loop_by (fun img => Some (_image_instance tag img)) n cur cnt l.
Proof.
  induction l as [|img rest IH]; intros cur cnt; cbn; [reflexivity|].
  destruct (decide (Some (_image_instance tag img) = cur));
    destruct (_ >? n); rewrite IH; reflexivity.
Qed.

Lemma ec2_sorted_pure aware l :
  Forall (prepared parse tag aware) l ->
  sorted_by_key
    (fun s =>
       match SourceInstanceId s with
       | None => Raise (KeyError "SourceInstanceId")
       | Some src => let* t := get_creation_time parse s in Return (src, t)
       end)
    key_lt true l
  = Return (sort_pure by_image_key l).
Proof.
  intros Hp. apply sorted_by_key_pure.
  - eapply List.Forall_impl; [|exact Hp].
    intros img [Hsrc Hdated].
    destruct (ec2_get_creation_time parse aware img Hdated) as [Hd _].
    unfold sort_key. rewrite Hsrc, Hd. reflexivity.
  - rewrite List.Forall_forall in Hp. intros a b Ha Hb.
    destruct (Hp a Ha) as [_ Hda]. destruct (Hp b Hb) as [_ Hdb].
    destruct (ec2_get_creation_time parse aware a Hda) as [_ Hawa].
    destruct (ec2_get_creation_time parse aware b Hdb) as [_ Hawb].
    unfold key_lt, lex_ltb, sort_key. cbn.
    destruct (decide (_image_instance tag a = _image_instance tag b)).
    + apply (datetime_lt_same_awareness aware); assumption.
    + reflexivity.
Qed.

Lemma ec2_sorted_owners_descend l :
  StronglySorted
    (owners_descend_by (fun img => Some (_image_instance tag img)))
    (sort_pure by_image_key l).
Proof.
  assert (Hs : StronglySorted (may_precede by_image_key)
                 (sort_pure by_image_key l)).
  { apply sort_pure_sorted.
    - apply ahead_by_precede_trans, image_key_ltb_strict_weak.
    - apply ahead_by_asym, image_key_ltb_strict_weak. }
  induction Hs as [|x m Hm IH Hx]; constructor; [exact IH|].
  eapply List.Forall_impl; [|exact Hx]. intros y Hy.
  unfold may_precede, ahead_by in Hy.
  apply (lex_ltb_fst String.ltb instant_ltb str_ltb_strict_total) in Hy.
  exact Hy.
Qed.

(** X3: count-based selection of the EC2 image action, for images that
    carry the sort key written by [process_and_select_resource] and whose
    creation dates are texts that read as times which can be compared:
    for every source instance, exactly the images of that instance after
    position [n] of its newest-first order are yielded, the creation time
    of an image being what its ["CreationDate"] stands for. *)
Theorem ec2_by_retention_count_per_instance (aware : bool) (n : Z)
    (images : list image) :
  Forall (prepared parse tag aware) images ->
  exists out,
    by_retention_count parse tag n images = Return out
    /\ forall o,
        List.filter (source_is tag o) out
        = spec_partition_deletions (Ec2Retention.creation_instant parse)
            (source_is tag o) n images.
Proof.
  intros Hp. unfold by_retention_count.
  rewrite (ec2_sorted_pure aware) by exact Hp. cbn.
  eexists. split; [reflexivity|]. intros o.
  rewrite ec2_count_loop_by.
  assert (Hsame : forall l,
    List.filter (source_is tag o) l
    = List.filter (fun x => bool_decide (Some (_image_instance tag x) = Some o)) l).
  { intros l. apply filter_ext. intros img. unfold source_is.
    apply bool_decide_ext. split; congruence. }
  rewrite Hsame.
  rewrite (count_loop_by_filter (fun img => Some (_image_instance tag img))
             n (Some o) _ (ec2_sorted_owners_descend images) None 0)
    by (left; reflexivity).
  rewrite decide_False by discriminate. rewrite Z.sub_0_r.
  rewrite <- Hsame. unfold spec_partition_deletions. f_equal.
  rewrite filter_sort_pure.
  - unfold spec_newest_first.
    apply (sort_pure_ext _ _ (fun img => _image_instance tag img = o)).
    + intros a b Ha Hb. unfold ahead_by, lex_ltb, sort_key. cbn.
      rewrite decide_True by congruence. reflexivity.
    + apply List.Forall_forall. intros img Hin.
      apply filter_In in Hin as [_ Hin]. unfold source_is in Hin.
      apply bool_decide_eq_true in Hin. exact Hin.
  - apply ahead_by_precede_trans, image_key_ltb_strict_weak.
  - apply ahead_by_asym, image_key_ltb_strict_weak.
Qed.

(** X4: what [process_and_select_resource] of the EC2 image action hands
    on.  With a non-empty source tag the image is handed on with
    ["SourceInstanceId"] set to the value of the tag, whatever the retention
    parameters are, and nothing is logged.  Without one it is handed on
    unchanged when the task has no positive [RetentionCount]; when the count
    is positive it is dropped, and the one line logged names the image.  So
    every image that is handed on for a positive count carries the key of
    its own tag. *)
Theorem ec2_selection_sets_source_instance (resource : image)
    (task_parameters : gmap string Z) :
  let count := default 0 (task_parameters !! PARAM_RETENTION_COUNT) in
  (_image_instance tag resource <> "" ->
     process_and_select_resource tag resource task_parameters
     = (Some (set_SourceInstanceId (_image_instance tag resource) resource),
        []))
  /\ (_image_instance tag resource = "" -> count <= 0 ->
        process_and_select_resource tag resource task_parameters
        = (Some resource, []))
  /\ (_image_instance tag resource = "" -> 0 < count ->
        process_and_select_resource tag resource task_parameters
        = (None,
           [mklog INFO
              "Original instance can not be retrieved for image {}, original volume is required for use with Retention count parameter not equal to 0, image skipped"
              [ImageId resource]]))
  /\ (forall img, 0 < count ->
        fst (process_and_select_resource tag resource task_parameters)
        = Some img ->
        SourceInstanceId img = Some (_image_instance tag img)
        /\ _image_instance tag img <> "").
Proof.
  cbv zeta. unfold process_and_select_resource.
  destruct (String.eqb_spec (_image_instance tag resource) "") as [He|Hne];
    cbn [negb].
  - split; [intros Hne; congruence|]. split; [|split].
    + intros _ Hc.
      destruct (Z.gtb_spec
                  (default 0 (task_parameters !! PARAM_RETENTION_COUNT)) 0);
        [lia | reflexivity].
    + intros _ Hc.
      destruct (Z.gtb_spec
                  (default 0 (task_parameters !! PARAM_RETENTION_COUNT)) 0);
        [reflexivity | lia].
    + intros img Hc.
      destruct (Z.gtb_spec
                  (default 0 (task_parameters !! PARAM_RETENTION_COUNT)) 0);
        [|lia]. cbn. discriminate.
  - split; [intros _; reflexivity|]. split; [congruence|].
    split; [congruence|].
    intros img _ Himg. cbn in Himg. injection Himg as <-.
    split; [reflexivity | exact Hne].
Qed.
End Ec2CountMode.

Lemma more_examples_prepared :
  Forall (Ec2Count.prepared Examples.parse Examples.ec2_source_tag true)
    MoreExamples.tagged_images.
Proof.
  repeat constructor; do 2 eexists; repeat split; reflexivity.
Qed.

Lemma ec2_by_retention_count_per_instance_witness :
  exists out,
    Ec2DeleteImage.by_retention_count Examples.parse Examples.ec2_source_tag 1
      MoreExamples.tagged_images = Return out
    /\ forall o,
        List.filter (Ec2Count.source_is Examples.ec2_source_tag o) out
        = spec_partition_deletions
            (Ec2Retention.creation_instant Examples.parse)
            (Ec2Count.source_is Examples.ec2_source_tag o) 1
            MoreExamples.tagged_images.
Proof.
  apply (ec2_by_retention_count_per_instance Examples.parse
           Examples.ec2_source_tag true 1 MoreExamples.tagged_images).
  exact more_examples_prepared.
Defined.

(** Of instance [i-aaa] the older image goes, of [i-bbb] none. *)
Example ec2_count_1 :
  Ec2DeleteImage.by_retention_count Examples.parse Examples.ec2_source_tag 1
    MoreExamples.tagged_images
  = Return [MoreExamples.tagged_ami "ami-a2" "i-aaa"
              (TsString "2019-06-02T00:00:00+00:00")].
Proof. vm_compute. reflexivity. Qed.

(** For a task that keeps one image per instance: the tagged image is
    handed on with its key, the image without source tag is dropped and
    logged. *)
Lemma ec2_selection_sets_source_instance_witness :
  Ec2DeleteImage.process_and_select_resource Examples.ec2_source_tag
    MoreExamples.raw_tagged_ami {[ PARAM_RETENTION_COUNT := 1 ]}
  = (Some (Ec2DeleteImage.set_SourceInstanceId
             (Ec2DeleteImage._image_instance Examples.ec2_source_tag
                MoreExamples.raw_tagged_ami)
             MoreExamples.raw_tagged_ami), [])
  /\ Ec2DeleteImage.process_and_select_resource Examples.ec2_source_tag
       Examples.orphan_image {[ PARAM_RETENTION_COUNT := 1 ]}
     = (None,
        [mklog INFO
           "Original instance can not be retrieved for image {}, original volume is required for use with Retention count parameter not equal to 0, image skipped"
           [Ec2DeleteImage.ImageId Examples.orphan_image]]).
Proof.
  split.
  - apply (proj1 (ec2_selection_sets_source_instance Examples.ec2_source_tag
                    MoreExamples.raw_tagged_ami
                    {[ PARAM_RETENTION_COUNT := 1 ]})).
    vm_compute. discriminate.
  - apply (proj1 (proj2 (proj2
             (ec2_selection_sets_source_instance Examples.ec2_source_tag
                Examples.orphan_image {[ PARAM_RETENTION_COUNT := 1 ]})))).
    + reflexivity.
    + vm_compute. reflexivity.
Defined.

(** The tagged image comes out as the image with its key. *)
Example ec2_selection_of_tagged_image :
  Ec2DeleteImage.process_and_select_resource Examples.ec2_source_tag
    MoreExamples.raw_tagged_ami {[ PARAM_RETENTION_COUNT := 1 ]}
  = (Some (MoreExamples.tagged_ami "ami-a2" "i-aaa"
             (TsString "2019-06-02T00:00:00+00:00")), []).
Proof. vm_compute. reflexivity. Qed.

(** * Age-based selection of the RDS action *)

Lemma yield_if_returned {A : Type} (cond : A -> outcome bool) (l : list A) :
  returned (yield_if cond l) = forallb (fun x => returned (cond x)) l.
Proof.
  induction l as [|x l IH]; cbn; [reflexivity|].
  destruct (cond x) as [b|e]; cbn; [|reflexivity].
  rewrite <- IH. destruct (yield_if cond l); reflexivity.
Qed.

Lemma forallb_perm {A : Type} (f : A -> bool) (l1 l2 : list A) :
  Permutation l1 l2 -> forallb f l1 = forallb f l2.
Proof.
  induction 1 as [|x l1 l2 _ IH|x y l|l1 l2 l3 _ IH1 _ IH2]; cbn.
  - reflexivity.
  - rewrite IH. reflexivity.
  - destruct (f x), (f y); reflexivity.
  - congruence.
Qed.

Lemma minus_days_returns (d r : datetime) (n : Z) :
  minus_days d n = Return r -> r = days_before d n.
Proof.
  unfold minus_days. destruct (_ >? _); [discriminate|].
  destruct (representable _); [|discriminate]. congruence.
Qed.

Section RdsAgeMode.
Import RdsDeleteInstanceSnapshot.
Variable parse : string -> outcome datetime.

(** The test of [by_retention_days] on one snapshot. *)
Local Abbreviation older now days :=
  (fun sn => let* snapshot_dt := get_creation_time parse sn in
             Datetime.lt snapshot_dt (delete_before_dt now days)).

Lemma rds_by_retention_days_shape now days snapshots :
  cutoff_is_a_date now days ->
  by_retention_days parse now days snapshots
  = yield_if (older now days)
      (sort_pure (ahead_by Region String.ltb false) snapshots).
Proof.
  intros Hc. unfold by_retention_days.
  rewrite minus_days_cutoff by exact Hc. cbn [bind].
  rewrite (sorted_by_key_pure _ _ Region String.ltb).
  - reflexivity.
  - apply List.Forall_forall. reflexivity.
  - reflexivity.
Qed.

(** X5: age-based selection of the RDS action, for snapshots whose
    creation time can be read and carries a zone.  When [now - days] is a
    date, a snapshot is selected if and only if its creation instant, the
    instant its ["SnapshotCreateTime"] stands for, is strictly before
    [now - days], and the selected snapshots come out with their regions in
    ascending order.  When [now - days] is not a date, the selection raises
    [OverflowError]. *)
Theorem rds_by_retention_days_strictly_older (now days : Z)
    (snapshots : list snapshot) :
  Forall (RdsAge.readable_aware parse) snapshots ->
  (cutoff_is_a_date now days ->
     exists out,
       by_retention_days parse now days snapshots = Return out
       /\ (forall s, In s out <->
             In s snapshots
             /\ RdsRetention.creation_instant parse s < spec_cutoff now days)
       /\ StronglySorted RdsAge.regions_ascend out)
  /\ (~ cutoff_is_a_date now days ->
      exists msg,
        by_retention_days parse now days snapshots
        = Raise (OverflowError msg)).
Proof.
  intros Hr. split.
  - intros Hc. rewrite rds_by_retention_days_shape by exact Hc.
    rewrite (yield_if_pure _
               (fun s => RdsRetention.creation_instant parse s
                         <? spec_cutoff now days)).
    + eexists. split; [reflexivity|]. split.
      * intros s. rewrite filter_In, Z.ltb_lt, sort_pure_In. reflexivity.
      * apply strongly_sorted_filter.
        assert (Hs : StronglySorted
                       (may_precede (ahead_by Region String.ltb false))
                       (sort_pure (ahead_by Region String.ltb false)
                          snapshots)).
        { apply sort_pure_sorted.
          - apply ahead_by_precede_trans, strict_total_weak,
              str_ltb_strict_total.
          - apply ahead_by_asym, strict_total_weak, str_ltb_strict_total. }
        exact Hs.
    + apply List.Forall_forall. intros s Hin. apply sort_pure_In in Hin.
      rewrite List.Forall_forall in Hr.
      destruct (rds_get_creation_time parse true s (Hr s Hin)) as [Hd Haw].
      rewrite Hd. cbn [bind].
      rewrite lt_delete_before_dt by exact Haw. reflexivity.
  - intros Hno. destruct (minus_days_overflow now days Hno) as [msg Hmsg].
    exists msg. unfold by_retention_days. rewrite Hmsg. reflexivity.
Qed.

(** X6: age-based selection of the RDS action is all or nothing: when the
    creation time of one snapshot cannot be read or compared with the
    cutoff, the selection raises and yields no snapshot at all. *)
Theorem rds_by_retention_days_all_or_nothing (now days : Z)
    (snapshots : list snapshot) (bad : snapshot) :
  In bad snapshots ->
  returned (older now days bad) = false ->
  returned (by_retention_days parse now days snapshots) = false.
Proof.
  intros Hin Hbad. unfold by_retention_days.
  destruct (minus_days (replace_tzinfo_utc (utcnow now)) days) as [d|e] eqn:Hm;
    [|reflexivity].
  apply minus_days_returns in Hm. subst d. cbn [bind].
  rewrite (sorted_by_key_pure _ _ Region String.ltb);
    [|apply List.Forall_forall; reflexivity | reflexivity].
  cbn [bind]. rewrite yield_if_returned.
  rewrite (forallb_perm _ _ snapshots) by apply sort_pure_perm.
  apply not_true_is_false. intros Hall.
  rewrite forallb_forall in Hall. specialize (Hall bad Hin).
  unfold delete_before_dt in Hbad. congruence.
Qed.
End RdsAgeMode.

Lemma rds_examples_readable :
  Forall (RdsAge.readable_aware Examples.parse) Examples.rds_snapshots.
Proof.
  repeat constructor; try reflexivity; eexists; split; reflexivity.
Qed.

(** Today is day 10: a retention period of 7 days selects, one of a
    million days raises. *)
Lemma rds_by_retention_days_strictly_older_witness :
  (exists out,
      RdsDeleteInstanceSnapshot.by_retention_days Examples.parse
        (10 * usec_per_day) 7 Examples.rds_snapshots = Return out
      /\ (forall s, In s out <->
            In s Examples.rds_snapshots
            /\ RdsRetention.creation_instant Examples.parse s
               < spec_cutoff (10 * usec_per_day) 7)
      /\ StronglySorted RdsAge.regions_ascend out)
  /\ (exists msg,
        RdsDeleteInstanceSnapshot.by_retention_days Examples.parse
          (10 * usec_per_day) 1000000 Examples.rds_snapshots
        = Raise (OverflowError msg)).
Proof.
  split.
  - exact (proj1 (rds_by_retention_days_strictly_older Examples.parse
                    (10 * usec_per_day) 7 Examples.rds_snapshots
                    rds_examples_readable)
             example_cutoff_is_a_date).
  - exact (proj2 (rds_by_retention_days_strictly_older Examples.parse
                    (10 * usec_per_day) 1000000 Examples.rds_snapshots
                    rds_examples_readable)
             example_cutoff_is_no_date).
Defined.

(** The snapshots of day 1 and day 2 are older than seven days on day
    10. *)
Example rds_days_7 :
  RdsDeleteInstanceSnapshot.by_retention_days Examples.parse
    (10 * usec_per_day) 7 Examples.rds_snapshots
  = Return [Examples.db_snapshot "a-1" (Some "db-a")
              (TsDatetime (Examples.day 1));
            Examples.db_snapshot "a-2" (Some "db-a")
              (TsString "2019-06-02T00:00:00+00:00")].
Proof. vm_compute. reflexivity. Qed.

Lemma rds_by_retention_days_all_or_nothing_witness :
  returned (RdsDeleteInstanceSnapshot.by_retention_days Examples.parse
              (10 * usec_per_day) 7
              (Examples.rds_snapshots ++ [Examples.naive_snapshot])) = false.
Proof.
  apply (rds_by_retention_days_all_or_nothing Examples.parse
           (10 * usec_per_day) 7 _ Examples.naive_snapshot).
  - apply in_or_app. right. left. reflexivity.
  - reflexivity.
Defined.

(** * More on the terminate-instance action *)

Section TerminateFacts.
Import Ec2TerminateInstance Ec2TerminateFacts.
Variable fails : api_call -> option exception.
Variable instance_id : string.
Variable accounts : option (list string).
Variable build_instance_tags : string -> string -> gmap string string.
Variable strip : string -> string.

Lemma size_insert_positive (k v : string) (m : gmap string string) :
  (0 <? Z.of_nat (size (<[k := v]> m))) = true.
Proof.
  apply Z.ltb_lt.
  assert (size (<[k := v]> m) <> 0%nat); [|lia].
  intros H. apply map_size_empty_iff in H.
  apply (insert_non_empty m k v). exact H.
Qed.

(** X7: [execute] with [CreateImage] set issues, in this order, the write
    of the termination marker, [create_image] and the tagging of the new
    image, and stops at the first call the provider refuses.  It returns,
    with the image id and name in the result, when all three are accepted,
    and raises otherwise.  It neither terminates the instance nor removes
    the marker. *)
Theorem execute_with_image_calls image_name description image_tags
    image_instance_tag new_image_id safe_json isoformat stack task task_id
    now self_result tr :
  let calls :=
    [marker_write safe_json isoformat instance_id stack task task_id now;
     CreateImage instance_id image_name description;
     SetEc2Tags new_image_id (<[image_instance_tag := instance_id]> image_tags)]
  in
  let res :=
    execute fails instance_id true image_name description image_tags
      image_instance_tag new_image_id safe_json isoformat stack task task_id
      now self_result tr in
  snd res = (tr ++ until_refused fails calls)%list
  /\ (first_refusal fails calls = None ->
      fst res = Return (set_metrics 1
                          (set_image new_image_id image_name self_result)))
  /\ (first_refusal fails calls <> None -> returned (fst res) = false).
Proof.
  cbv zeta. unfold execute, set_in_termination_tag, _create_image,
    _create_image_tags, marker_write.
  rewrite size_insert_positive.
  unfold seq, try_except, call, throw, ret. cbn [until_refused first_refusal].
  destruct (fails (CreateTags _ _)) as [e1|]; cbn.
  { repeat split; congruence. }
  destruct (fails (CreateImage _ _ _)) as [e2|]; cbn.
  { rewrite <- app_assoc. repeat split; congruence. }
  destruct (fails (SetEc2Tags _ _)) as [e3|]; cbn;
    rewrite <- !app_assoc; repeat split; congruence.
Qed.

(** X8: [execute] without [CreateImage] writes the termination marker and
    then terminates the instance.  When the marker cannot be written
    nothing else is called.  When the termination is refused the marker is
    removed again before the error is raised. *)
Theorem execute_without_image_calls image_name description image_tags
    image_instance_tag new_image_id safe_json isoformat stack task task_id
    now self_result tr :
  let write :=
    marker_write safe_json isoformat instance_id stack task task_id now in
  let terminate := TerminateInstances instance_id in
  let res :=
    execute fails instance_id false image_name description image_tags
      image_instance_tag new_image_id safe_json isoformat stack task task_id
      now self_result tr in
  (forall e, fails write = Some e -> res = (Raise e, (tr ++ [write])%list))
  /\ (fails write = None -> fails terminate = None ->
      res = (Return (set_metrics 1 self_result),
             (tr ++ [write; terminate])%list))
  /\ (forall e, fails write = None -> fails terminate = Some e ->
      snd res = (tr ++ [write; terminate; marker_removal instance_id])%list
      /\ returned (fst res) = false
      /\ (fails (marker_removal instance_id) = None ->
          fst res = Raise (Exception_ ERR_TERMINATING
                             [instance_id; text_of_exception e]))).
Proof.
  cbv zeta. unfold execute, set_in_termination_tag, _terminate_instance,
    _delete_instance_marker_tag, marker_write, marker_removal.
  unfold seq, try_except, call, throw, ret.
  split; [|split].
  - intros e He. rewrite He. reflexivity.
  - intros Hw Ht. rewrite Hw, Ht. cbn. rewrite <- app_assoc. reflexivity.
  - intros e Hw Ht. rewrite Hw, Ht.
    destruct (fails (DeleteTags _ _)) as [e'|]; cbn;
      rewrite <- !app_assoc; repeat split; congruence.
Qed.

Lemma status_tests status :
  unknown_status status ->
  String.eqb status "pending" = false
  /\ String.eqb status "failed" || String.eqb status "error"
     || String.eqb status "invalid" = false
  /\ String.eqb status "available" = false.
Proof.
  intros (H1 & H2 & H3 & H4 & H5).
  apply String.eqb_neq in H1, H2, H3, H4, H5.
  rewrite H1, H2, H3, H4, H5. repeat split.
Qed.

(** X9: while there is nothing to do, [is_completed] returns [None] and
    calls nothing: the instance is shutting down or stopping; or it is not
    terminated and no image was asked for, or the image is not known yet,
    is pending, or has a status the code does not know. *)
Theorem is_completed_waits create_image self_result state_code image er tr :
  still_waiting state_code create_image image er ->
  is_completed fails instance_id create_image accounts build_instance_tags
    strip self_result state_code image er tr
  = (Return None, tr).
Proof.
  unfold still_waiting, is_completed, EC2_STATE_SHUTTING_DOWN,
    EC2_STATE_STOPPING, EC2_STATE_TERMINATED.
  intros [H | [H | (Hne & H)]].
  - rewrite H. reflexivity.
  - rewrite H. reflexivity.
  - apply Z.eqb_neq in Hne. rewrite Hne.
    destruct ((Z.land state_code 255 =? 32) || (Z.land state_code 255 =? 64));
      [reflexivity|].
    destruct H as [-> | ([id Hid] & H)]; [reflexivity|].
    destruct create_image; [|reflexivity]. rewrite Hid.
    destruct H as [-> | (img & -> & [Hp | Hu])]; [reflexivity| |].
    + rewrite Hp. reflexivity.
    + destruct (status_tests _ Hu) as (-> & -> & ->). reflexivity.
Qed.

(** X10: whatever the provider reports and answers, [is_completed] only
    adds calls that tag, untag, grant launch permission or terminate: it
    never creates an image and never writes the termination marker. *)
Theorem is_completed_never_restarts create_image self_result state_code image
    er tr :
  exists rest,
    snd (is_completed fails instance_id create_image accounts
           build_instance_tags strip self_result state_code image er tr)
    = (tr ++ rest)%list
    /\ forallb completion_call rest = true.
Proof.
  unfold is_completed, _create_terminated_instance_tags, _grant_launch_access,
    _terminate_instance, _delete_instance_marker_tag.
  unfold seq, try_except, call, throw, ret.
  repeat match goal with
         | |- context [if ?b then _ else _] => destruct b
         | |- context [match fails ?c with _ => _ end] => destruct (fails c)
         | |- context [match image_id er with _ => _ end] =>
             destruct (image_id er)
         | |- context [match image with _ => _ end] => destruct image
         | |- context [match accounts with _ => _ end] =>
             destruct accounts as [[|? ?]|]
         end; cbn [snd];
    rewrite <- ?app_assoc; cbn [app];
    first [ eexists; split; [reflexivity | reflexivity]
          | exists []; split; [rewrite app_nil_r; reflexivity | reflexivity] ].
Qed.

(** X11: when the image is available, [is_completed] grants launch
    permission to the configured accounts, terminates the instance and
    returns [None]: completion is reported by a later poll.  When the
    termination is refused it removes the termination marker and raises. *)
Theorem is_completed_available_image create_image self_result state_code img
    er id tr :
  image_is_polled state_code create_image er id ->
  image_State img = "available" ->
  let grant :=
    match accounts with
    | Some (a :: rest) => [ModifyImageAttribute id (map strip (a :: rest))]
    | _ => []
    end in
  let terminate := TerminateInstances instance_id in
  let res :=
    is_completed fails instance_id create_image accounts build_instance_tags
      strip self_result state_code (Some img) er tr in
  first_refusal fails grant = None ->
  (fails terminate = None ->
     res = (Return None, (tr ++ grant ++ [terminate])%list))
  /\ (forall e, fails terminate = Some e ->
        snd res
        = (tr ++ grant ++ [terminate; marker_removal instance_id])%list
        /\ returned (fst res) = false
        /\ (fails (marker_removal instance_id) = None ->
            fst res = Raise (Exception_ ERR_TERMINATING
                               [instance_id; text_of_exception e]))).
Proof.
  intros Hpoll Hav. cbv zeta.
  rewrite (polled_is_completed _ _ _ _ _ _ _ _ _ _ _ _ Hpoll). cbv zeta.
  rewrite Hav.
  replace (String.eqb "available" "pending") with false by reflexivity.
  replace (String.eqb "available" "failed" || String.eqb "available" "error"
           || String.eqb "available" "invalid") with false by reflexivity.
  replace (String.eqb "available" "available") with true by reflexivity.
  unfold _grant_launch_access, _terminate_instance,
    _delete_instance_marker_tag, marker_removal.
  unfold seq, try_except, call, throw, ret.
  destruct accounts as [[|a rest]|]; cbn [first_refusal app].
  - intros _. split.
    + intros ->. reflexivity.
    + intros e ->. destruct (fails (DeleteTags _ _)); cbn;
        rewrite <- ?app_assoc; repeat split; congruence.
  - destruct (fails (ModifyImageAttribute _ _)); [discriminate|]. intros _.
    split.
    + intros ->. cbn. rewrite <- app_assoc. reflexivity.
    + intros e ->. destruct (fails (DeleteTags _ _)); cbn;
        rewrite <- ?app_assoc; repeat split; congruence.
  - intros _. split.
    + intros ->. reflexivity.
    + intros e ->. destruct (fails (DeleteTags _ _)); cbn;
        rewrite <- ?app_assoc; repeat split; congruence.
Qed.

(** X12: once the low byte of the state code says terminated,
    [is_completed] returns the result, whatever became of the image.  It
    calls the provider only to set the configured instance tags; with no
    tags configured it calls nothing, however often it is polled. *)
Theorem is_completed_terminated create_image self_result state_code image er
    tr :
  Z.land state_code 255 = EC2_STATE_TERMINATED ->
  let tags := build_instance_tags (default "" (image_id er))
                                  (default "" (image_name er)) in
  let res :=
    is_completed fails instance_id create_image accounts build_instance_tags
      strip self_result state_code image er tr in
  (size tags = 0%nat -> res = (Return (Some self_result), tr))
  /\ (size tags <> 0%nat -> fails (SetEc2Tags instance_id tags) = None ->
      res = (Return (Some self_result),
             (tr ++ [SetEc2Tags instance_id tags])%list)).
Proof.
  intros Hst. cbv zeta.
  rewrite (terminated_is_completed _ _ _ _ _ _ _ _ _ _ _ Hst).
  unfold seq, _create_terminated_instance_tags, try_except, call, ret.
  split.
  - intros ->. reflexivity.
  - intros Hsize ->.
    destruct (Z.ltb_spec 0 (Z.of_nat (size (build_instance_tags
      (default "" (image_id er)) (default "" (image_name er)))))); [|lia].
    reflexivity.
Qed.
End TerminateFacts.

(** * More on the termination marker *)

Section MarkerFacts.
Import Ec2TerminateInstance Ec2TerminateFacts.
Variable json_loads : string -> outcome json.
Variable safe_json : json -> string.
Variable parse : string -> outcome datetime.
Variable isoformat : datetime -> string.

Local Abbreviation select :=
  (process_and_select_resource json_loads safe_json parse isoformat).

(** X13: the marker that [execute] writes is read back by the selection.
    When decoding undoes [safe_json] on the marker and parsing undoes
    [isoformat] on its date, a resource tagged with the marker written at
    [started] is skipped while less than the timeout has passed since
    [started] and handed on afterwards, and the log line names the stack,
    task and task id that wrote the marker. *)
Theorem marker_round_trip (stack task task_id : string) (started now : Z)
    (resource : instance) (task_timeout : option Z) :
  let written := marker_value stack task task_id isoformat started in
  json_loads (safe_json written) = Return written ->
  parse (isoformat (utcnow started)) = Return (utcnow started) ->
  Tags resource !! INSTANCE_TERMINATION_MARKER_TAG = Some (safe_json written) ->
  0 < default ACTION_COMPLETION_TIMEOUT_MINUTES task_timeout
    \/ started <= now ->
  let args := [InstanceId resource; stack; task; task_id] in
  select now resource task_timeout
  = if now - started <? Marker.timeout task_timeout
    then Return (None, [mklog INFO INF_ALREADY_TERMINATED args])
    else Return (Some resource, [mklog INFO INF_TERMINATE_TIMEOUT args]).
Proof.
  cbv zeta. intros Hjson Hiso Htag Hpos.
  unfold process_and_select_resource. rewrite Htag, Hjson. cbn.
  unfold marker_date. cbn. rewrite Hiso. cbn.
  rewrite whole_seconds_ltb by lia.
  unfold marker_log_args, Marker.timeout. cbn.
  destruct (_ <? _); reflexivity.
Qed.

(** X14: a marker whose date carries a zone makes the selection raise:
    the age is taken against the naive [utcnow()], and Python refuses to
    subtract an aware from a naive value.  The resource is neither skipped
    nor handed on. *)
Theorem marker_with_zone_raises (now : Z) (resource : instance)
    (task_timeout : option Z) (tag_value date_str : string)
    (members : list (string * json)) (written : datetime) :
  Tags resource !! INSTANCE_TERMINATION_MARKER_TAG = Some tag_value ->
  json_loads tag_value = Return (JObject members) ->
  assoc "datetime" members = Some (JString date_str) ->
  parse date_str = Return written ->
  is_aware written = true ->
  select now resource task_timeout = Raise (TypeError msg_sub_naive_aware).
Proof.
  intros Htag Hjson Hdate Hparse Haw.
  unfold process_and_select_resource. rewrite Htag, Hjson. cbn.
  unfold marker_date. cbn. rewrite Hdate. cbn. rewrite Hparse.
  unfold Datetime.sub, is_aware in *. cbn.
  destruct (tzinfo written); [reflexivity | discriminate].
Qed.

(** X15: a marker that lacks one of the keys ["stack"], ["task"] and
    ["task-id"] makes the selection raise [KeyError] for the first of them,
    in this order, that it lacks, whatever its age and the timeout are:
    both branches read the three keys for their log line.  This is so for
    every marker whose date, or the text of the current time when it has
    none, does not read as a time with a zone. *)
Theorem marker_without_owner_raises (now : Z) (resource : instance)
    (task_timeout : option Z) (tag_value : string)
    (members : list (string * json)) (key : string) :
  Tags resource !! INSTANCE_TERMINATION_MARKER_TAG = Some tag_value ->
  json_loads tag_value = Return (JObject members) ->
  Marker.first_missing_owner_key members = Some key ->
  Marker.date_without_zone parse isoformat now members ->
  select now resource task_timeout = Raise (KeyError key).
Proof.
  intros Htag Hjson Hkey Hzone.
  assert (Hargs : marker_log_args safe_json resource (JObject members)
                  = Raise (KeyError key)).
  { unfold Marker.first_missing_owner_key in Hkey. cbn in Hkey.
    unfold marker_log_args. cbn.
    destruct (assoc "stack" members); cbn;
      [|injection Hkey as <-; reflexivity].
    destruct (assoc "task" members); cbn;
      [|injection Hkey as <-; reflexivity].
    destruct (assoc "task-id" members); cbn;
      [discriminate | injection Hkey as <-; reflexivity]. }
  assert (Hnaive : forall written,
            marker_date parse isoformat now (JObject members) = Return written ->
            tzinfo written = None).
  { intros written. unfold marker_date, Marker.date_without_zone in *. cbn.
    destruct (assoc "datetime" members) as [[| | |date_str| |]|]; cbn;
      try discriminate; apply Hzone. }
  unfold process_and_select_resource. rewrite Htag, Hjson.
  cbn -[marker_date marker_log_args Datetime.sub].
  destruct (marker_date parse isoformat now (JObject members)) as [d|e] eqn:Hd.
  - pose proof (Hnaive d eq_refl) as Hn. destruct d as [w tz].
    cbn in Hn. subst tz. unfold Datetime.sub.
    cbn -[marker_log_args]. rewrite Hargs.
    match goal with
    | |- context [if ?b then _ else _] => destruct b
    end; reflexivity.
  - unfold Datetime.sub. cbn -[marker_log_args]. rewrite Hargs.
    match goal with
    | |- context [if ?b then _ else _] => destruct b
    end; reflexivity.
Qed.

(** X16: a marker without date counts as written at this moment: the
    missing key defaults to the text of [utcnow()], so, when parsing undoes
    [isoformat], a positive timeout makes the selection skip the resource,
    and no error is logged. *)
Theorem marker_without_date_is_fresh (now : Z) (resource : instance)
    (task_timeout : option Z) (tag_value : string)
    (members : list (string * json)) (args : list string) :
  Tags resource !! INSTANCE_TERMINATION_MARKER_TAG = Some tag_value ->
  json_loads tag_value = Return (JObject members) ->
  assoc "datetime" members = None ->
  parse (isoformat (utcnow now)) = Return (utcnow now) ->
  marker_log_args safe_json resource (JObject members) = Return args ->
  0 < default ACTION_COMPLETION_TIMEOUT_MINUTES task_timeout ->
  select now resource task_timeout
  = Return (None, [mklog INFO INF_ALREADY_TERMINATED args]).
Proof.
  intros Htag Hjson Hdate Hiso Hargs Hpos.
  unfold process_and_select_resource. rewrite Htag, Hjson. cbn.
  unfold marker_date. cbn. rewrite Hdate. cbn. rewrite Hiso. cbn.
  rewrite Z.sub_diag. unfold int_total_seconds.
  replace (Z.quot 0 usec_per_second) with 0 by reflexivity.
  destruct (Z.ltb_spec 0
    (default ACTION_COMPLETION_TIMEOUT_MINUTES task_timeout * 60)); [|lia].
  rewrite Hargs. reflexivity.
Qed.
End MarkerFacts.

Section TerminateConcrete.
Import Ec2TerminateInstance Ec2TerminateFacts.

Lemma execute_with_image_calls_witness :
  fst (execute Examples.accept_all "i-0abc" true "i-0abc-201906010000"
         "final image" ∅ "Automator:SourceInstanceId_opsautomator" "ami-0123"
         Examples.safe_json Examples.isoformat "OpsAutomator" "terminate"
         "7f3c" (1 * usec_per_day) Examples.base_result [])
  = Return (set_metrics 1
              (set_image "ami-0123" "i-0abc-201906010000"
                 Examples.base_result)).
Proof.
  apply (proj1 (proj2 (execute_with_image_calls Examples.accept_all "i-0abc"
                         "i-0abc-201906010000" "final image" ∅
                         "Automator:SourceInstanceId_opsautomator" "ami-0123"
                         Examples.safe_json Examples.isoformat "OpsAutomator"
                         "terminate" "7f3c" (1 * usec_per_day)
                         Examples.base_result []))).
  reflexivity.
Defined.

Lemma execute_without_image_calls_witness :
  execute Examples.accept_all "i-0abc" false "" "" ∅ "" ""
    Examples.safe_json Examples.isoformat "OpsAutomator" "terminate" "7f3c"
    (1 * usec_per_day) Examples.base_result []
  = (Return (set_metrics 1 Examples.base_result),
     ([] ++ [marker_write Examples.safe_json Examples.isoformat "i-0abc"
               "OpsAutomator" "terminate" "7f3c" (1 * usec_per_day);
             TerminateInstances "i-0abc"])%list).
Proof.
  apply (proj1 (proj2 (execute_without_image_calls Examples.accept_all "i-0abc"
                         "" "" ∅ "" "" Examples.safe_json Examples.isoformat
                         "OpsAutomator" "terminate" "7f3c" (1 * usec_per_day)
                         Examples.base_result []))); reflexivity.
Defined.

(** The termination is refused: the marker is written, the termination
    tried, the marker removed, and the error raised. *)
Example execute_refused_termination :
  execute MoreExamples.refuse_terminate "i-0abc" false "" "" ∅ "" ""
    Examples.safe_json Examples.isoformat "OpsAutomator" "terminate" "7f3c"
    (1 * usec_per_day) Examples.base_result []
  = (Raise (Exception_ ERR_TERMINATING ["i-0abc"; "OperationNotPermitted"]),
     [CreateTags "i-0abc"
        [(INSTANCE_TERMINATION_MARKER_TAG, "marker written on day 1")];
      TerminateInstances "i-0abc";
      DeleteTags "i-0abc" [(INSTANCE_TERMINATION_MARKER_TAG, "")]]).
Proof. vm_compute. reflexivity. Qed.

Lemma is_completed_waits_witness :
  is_completed Examples.accept_all "i-0abc" true None Examples.terminated_tags
    (fun a => a) Examples.base_result 16
    (Some (mkimagedesc "deregistered" "")) Examples.with_image []
  = (Return None, []).
Proof.
  apply is_completed_waits. right. right. split; [discriminate|]. right.
  split; [eexists; reflexivity|]. right. eexists. split; [reflexivity|].
  right. repeat split; discriminate.
Defined.

Lemma is_completed_available_image_witness :
  is_completed Examples.accept_all "i-0abc" true (Some ["444455556666 "])
    Examples.terminated_tags (fun a => a) Examples.base_result 16
    (Some Examples.available_image) Examples.with_image []
  = (Return None,
     ([] ++ [ModifyImageAttribute "ami-0123" (map (fun a => a) ["444455556666 "])]
         ++ [TerminateInstances "i-0abc"])%list).
Proof.
  refine (proj1 (is_completed_available_image Examples.accept_all "i-0abc"
                   (Some ["444455556666 "]) Examples.terminated_tags
                   (fun a => a) true Examples.base_result 16
                   Examples.available_image Examples.with_image "ami-0123" []
                   example_image_polled _ _) _); reflexivity.
Defined.

Lemma is_completed_terminated_witness :
  is_completed Examples.accept_all "i-0abc" true None MoreExamples.no_tags
    (fun a => a) Examples.base_result (256 + 48)
    (Some Examples.failed_image) Examples.with_image []
  = (Return (Some Examples.base_result), []).
Proof.
  refine (proj1 (is_completed_terminated Examples.accept_all "i-0abc" None
                   MoreExamples.no_tags (fun a => a) true Examples.base_result
                   (256 + 48) (Some Examples.failed_image) Examples.with_image
                   [] _) _); reflexivity.
Defined.

Lemma marker_round_trip_witness :
  process_and_select_resource Examples.json_loads Examples.safe_json
    Examples.parse_naive Examples.isoformat
    (1 * usec_per_day + 600 * usec_per_second)
    (Examples.marked_server "marker written on day 1") None
  = if 1 * usec_per_day + 600 * usec_per_second - 1 * usec_per_day
       <? Marker.timeout None
    then Return (None,
                 [mklog INFO INF_ALREADY_TERMINATED
                    ["i-0abc"; "OpsAutomator"; "terminate"; "7f3c"]])
    else Return (Some (Examples.marked_server "marker written on day 1"),
                 [mklog INFO INF_TERMINATE_TIMEOUT
                    ["i-0abc"; "OpsAutomator"; "terminate"; "7f3c"]]).
Proof.
  apply (marker_round_trip Examples.json_loads Examples.safe_json
           Examples.parse_naive Examples.isoformat "OpsAutomator" "terminate"
           "7f3c" (1 * usec_per_day) (1 * usec_per_day + 600 * usec_per_second)
           (Examples.marked_server "marker written on day 1") None).
  - reflexivity.
  - reflexivity.
  - apply lookup_singleton_eq.
  - left. reflexivity.
Defined.

Lemma marker_with_zone_raises_witness :
  process_and_select_resource MoreExamples.json_loads Examples.safe_json
    MoreExamples.parse Examples.isoformat (10 * usec_per_day)
    (Examples.marked_server "marker with a zone") None
  = Raise (TypeError msg_sub_naive_aware).
Proof.
  apply (marker_with_zone_raises MoreExamples.json_loads Examples.safe_json
           MoreExamples.parse Examples.isoformat (10 * usec_per_day)
           (Examples.marked_server "marker with a zone") None
           "marker with a zone" "2019-06-03T00:00:00Z"
           (Examples.marker_members "2019-06-03T00:00:00Z") (Examples.day 3)).
  - apply lookup_singleton_eq.
  - reflexivity.
  - reflexivity.
  - reflexivity.
  - reflexivity.
Defined.

(** A marker that names its stack but neither task nor task id: the
    error names the task. *)
Lemma marker_without_owner_raises_witness :
  process_and_select_resource MoreExamples.json_loads Examples.safe_json
    MoreExamples.parse Examples.isoformat (10 * usec_per_day)
    (Examples.marked_server "marker with stack and date only") None
  = Raise (KeyError "task").
Proof.
  apply (marker_without_owner_raises MoreExamples.json_loads Examples.safe_json
           MoreExamples.parse Examples.isoformat (10 * usec_per_day)
           (Examples.marked_server "marker with stack and date only") None
           "marker with stack and date only"
           [("stack", JString "OpsAutomator");
            ("datetime", JString "2019-06-01T00:00:00")] "task").
  - apply lookup_singleton_eq.
  - reflexivity.
  - reflexivity.
  - intros d H. cbn in H. injection H as <-. reflexivity.
Defined.

(** Without stack the error names the stack. *)
Example marker_without_stack_raises :
  process_and_select_resource MoreExamples.json_loads Examples.safe_json
    MoreExamples.parse Examples.isoformat (10 * usec_per_day)
    (Examples.marked_server "marker without stack") None
  = Raise (KeyError "stack").
Proof. vm_compute. reflexivity. Qed.

Lemma marker_without_date_is_fresh_witness :
  process_and_select_resource MoreExamples.json_loads Examples.safe_json
    MoreExamples.parse Examples.isoformat (1 * usec_per_day)
    (Examples.marked_server "marker without date") None
  = Return (None,
            [mklog INFO INF_ALREADY_TERMINATED
               ["i-0abc"; "OpsAutomator"; "terminate"; "7f3c"]]).
Proof.
  apply (marker_without_date_is_fresh MoreExamples.json_loads
           Examples.safe_json MoreExamples.parse Examples.isoformat
           (1 * usec_per_day)
           (Examples.marked_server "marker without date") None
           "marker without date"
           [("stack", JString "OpsAutomator"); ("task", JString "terminate");
            ("task-id", JString "7f3c")]).
  - apply lookup_singleton_eq.
  - reflexivity.
  - reflexivity.
  - reflexivity.
  - reflexivity.
  - reflexivity.
Defined.
End TerminateConcrete.

(** * Owner resolution of the RDS action, and validated parameters *)

(** X17: [process_and_select_resource] of the RDS action takes the owner
    from the provider's id when there is one and leaves the snapshot as it
    is; otherwise it takes the value of the source tag, whatever it is.  A
    snapshot that is handed on for a positive [RetentionCount] always has
    an owner. *)
Theorem rds_selection_resolves_owner (tag : string)
    (resource : RdsDeleteInstanceSnapshot.snapshot)
    (task_parameters : gmap string Z) :
  let selected :=
    RdsDeleteInstanceSnapshot.process_and_select_resource tag resource
      task_parameters in
  (is_Some (RdsDeleteInstanceSnapshot.DBInstanceIdentifier resource) ->
     selected = Return (Some resource, []))
  /\ (forall v,
        RdsDeleteInstanceSnapshot.DBInstanceIdentifier resource = None ->
        RdsDeleteInstanceSnapshot.Tags resource !! tag = Some v ->
        selected
        = Return (Some (RdsDeleteInstanceSnapshot.set_DBInstanceIdentifier v
                          resource), []))
  /\ (forall out logged,
        0 < default 0 (task_parameters !! PARAM_RETENTION_COUNT) ->
        selected = Return (Some out, logged) ->
        is_Some (RdsDeleteInstanceSnapshot.DBInstanceIdentifier out)).
Proof.
  cbv zeta. unfold RdsDeleteInstanceSnapshot.process_and_select_resource.
  split; [|split].
  - intros [id ->]. reflexivity.
  - intros v -> ->. reflexivity.
  - intros out logged Hc.
    destruct (RdsDeleteInstanceSnapshot.DBInstanceIdentifier resource)
      as [id|] eqn:Hid.
    + intros H. injection H as <- _. rewrite Hid. eexists. reflexivity.
    + destruct (RdsDeleteInstanceSnapshot.Tags resource !! tag) as [v|].
      * intros H. injection H as <- _. eexists. reflexivity.
      * destruct (Z.gtb_spec
                    (default 0 (task_parameters !! PARAM_RETENTION_COUNT)) 0);
          [|lia].
        destruct (RdsDeleteInstanceSnapshot.SnapshotId resource); discriminate.
Qed.

Lemma rds_selection_resolves_owner_witness :
  RdsDeleteInstanceSnapshot.process_and_select_resource
    Examples.rds_source_tag
    (Examples.db_snapshot "a-1" (Some "db-a") (TsDatetime (Examples.day 1)))
    {[ PARAM_RETENTION_COUNT := 2 ]}
  = Return (Some (Examples.db_snapshot "a-1" (Some "db-a")
                    (TsDatetime (Examples.day 1))), []).
Proof.
  apply (proj1 (rds_selection_resolves_owner Examples.rds_source_tag
                  (Examples.db_snapshot "a-1" (Some "db-a")
                     (TsDatetime (Examples.day 1)))
                  {[ PARAM_RETENTION_COUNT := 2 ]})).
  eexists. reflexivity.
Defined.

(** X18: retention values that validation accepts select by age when
    [RetentionDays] is non-zero, and otherwise by a count that is present
    and non-zero, so that a validated task never selects by a missing
    count.  With backups whose timestamps can be compared,
    [backups_to_delete] of the DynamoDB action then returns, with one
    exception: validation puts no bound on [RetentionDays], and a number of
    days for which [now - days] is not a date makes the selection raise
    [OverflowError]. *)
Theorem validated_parameters_select (parameters : gmap string Z)
    (aware : bool) (now : Z)
    (table_backups : list DynamodbDeleteBackup.backup) :
  action_validate_parameters parameters = Return parameters ->
  DynamodbRetention.same_awareness aware table_backups ->
  let days := parameters !! PARAM_RETENTION_DAYS in
  let count := parameters !! PARAM_RETENTION_COUNT in
  (truthy days = true ->
     DynamodbDeleteBackup.backups_to_delete now days count table_backups
     = DynamodbDeleteBackup.by_retention_days now (default 0 days)
         table_backups)
  /\ (truthy days = false ->
        exists n, count = Some n /\ n <> 0
          /\ DynamodbDeleteBackup.backups_to_delete now days count
               table_backups
             = DynamodbDeleteBackup.by_retention_count n table_backups)
  /\ (truthy days = false \/ cutoff_is_a_date now (default 0 days) ->
        returned (DynamodbDeleteBackup.backups_to_delete now days count
                    table_backups) = true)
  /\ (truthy days = true -> ~ cutoff_is_a_date now (default 0 days) ->
        exists msg,
          DynamodbDeleteBackup.backups_to_delete now days count table_backups
          = Raise (OverflowError msg)).
Proof.
  intros Hv Haw. cbv zeta. rewrite validate_cases in Hv.
  unfold DynamodbDeleteBackup.backups_to_delete.
  destruct (truthy (parameters !! PARAM_RETENTION_DAYS)) eqn:Hd.
  - split; [reflexivity|]. split; [discriminate|]. split.
    + intros [H|Hc]; [discriminate|].
      rewrite dynamodb_by_retention_days by exact Hc. reflexivity.
    + intros _ Hno.
      destruct (minus_days_overflow now _ Hno) as [msg Hmsg].
      exists msg. unfold DynamodbDeleteBackup.by_retention_days.
      cbv zeta. rewrite Hmsg. reflexivity.
  - destruct (parameters !! PARAM_RETENTION_COUNT) as [n|] eqn:Hc;
      cbn in Hv; [|discriminate].
    destruct (Z.eqb_spec n 0); cbn in Hv; [discriminate|].
    split; [discriminate|]. split; [|split].
    + intros _. exists n. repeat split; assumption.
    + intros _.
      rewrite (dynamodb_by_retention_count aware) by exact Haw. reflexivity.
    + discriminate.
Qed.

Lemma example_count_2_validated :
  action_validate_parameters {[ PARAM_RETENTION_COUNT := 2 ]}
  = Return {[ PARAM_RETENTION_COUNT := 2 ]}.
Proof.
  rewrite validate_cases.
  rewrite lookup_singleton_eq, lookup_singleton_ne by discriminate.
  reflexivity.
Qed.

Lemma example_days_1000000_validated :
  action_validate_parameters {[ PARAM_RETENTION_DAYS := 1000000 ]}
  = Return {[ PARAM_RETENTION_DAYS := 1000000 ]}.
Proof.
  rewrite validate_cases.
  rewrite lookup_singleton_eq, lookup_singleton_ne by discriminate.
  reflexivity.
Qed.

(** [RetentionCount = 2] is accepted and selects from scenario A; a
    million days are accepted as well and make the selection raise. *)
Lemma validated_parameters_select_witness :
  returned (DynamodbDeleteBackup.backups_to_delete (10 * usec_per_day)
              (({[ PARAM_RETENTION_COUNT := 2 ]} : gmap string Z)
                 !! PARAM_RETENTION_DAYS)
              (({[ PARAM_RETENTION_COUNT := 2 ]} : gmap string Z)
                 !! PARAM_RETENTION_COUNT)
              Examples.scenario_A) = true
  /\ exists msg,
       DynamodbDeleteBackup.backups_to_delete (10 * usec_per_day)
         (({[ PARAM_RETENTION_DAYS := 1000000 ]} : gmap string Z)
            !! PARAM_RETENTION_DAYS)
         (({[ PARAM_RETENTION_DAYS := 1000000 ]} : gmap string Z)
            !! PARAM_RETENTION_COUNT)
         Examples.scenario_A
       = Raise (OverflowError msg).
Proof.
  split.
  - apply (proj1 (proj2 (proj2 (validated_parameters_select
                                  {[ PARAM_RETENTION_COUNT := 2 ]} true
                                  (10 * usec_per_day) Examples.scenario_A
                                  example_count_2_validated
                                  examples_scenario_A_aware)))).
    left. rewrite lookup_singleton_ne by discriminate. reflexivity.
  - apply (proj2 (proj2 (proj2 (validated_parameters_select
                                  {[ PARAM_RETENTION_DAYS := 1000000 ]} true
                                  (10 * usec_per_day) Examples.scenario_A
                                  example_days_1000000_validated
                                  examples_scenario_A_aware)))).
    + rewrite lookup_singleton_eq. reflexivity.
    + rewrite lookup_singleton_eq. exact example_cutoff_is_no_date.
Defined.

(** * Aggregation by owner *)

Section GroupLoop.
Context {A : Type}.
Variable key : A -> option string.

Lemma group_loop_concat l :
  forall cur acc, concat (group_loop key cur acc l) = (acc ++ l)%list.
Proof.
  induction l as [|x rest IH]; intros cur acc; cbn.
  - rewrite !app_nil_r. reflexivity.
  - destruct (decide (cur = key x)); cbn.
    + rewrite IH, <- app_assoc. reflexivity.
    + rewrite IH. reflexivity.
Qed.

Lemma filter_same_key o l :
  Forall (fun x => key x = o) l -> List.filter (has_key key o) l = l.
Proof.
  induction 1 as [|x l Hx Hl IH]; cbn; [reflexivity|].
  unfold has_key at 1. rewrite (bool_decide_eq_true_2 _ Hx), IH. reflexivity.
Qed.

Lemma filter_other_key o l :
  Forall (fun x => key x <> o) l -> List.filter (has_key key o) l = [].
Proof.
  induction 1 as [|x l Hx Hl IH]; cbn; [reflexivity|].
  unfold has_key at 1. rewrite (bool_decide_eq_false_2 _ Hx). exact IH.
Qed.

(** Beyond an element whose key differs from [cur] and is not below it, no
    element of an ascending list has the key [cur]. *)
Lemma keys_beyond cur x rest :
  owner_ltb (key x) cur = false -> cur <> key x ->
  Forall (keys_ascend key x) rest ->
  Forall (fun z => key z <> cur) (x :: rest).
Proof.
  intros Hx Hne Hrest. destruct owner_ltb_strict_total as [Hirr Htr Htot].
  constructor; [congruence|].
  eapply List.Forall_impl; [|exact Hrest]. intros z Hz Hzc.
  unfold keys_ascend in Hz. rewrite Hzc in Hz.
  apply Hne. apply Htot; assumption.
Qed.

(** Every group the loop yields from an ascending list is the selection of
    one key from all elements, and is not empty once the group being
    collected is not. *)
Lemma group_loop_groups l :
  StronglySorted (keys_ascend key) l ->
  forall cur acc,
    Forall (fun x => key x = cur) acc ->
    Forall (fun x => owner_ltb (key x) cur = false) l ->
    forall g, In g (group_loop key cur acc l) ->
      (acc <> [] -> g <> [])
      /\ exists o, g = List.filter (has_key key o) (acc ++ l).
Proof.
  induction 1 as [|x rest Hrest IH Hx]; intros cur acc Hacc Hge g Hg.
  - cbn in Hg. destruct Hg as [<-|[]]. split; [auto|].
    exists cur. rewrite app_nil_r. symmetry. apply filter_same_key. exact Hacc.
  - cbn in Hg. apply Forall_cons_iff in Hge as [Hxge Hge].
    assert (Hrest_ge : Forall (fun z => owner_ltb (key z) (key x) = false) rest).
    { exact Hx. }
    destruct (decide (cur = key x)) as [Hc|Hc].
    + destruct (IH cur (acc ++ [x])%list) with (g := g) as [Hne [o Ho]].
      * apply Forall_app. split; [exact Hacc|]. repeat constructor. congruence.
      * rewrite Hc. exact Hrest_ge.
      * exact Hg.
      * split.
        -- intros _. apply Hne. destruct acc; discriminate.
        -- exists o. rewrite Ho, <- app_assoc. reflexivity.
    + pose proof (keys_beyond cur x rest Hxge Hc Hx) as Hbeyond.
      destruct Hg as [<-|Hg].
      * split; [auto|]. exists cur. rewrite List.filter_app.
        rewrite (filter_same_key cur acc Hacc).
        rewrite (filter_other_key cur (x :: rest) Hbeyond).
        rewrite app_nil_r. reflexivity.
      * destruct (IH (key x) [x]) with (g := g) as [Hne [o Ho]].
        -- repeat constructor.
        -- exact Hrest_ge.
        -- exact Hg.
        -- split; [intros _; apply Hne; discriminate|].
           exists o. rewrite List.filter_app.
           assert (Ho_acc : List.filter (has_key key o) acc = []).
           { apply filter_other_key.
             assert (Hgne : g <> []) by (apply Hne; discriminate).
             destruct g as [|z g']; [congruence|].
             assert (Hz : In z (List.filter (has_key key o) ([x] ++ rest)))
               by (rewrite <- Ho; left; reflexivity).
             apply filter_In in Hz as [Hzin Hzo].
             unfold has_key in Hzo. apply bool_decide_eq_true in Hzo.
             rewrite List.Forall_forall in Hbeyond.
             specialize (Hbeyond z Hzin).
             eapply List.Forall_impl; [|exact Hacc]. intros y Hy. congruence. }
           rewrite Ho_acc. exact Ho.
Qed.

(** Sorting a list whose elements all carry one key leaves it as it is. *)
Lemma sort_pure_same_key o l :
  Forall (fun x => key x = o) l ->
  sort_pure (ahead_by key owner_ltb false) l = l.
Proof.
  destruct owner_ltb_strict_total as [Hirr _ _].
  induction 1 as [|x l Hx Hl IH]; cbn; [reflexivity|].
  rewrite IH. apply insert_pure_front.
  eapply List.Forall_impl; [|exact Hl]. intros y Hy.
  unfold may_precede, ahead_by. rewrite Hx, Hy. apply Hirr.
Qed.

(** What the grouping of the sorted elements yields. *)
Lemma grouped_by_key (resources : list A) :
  let s := sort_pure (ahead_by key owner_ltb false) resources in
  let groups :=
    group_loop key (match s with first :: _ => key first | [] => None end)
      [] s in
  Permutation (concat groups) resources
  /\ (resources = [] -> groups = [[]])
  /\ (resources <> [] ->
      forall g, In g groups ->
        g <> []
        /\ exists o, g = List.filter (has_key key o) resources).
Proof.
  cbv zeta.
  assert (Hweak : strict_weak owner_ltb)
    by (apply strict_total_weak, owner_ltb_strict_total).
  assert (Hs : StronglySorted (keys_ascend key)
                 (sort_pure (ahead_by key owner_ltb false) resources)).
  { apply (sort_pure_sorted (ahead_by key owner_ltb false)).
    - apply ahead_by_precede_trans. exact Hweak.
    - apply ahead_by_asym. exact Hweak. }
  split; [|split].
  - rewrite group_loop_concat. cbn. apply sort_pure_perm.
  - intros ->. reflexivity.
  - intros Hne g Hg.
    assert (Hfilter : forall o,
      List.filter (has_key key o)
        (sort_pure (ahead_by key owner_ltb false) resources)
      = List.filter (has_key key o) resources).
    { intros o. rewrite filter_sort_pure.
      - apply (sort_pure_same_key o). apply List.Forall_forall.
        intros x Hx. apply filter_In in Hx as [_ Hx].
        unfold has_key in Hx. apply bool_decide_eq_true in Hx. exact Hx.
      - apply ahead_by_precede_trans. exact Hweak.
      - apply ahead_by_asym. exact Hweak. }
    destruct (sort_pure (ahead_by key owner_ltb false) resources)
      as [|first rest] eqn:Hsorted.
    + exfalso. apply Hne.
      apply Permutation_nil. rewrite <- Hsorted. apply sort_pure_perm.
    + cbn in Hg. rewrite decide_True in Hg by reflexivity.
      apply StronglySorted_inv in Hs as [Hs Hfirst].
      destruct (group_loop_groups rest Hs (key first) [first]) with (g := g)
        as [Hgne [o Ho]].
      * repeat constructor.
      * exact Hfirst.
      * exact Hg.
      * split; [apply Hgne; discriminate|].
        exists o. rewrite Ho. cbn [app]. apply Hfilter.
Qed.
End GroupLoop.

(** X19: [custom_aggregation] of the EC2 image action yields the images in
    groups, one per source instance: the groups together are the images;
    every group is, in input order, the selection of the images of one
    instance, so no instance is split over two groups; no group is empty,
    except that for no images at all one empty group is yielded. *)
Theorem ec2_custom_aggregation_groups (tag : string)
    (resources : list Ec2DeleteImage.image) :
  exists groups,
    Ec2DeleteImageExecute.custom_aggregation tag resources = Return groups
    /\ Permutation (concat groups) resources
    /\ (resources = [] -> groups = [[]])
    /\ (resources <> [] ->
        forall g, In g groups ->
          g <> []
          /\ exists o, g = List.filter (Ec2Count.source_is tag o) resources).
Proof.
  unfold Ec2DeleteImageExecute.custom_aggregation.
  rewrite (sorted_by_key_pure _ _ (Ec2DeleteImage._image_instance tag)
             String.ltb).
  2: { apply List.Forall_forall. reflexivity. }
  2: { reflexivity. }
  cbn [bind].
  pose (key := fun img : Ec2DeleteImage.image =>
                 Some (Ec2DeleteImage._image_instance tag img)).
  assert (Hsort :
    sort_pure (ahead_by (Ec2DeleteImage._image_instance tag) String.ltb false)
      resources
    = sort_pure (ahead_by key owner_ltb false) resources).
  { apply (sort_pure_ext _ _ (fun _ => True)); [reflexivity|].
    apply List.Forall_forall. auto. }
  rewrite Hsort.
  destruct (grouped_by_key key resources) as (Hperm & Hnil & Hgroups).
  eexists. split; [reflexivity|].
  assert (Hhead : forall s : list Ec2DeleteImage.image,
    match s with
    | first :: _ => Some (Ec2DeleteImage._image_instance tag first)
    | [] => None
    end
    = match s with first :: _ => key first | [] => None end)
    by (intros [|? ?]; reflexivity).
  rewrite Hhead. fold key.
  split; [exact Hperm|]. split; [exact Hnil|].
  intros Hne g Hg. destruct (Hgroups Hne g Hg) as [Hgne [o Ho]].
  split; [exact Hgne|].
  destruct o as [o|].
  - exists o. rewrite Ho. apply filter_ext. intros img.
    unfold has_key, Ec2Count.source_is, key.
    apply bool_decide_ext. split; congruence.
  - exfalso. apply Hgne. rewrite Ho. apply filter_other_key.
    apply List.Forall_forall. intros img _. discriminate.
Qed.

(** Three images of two instances, in mixed order. *)
Example ec2_custom_aggregation_example :
  Ec2DeleteImageExecute.custom_aggregation Examples.ec2_source_tag
    MoreExamples.tagged_images
  = Return
      [[MoreExamples.tagged_ami "ami-a2" "i-aaa"
          (TsString "2019-06-02T00:00:00+00:00");
        MoreExamples.tagged_ami "ami-a3" "i-aaa"
          (TsString "2019-06-03T00:00:00Z")];
       [MoreExamples.tagged_ami "ami-b3" "i-bbb"
          (TsString "2019-06-03T00:00:00Z")]].
Proof. vm_compute. reflexivity. Qed.

Lemma ec2_custom_aggregation_groups_witness :
  exists groups,
    Ec2DeleteImageExecute.custom_aggregation Examples.ec2_source_tag
      MoreExamples.tagged_images = Return groups
    /\ Permutation (concat groups) MoreExamples.tagged_images
    /\ forall g, In g groups ->
         g <> []
         /\ exists o, g = List.filter
                            (Ec2Count.source_is Examples.ec2_source_tag o)
                            MoreExamples.tagged_images.
Proof.
  destruct (ec2_custom_aggregation_groups Examples.ec2_source_tag
              MoreExamples.tagged_images) as (groups & Hrun & Hperm & _ & Hg).
  exists groups. split; [exact Hrun|]. split; [exact Hperm|].
  apply Hg. discriminate.
Defined.

(** X20: [custom_aggregation] of the RDS action hands all snapshots on as
    one group when the task has no [RetentionCount]; with a count, and
    every snapshot having an owner, it yields one group per database
    instance, each the selection of that instance's snapshots in input
    order, none of them empty unless there is no snapshot at all. *)
Theorem rds_custom_aggregation_groups
    (resources : list RdsDeleteInstanceSnapshot.snapshot)
    (params : gmap string Z) :
  (default 0 (params !! PARAM_RETENTION_COUNT) = 0 ->
     RdsDeleteSnapshotExecute.custom_aggregation resources params
     = Return [resources])
  /\ (default 0 (params !! PARAM_RETENTION_COUNT) <> 0 ->
      Forall (fun s =>
                is_Some (RdsDeleteInstanceSnapshot.DBInstanceIdentifier s))
        resources ->
      exists groups,
        RdsDeleteSnapshotExecute.custom_aggregation resources params
        = Return groups
        /\ Permutation (concat groups) resources
        /\ (resources = [] -> groups = [[]])
        /\ (resources <> [] ->
            forall g, In g groups ->
              g <> []
              /\ exists o,
                  g = List.filter (RdsRetention.owner_is o) resources)).
Proof.
  unfold RdsDeleteSnapshotExecute.custom_aggregation. split.
  - intros ->. reflexivity.
  - intros Hc Hown. apply Z.eqb_neq in Hc. rewrite Hc.
    rewrite (sorted_by_key_pure _ _
               RdsDeleteInstanceSnapshot.DBInstanceIdentifier owner_ltb).
    2: { apply List.Forall_forall. reflexivity. }
    2: { rewrite List.Forall_forall in Hown. intros a b Ha Hb.
         destruct (Hown a Ha) as [oa ->]. destruct (Hown b Hb) as [ob ->].
         reflexivity. }
    cbn [bind].
    destruct (grouped_by_key RdsDeleteInstanceSnapshot.DBInstanceIdentifier
                resources) as (Hperm & Hnil & Hgroups).
    eexists. split; [reflexivity|].
    split; [exact Hperm|]. split; [exact Hnil|]. exact Hgroups.
Qed.

Lemma rds_custom_aggregation_groups_witness :
  RdsDeleteSnapshotExecute.custom_aggregation Examples.rds_snapshots ∅
  = Return [Examples.rds_snapshots].
Proof.
  apply (proj1 (rds_custom_aggregation_groups Examples.rds_snapshots ∅)).
  reflexivity.
Defined.

Example rds_custom_aggregation_example :
  RdsDeleteSnapshotExecute.custom_aggregation Examples.rds_snapshots
    {[ PARAM_RETENTION_COUNT := 1 ]}
  = Return
      [[Examples.db_snapshot "a-1" (Some "db-a") (TsDatetime (Examples.day 1));
        Examples.db_snapshot "a-3" (Some "db-a")
          (TsString "2019-06-03T00:00:00Z");
        Examples.db_snapshot "a-2" (Some "db-a")
          (TsString "2019-06-02T00:00:00+00:00")];
       [Examples.db_snapshot "b-5" (Some "db-b") (TsDatetime (Examples.day 5));
        Examples.db_snapshot "b-4" (Some "db-b") (TsDatetime (Examples.day 4))]].
Proof. vm_compute. reflexivity. Qed.

(** * [execute] of the EC2 image action *)

Section Ec2ImageExecute.
Import Ec2DeleteImage Ec2DeleteImageExecute.
Variable provider : provider_call -> reply.

Lemma delete_snapshots_loop_calls region ids :
  forall failed called,
    snd (delete_snapshots_loop provider region ids failed called)
    = (called ++ map (DeleteSnapshot region) ids)%list.
Proof.
  induction ids as [|s rest IH]; intros failed called; cbn.
  - rewrite app_nil_r. reflexivity.
  - destruct (provider (DeleteSnapshot region s)); rewrite IH, <- app_assoc;
      reflexivity.
Qed.

Lemma delete_snapshots_loop_no_fault region ids :
  Forall (fun s => forall e, provider (DeleteSnapshot region s) <> OtherFault e)
    ids ->
  forall failed called,
    fst (delete_snapshots_loop provider region ids failed called) = failed.
Proof.
  induction 1 as [|s rest Hs Hrest IH]; intros failed called; cbn;
    [reflexivity|].
  destruct (provider (DeleteSnapshot region s)) eqn:Hp; try apply IH.
  exfalso. eapply Hs. reflexivity.
Qed.

Lemma delete_snapshots_loop_fault region ids :
  forall failed called,
    failed <> [] ->
    fst (delete_snapshots_loop provider region ids failed called) <> [].
Proof.
  induction ids as [|s rest IH]; intros failed called Hne; cbn; [exact Hne|].
  destruct (provider (DeleteSnapshot region s)); apply IH; try exact Hne.
  destruct failed; discriminate.
Qed.

Lemma delete_image_snapshots_calls (img : image) :
  snd (delete_image_snapshots provider img)
  = map (DeleteSnapshot (Region img)) (Snapshots img).
Proof.
  unfold delete_image_snapshots.
  pose proof (delete_snapshots_loop_calls (Region img) (Snapshots img) [] [])
    as Hcalls.
  destruct (delete_snapshots_loop _ _ _ _ _) as [failed called].
  cbn in Hcalls. subst called. destruct failed; reflexivity.
Qed.

Lemma delete_image_snapshots_returns (img : image) :
  Forall (fun s => forall e,
            provider (DeleteSnapshot (Region img) s) <> OtherFault e)
    (Snapshots img) ->
  fst (delete_image_snapshots provider img) = Return tt.
Proof.
  intros Hok. unfold delete_image_snapshots.
  pose proof (delete_snapshots_loop_no_fault _ _ Hok [] []) as Hf.
  destruct (delete_snapshots_loop _ _ _ _ _) as [failed called].
  cbn in Hf. subst failed. reflexivity.
Qed.

Lemma delete_image_snapshots_raises (img : image) (s e : string) :
  In s (Snapshots img) ->
  provider (DeleteSnapshot (Region img) s) = OtherFault e ->
  returned (fst (delete_image_snapshots provider img)) = false.
Proof.
  intros Hin Hfault. unfold delete_image_snapshots.
  assert (Hne : fst (delete_snapshots_loop provider (Region img)
                       (Snapshots img) [] []) <> []).
  { generalize (@nil (string * string)) at 1.
    generalize (@nil provider_call).
    induction (Snapshots img) as [|s' rest IH]; [destruct Hin|].
    intros called failed. cbn. destruct Hin as [->|Hin].
    - rewrite Hfault. apply delete_snapshots_loop_fault.
      destruct failed; discriminate.
    - destruct (provider (DeleteSnapshot (Region img) s')); apply IH;
        exact Hin. }
  destruct (delete_snapshots_loop _ _ _ _ _) as [failed called].
  cbn in Hne. destruct failed; [congruence | reflexivity].
Qed.

(** X21: [delete_image_snapshots] asks for the deletion of every snapshot
    of the image, in order, whatever the provider replies.  It raises only
    after the last one, and only when a reply was an exception other than a
    [ClientError]: a [ClientError] of any code is passed over. *)
Theorem delete_image_snapshots_tries_all (img : image) :
  snd (delete_image_snapshots provider img)
  = map (DeleteSnapshot (Region img)) (Snapshots img)
  /\ (Forall (fun s => forall e,
                provider (DeleteSnapshot (Region img) s) <> OtherFault e)
        (Snapshots img) ->
      fst (delete_image_snapshots provider img) = Return tt)
  /\ (forall s e, In s (Snapshots img) ->
        provider (DeleteSnapshot (Region img) s) = OtherFault e ->
        returned (fst (delete_image_snapshots provider img)) = false).
Proof.
  split; [apply delete_image_snapshots_calls|].
  split; [apply delete_image_snapshots_returns|].
  intros s e. apply delete_image_snapshots_raises.
Qed.

Lemma tolerated_step (img : image) :
  tolerated provider img ->
  deregister_image provider img
  = (Return (deregistered provider img),
     [DeregisterImage (Region img) (ImageId img)])
  /\ (deregistered provider img = true ->
      delete_image_snapshots provider img
      = (Return tt, map (DeleteSnapshot (Region img)) (Snapshots img))).
Proof.
  unfold tolerated, deregister_image, deregistered.
  destruct (provider (DeregisterImage (Region img) (ImageId img))) as [|code|e];
    intros Ht.
  - split; [reflexivity|]. intros _.
    pose proof (delete_image_snapshots_calls img) as Hc.
    pose proof (delete_image_snapshots_returns img Ht) as Hok.
    destruct (delete_image_snapshots provider img) as [o c]. cbn in *.
    subst. reflexivity.
  - split; [|discriminate].
    destruct Ht as [-> | ->]; reflexivity.
  - destruct Ht.
Qed.

Lemma calls_for_deregistered (img : image) :
  calls_for provider img
  = DeregisterImage (Region img) (ImageId img)
    :: (if deregistered provider img
        then map (DeleteSnapshot (Region img)) (Snapshots img) else []).
Proof.
  unfold calls_for, deregistered.
  destruct (provider (DeregisterImage (Region img) (ImageId img)));
    reflexivity.
Qed.

Lemma execute_loop_one_region reg l :
  Forall (tolerated provider) l ->
  Forall (fun img => Region img = reg) l ->
  forall deleted old count called,
    deleted !! reg = Some old ->
    execute_loop provider l (Some reg) deleted count called
    = (Return (<[reg := (old ++ List.filter (deregistered provider) l)%list]>
                 deleted,
               count + Z.of_nat (length l)),
       (called ++ flat_map (calls_for provider) l)%list).
Proof.
  induction 1 as [|img rest Himg Hrest IH]; intros Hreg deleted old count called
    Hold.
  - cbn. rewrite !app_nil_r, Z.add_0_r, insert_id by exact Hold. reflexivity.
  - apply Forall_cons_iff in Hreg as [Hr Hreg]. subst reg.
    cbn [execute_loop]. rewrite decide_True by reflexivity.
    destruct (tolerated_step img Himg) as [Hd Hs]. rewrite Hd.
    cbn [flat_map List.filter]. rewrite calls_for_deregistered.
    replace (count + Z.of_nat (length (img :: rest)))
      with (count + 1 + Z.of_nat (length rest)) by (cbn [length]; lia).
    destruct (deregistered provider img).
    + rewrite (Hs eq_refl), Hold. cbn [default].
      rewrite (IH Hreg _ (old ++ [img])%list) by apply lookup_insert_eq.
      rewrite insert_insert_eq, <- !app_assoc. reflexivity.
    + rewrite (IH Hreg _ old) by exact Hold.
      rewrite <- !app_assoc. reflexivity.
Qed.

(** X22: [execute] of the EC2 image action on selected images of one
    region, when no reply makes it raise: for every selected image it asks
    for the deregistration and, only when that was accepted, for the
    deletion of the image's snapshots; an image that is not found or not
    available is passed over.  ["deleted"] lists the deregistered images,
    while ["images-deleted"] counts every selected image, found or not. *)
Theorem ec2_execute_one_region (reg : string) (to_delete all_images : list image) :
  Forall (tolerated provider) to_delete ->
  Forall (fun img => Region img = reg) to_delete ->
  execute provider (Return to_delete) all_images
  = (Return (mkresult
               (match to_delete with
                | [] => ∅
                | _ :: _ =>
                    {[ reg := List.filter (deregistered provider) to_delete ]}
                end)
               (length all_images) (Z.of_nat (length to_delete))),
     flat_map (calls_for provider) to_delete).
Proof.
  intros Ht Hr. unfold execute. destruct to_delete as [|img rest];
    [reflexivity|].
  pose proof (Forall_inv Hr) as Hreg. cbn in Hreg. subst reg.
  cbn [execute_loop]. rewrite decide_False by discriminate.
  pose proof (tolerated_step img (Forall_inv Ht)) as [Hd Hs]. rewrite Hd.
  cbn [flat_map List.filter]. rewrite calls_for_deregistered.
  replace (Z.of_nat (length (img :: rest)))
    with (0 + 1 + Z.of_nat (length rest)) by (cbn [length]; lia).
  destruct (deregistered provider img).
  - rewrite (Hs eq_refl), lookup_insert_eq. cbn [default app].
    rewrite (execute_loop_one_region (Region img) rest (Forall_inv_tail Ht)
               (Forall_inv_tail Hr) _ [img]) by apply lookup_insert_eq.
    rewrite !insert_insert_eq. reflexivity.
  - rewrite (execute_loop_one_region (Region img) rest (Forall_inv_tail Ht)
               (Forall_inv_tail Hr) _ []) by apply lookup_insert_eq.
    rewrite insert_insert_eq. reflexivity.
Qed.
End Ec2ImageExecute.

Section Ec2ImageExecuteFailure.
Import Ec2DeleteImage Ec2DeleteImageExecute.
Variable provider : provider_call -> reply.

Lemma execute_loop_tolerated_prefix ok l :
  Forall (tolerated provider) ok ->
  forall region deleted count called,
    exists region' deleted' count',
      execute_loop provider (ok ++ l)%list region deleted count called
      = execute_loop provider l region' deleted' count'
          (called ++ flat_map (calls_for provider) ok)%list.
Proof.
  induction 1 as [|img rest Himg Hrest IH]; intros region deleted count called.
  - exists region, deleted, count. cbn. rewrite app_nil_r. reflexivity.
  - cbn [app execute_loop flat_map].
    destruct (tolerated_step provider img Himg) as [Hd Hs]. rewrite Hd.
    rewrite calls_for_deregistered.
    destruct (deregistered provider img).
    + rewrite (Hs eq_refl).
      match goal with
      | |- context [execute_loop provider (rest ++ l)%list ?r ?d ?c ?t] =>
          destruct (IH r d c t) as (r' & d' & c' & Heq)
      end.
      exists r', d', c'. rewrite Heq, <- !app_assoc. reflexivity.
    + match goal with
      | |- context [execute_loop provider (rest ++ l)%list ?r ?d ?c ?t] =>
          destruct (IH r d c t) as (r' & d' & c' & Heq)
      end.
      exists r', d', c'. rewrite Heq, <- !app_assoc. reflexivity.
Qed.

Lemma refused_step (img : image) rest region deleted count called :
  refused provider img ->
  exists e,
    execute_loop provider (img :: rest) region deleted count called
    = (Raise e, (called ++ calls_for provider img)%list).
Proof.
  unfold refused. intros Href. cbn [execute_loop].
  unfold deregister_image, calls_for.
  destruct (provider (DeregisterImage (Region img) (ImageId img)))
    as [|code|e].
  - destruct Href as (s & e & Hin & Hfault).
    pose proof (delete_image_snapshots_calls provider img) as Hc.
    pose proof (delete_image_snapshots_raises provider img s e Hin Hfault)
      as Hbad.
    destruct (delete_image_snapshots provider img) as [[u|e'] c];
      [discriminate|].
    cbn in Hc. subst c. exists e'. reflexivity.
  - destruct Href as [H1 H2]. apply String.eqb_neq in H1, H2.
    rewrite H1, H2. eexists. reflexivity.
  - eexists. reflexivity.
Qed.

(** X23: [execute] of the EC2 image action stops at the first image on
    which it raises: the images before it are worked on as usual, the
    calls for that image are the last ones, and no call is issued for any
    image after it. *)
Theorem ec2_execute_stops_at_failure (ok rest : list image) (bad : image)
    (all_images : list image) :
  Forall (tolerated provider) ok ->
  refused provider bad ->
  let res := execute provider (Return (ok ++ bad :: rest)%list) all_images in
  returned (fst res) = false
  /\ snd res = flat_map (calls_for provider) (ok ++ [bad])%list.
Proof.
  intros Hok Hbad. cbv zeta. unfold execute.
  destruct (execute_loop_tolerated_prefix ok (bad :: rest) Hok None ∅ 0 [])
    as (r & d & c & Heq).
  rewrite Heq.
  destruct (refused_step bad rest r d c
              ([] ++ flat_map (calls_for provider) ok)%list Hbad) as [e He].
  rewrite He. cbn [fst snd returned]. split; [reflexivity|].
  rewrite flat_map_app. cbn. rewrite app_nil_r. reflexivity.
Qed.
End Ec2ImageExecuteFailure.

Lemma with_keys_returned {A K : Type} (key : A -> outcome K) (l : list A) :
  returned (with_keys key l) = forallb (fun a => returned (key a)) l.
Proof.
  induction l as [|a l IH]; cbn; [reflexivity|].
  destruct (key a); cbn; [|reflexivity].
  rewrite <- IH. destruct (with_keys key l); reflexivity.
Qed.

(** X24: an image whose creation date arrives as a structured value and
    that has no ["StartTime"] blocks the whole run of the EC2 image action:
    in either mode the selection raises before the first provider call, so
    that no image at all is deregistered. *)
Theorem ec2_structured_date_blocks_run
    (provider : Ec2DeleteImageExecute.provider_call -> reply)
    (parse : string -> outcome datetime) (tag : string)
    (now retention_days retention_count : Z)
    (all_images : list Ec2DeleteImage.image) (img : Ec2DeleteImage.image)
    (d : datetime) :
  In img all_images ->
  Ec2DeleteImage.CreationDate img = TsDatetime d ->
  Ec2DeleteImage.StartTime img = None ->
  exists e,
    Ec2DeleteImageExecute.execute provider
      (Ec2DeleteImageExecute.images_to_delete parse tag now retention_days
         retention_count all_images)
      all_images
    = (Raise e, []).
Proof.
  intros Hin Hdate Hstart.
  assert (Hbad : Ec2DeleteImage.get_creation_time parse img
                 = Raise (KeyError "StartTime")).
  { unfold Ec2DeleteImage.get_creation_time. rewrite Hdate, Hstart.
    reflexivity. }
  assert (Hsel : returned (Ec2DeleteImageExecute.images_to_delete parse tag
                             now retention_days retention_count all_images)
                 = false).
  { unfold Ec2DeleteImageExecute.images_to_delete.
    destruct (negb (retention_days =? 0)).
    - unfold Ec2DeleteImage.by_retention_days.
      destruct (minus_days _ _) as [cutoff|]; [|reflexivity]. cbn [bind].
      rewrite (sorted_by_key_pure _ _ Ec2DeleteImage.Region String.ltb).
      2: { apply List.Forall_forall. reflexivity. }
      2: { reflexivity. }
      cbn [bind]. rewrite yield_if_returned.
      rewrite (forallb_perm _ _ all_images) by apply sort_pure_perm.
      apply not_true_is_false. intros Hall. rewrite forallb_forall in Hall.
      specialize (Hall img Hin). rewrite Hbad in Hall. discriminate.
    - unfold Ec2DeleteImage.by_retention_count, sorted_by_key.
      match goal with
      | |- context [with_keys ?k all_images] =>
          pose proof (with_keys_returned k all_images) as Hk;
          destruct (with_keys k all_images) as [ks|e]; [|reflexivity]
      end.
      exfalso. cbn in Hk. symmetry in Hk. rewrite forallb_forall in Hk.
      specialize (Hk img Hin). rewrite Hbad in Hk.
      destruct (Ec2DeleteImage.SourceInstanceId img); discriminate. }
  unfold Ec2DeleteImageExecute.execute.
  destruct (Ec2DeleteImageExecute.images_to_delete _ _ _ _ _ _) as [l|e];
    [discriminate|].
  exists e. reflexivity.
Qed.

(** * [execute] of the RDS snapshot action *)

Section RdsSnapshotExecute.
Import RdsDeleteInstanceSnapshot RdsDeleteSnapshotExecute.
Variable delete_db_snapshot : string -> option (string * string).
Variable time_out : nat -> bool.

Local Abbreviation attempted := (before_time_out time_out).

Lemma rds_execute_loop_spec l :
  forall position deleted count called,
    Forall (gone_or_accepted delete_db_snapshot) (attempted position l) ->
    execute_loop delete_db_snapshot time_out l position deleted count called
    = (Return
         ((deleted ++ map DBSnapshotIdentifier
                        (List.filter (accepted delete_db_snapshot)
                           (attempted position l)))%list,
          count + Z.of_nat (length (List.filter (accepted delete_db_snapshot)
                                      (attempted position l)))),
       (called ++ map DBSnapshotIdentifier (attempted position l))%list).
Proof.
  induction l as [|s rest IH]; intros position deleted count called Hok;
    cbn [execute_loop before_time_out].
  - cbn. rewrite !app_nil_r, Z.add_0_r. reflexivity.
  - cbn [before_time_out] in Hok. destruct (time_out position).
    + cbn. rewrite !app_nil_r, Z.add_0_r. reflexivity.
    + apply Forall_cons_iff in Hok as [Hs Hok].
      cbn [List.filter].
      destruct Hs as [Hs | [ex Hs]].
      * assert (Ha : accepted delete_db_snapshot s = true)
          by (unfold accepted; rewrite Hs; reflexivity).
        rewrite Ha, Hs. rewrite IH by exact Hok. cbn [map length].
        rewrite <- !app_assoc. cbn [app]. rewrite Nat2Z.inj_succ.
        f_equal. f_equal. f_equal. lia.
      * assert (Ha : accepted delete_db_snapshot s = false)
          by (unfold accepted; rewrite Hs; reflexivity).
        rewrite Ha, Hs.
        replace (String.eqb "DBSnapshotNotFoundFault" "DBSnapshotNotFoundFault")
          with true by reflexivity.
        rewrite IH by exact Hok. cbn [map]. rewrite <- !app_assoc. reflexivity.
Qed.

(** X25: [execute] of the RDS snapshot action, when every reply is an
    acceptance or says that the snapshot is already gone: the selected
    snapshots are tried in order up to the first check that reports a
    time-out, after which nothing more is asked of the provider and the
    result is returned as usual; ["deleted-snapshots"] lists the accepted
    deletions only, so a snapshot that was already gone is no error and is
    not reported as deleted. *)
Theorem rds_execute_until_time_out (to_delete all_snapshots : list snapshot) :
  Forall (gone_or_accepted delete_db_snapshot) (attempted 0%nat to_delete) ->
  execute delete_db_snapshot time_out (Return to_delete) all_snapshots
  = (Return
       (mkresult
          (map DBSnapshotIdentifier
             (List.filter (accepted delete_db_snapshot)
                (attempted 0%nat to_delete)))
          (length all_snapshots)
          (Z.of_nat (length (List.filter (accepted delete_db_snapshot)
                               (attempted 0%nat to_delete))))),
     map DBSnapshotIdentifier (attempted 0%nat to_delete)).
Proof.
  intros Hok. unfold execute. rewrite rds_execute_loop_spec by exact Hok.
  reflexivity.
Qed.

Lemma rds_execute_loop_failure ok :
  Forall (gone_or_accepted delete_db_snapshot) ok ->
  forall l position bad rest name ex deleted count called,
    attempted position l = (ok ++ bad :: rest)%list ->
    delete_db_snapshot (DBSnapshotIdentifier bad) = Some (name, ex) ->
    name <> "DBSnapshotNotFoundFault" ->
    execute_loop delete_db_snapshot time_out l position deleted count called
    = (Raise (Exception_ ERR_DELETING_SNAPSHOT
                [DBSnapshotIdentifier bad;
                 default "None" (DBInstanceIdentifier bad); ex]),
       (called ++ map DBSnapshotIdentifier (ok ++ [bad])%list)%list).
Proof.
  induction 1 as [|s ok Hs Hok IH];
    intros l position bad rest name ex deleted count called Hatt Hbad Hname.
  - destruct l as [|x l']; cbn [before_time_out] in Hatt; [discriminate|].
    cbn [execute_loop]. destruct (time_out position); [discriminate|].
    cbn in Hatt. injection Hatt as -> _. rewrite Hbad.
    apply String.eqb_neq in Hname. rewrite Hname. reflexivity.
  - destruct l as [|x l']; cbn [before_time_out] in Hatt; [discriminate|].
    cbn [execute_loop]. destruct (time_out position); [discriminate|].
    cbn in Hatt. injection Hatt as -> Hatt.
    destruct Hs as [Hs | [ex' Hs]]; rewrite Hs.
    + rewrite (IH l' (S position) bad rest name ex) by assumption.
      cbn [app map]. rewrite <- !app_assoc. reflexivity.
    + replace (String.eqb "DBSnapshotNotFoundFault" "DBSnapshotNotFoundFault")
        with true by reflexivity.
      rewrite (IH l' (S position) bad rest name ex) by assumption.
      cbn [app map]. rewrite <- !app_assoc. reflexivity.
Qed.

(** X26: [execute] of the RDS snapshot action raises at the first deletion
    that fails for another reason than the snapshot being gone: the error
    names the snapshot, its instance and the fault's text, and no snapshot
    after it is tried. *)
Theorem rds_execute_stops_at_failure (ok rest : list snapshot) (bad : snapshot)
    (name ex : string) (to_delete all_snapshots : list snapshot) :
  attempted 0%nat to_delete = (ok ++ bad :: rest)%list ->
  Forall (gone_or_accepted delete_db_snapshot) ok ->
  delete_db_snapshot (DBSnapshotIdentifier bad) = Some (name, ex) ->
  name <> "DBSnapshotNotFoundFault" ->
  execute delete_db_snapshot time_out (Return to_delete) all_snapshots
  = (Raise (Exception_ ERR_DELETING_SNAPSHOT
              [DBSnapshotIdentifier bad;
               default "None" (DBInstanceIdentifier bad); ex]),
     map DBSnapshotIdentifier (ok ++ [bad])%list).
Proof.
  intros Hatt Hok Hbad Hname. unfold execute.
  rewrite (rds_execute_loop_failure ok Hok to_delete 0%nat bad rest name ex)
    by assumption.
  reflexivity.
Qed.
End RdsSnapshotExecute.

Section ExecuteConcrete.
Import Ec2DeleteImageExecute.

Lemma delete_image_snapshots_tries_all_witness :
  fst (delete_image_snapshots ExecuteExamples.image_provider
         (MoreExamples.tagged_ami "ami-a2" "i-aaa"
            (TsString "2019-06-02T00:00:00+00:00")))
  = Return tt.
Proof.
  apply (proj1 (proj2 (delete_image_snapshots_tries_all
                         ExecuteExamples.image_provider
                         (MoreExamples.tagged_ami "ami-a2" "i-aaa"
                            (TsString "2019-06-02T00:00:00+00:00"))))).
  constructor; [|constructor]. intros e. cbn. discriminate.
Defined.

Lemma example_images_tolerated :
  Forall (tolerated ExecuteExamples.image_provider) MoreExamples.tagged_images.
Proof.
  constructor; [|constructor; [|constructor; [|constructor]]].
  - constructor; [|constructor]. intros e. discriminate.
  - right. reflexivity.
  - constructor; [|constructor]. intros e. discriminate.
Qed.

Lemma example_images_one_region :
  Forall (fun img => Ec2DeleteImage.Region img = "eu-west-1")
    MoreExamples.tagged_images.
Proof. repeat constructor. Qed.

Lemma ec2_execute_one_region_witness :
  execute ExecuteExamples.image_provider (Return MoreExamples.tagged_images)
    MoreExamples.tagged_images
  = (Return (mkresult
               {[ "eu-west-1" :=
                    List.filter (deregistered ExecuteExamples.image_provider)
                      MoreExamples.tagged_images ]}
               (length MoreExamples.tagged_images)
               (Z.of_nat (length MoreExamples.tagged_images))),
     flat_map (calls_for ExecuteExamples.image_provider)
       MoreExamples.tagged_images).
Proof.
  apply (ec2_execute_one_region ExecuteExamples.image_provider "eu-west-1"
           MoreExamples.tagged_images MoreExamples.tagged_images
           example_images_tolerated example_images_one_region).
Defined.

(** [ami-b3] is not found: it is passed over, its snapshot is left alone,
    and it is counted all the same. *)
Example ec2_execute_example :
  execute ExecuteExamples.image_provider (Return MoreExamples.tagged_images)
    MoreExamples.tagged_images
  = (Return (mkresult
               {[ "eu-west-1" :=
                    [MoreExamples.tagged_ami "ami-a2" "i-aaa"
                       (TsString "2019-06-02T00:00:00+00:00");
                     MoreExamples.tagged_ami "ami-a3" "i-aaa"
                       (TsString "2019-06-03T00:00:00Z")] ]}
               3%nat 3),
     [DeregisterImage "eu-west-1" "ami-a2";
      DeleteSnapshot "eu-west-1" "snap-ami-a2";
      DeregisterImage "eu-west-1" "ami-b3";
      DeregisterImage "eu-west-1" "ami-a3";
      DeleteSnapshot "eu-west-1" "snap-ami-a3"]).
Proof. vm_compute. reflexivity. Qed.

Lemma ec2_execute_stops_at_failure_witness :
  returned (fst (execute ExecuteExamples.refusing_provider
                   (Return MoreExamples.tagged_images)
                   MoreExamples.tagged_images)) = false
  /\ snd (execute ExecuteExamples.refusing_provider
            (Return MoreExamples.tagged_images) MoreExamples.tagged_images)
     = flat_map (calls_for ExecuteExamples.refusing_provider)
         ([MoreExamples.tagged_ami "ami-a2" "i-aaa"
             (TsString "2019-06-02T00:00:00+00:00")]
          ++ [MoreExamples.tagged_ami "ami-b3" "i-bbb"
                (TsString "2019-06-03T00:00:00Z")])%list.
Proof.
  apply (ec2_execute_stops_at_failure ExecuteExamples.refusing_provider
           [MoreExamples.tagged_ami "ami-a2" "i-aaa"
              (TsString "2019-06-02T00:00:00+00:00")]
           [MoreExamples.tagged_ami "ami-a3" "i-aaa"
              (TsString "2019-06-03T00:00:00Z")]
           (MoreExamples.tagged_ami "ami-b3" "i-bbb"
              (TsString "2019-06-03T00:00:00Z"))
           MoreExamples.tagged_images).
  - repeat constructor. intros e. discriminate.
  - cbn. split; discriminate.
Defined.

Lemma ec2_structured_date_blocks_run_witness :
  exists e,
    execute ExecuteExamples.image_provider
      (images_to_delete Examples.parse Examples.ec2_source_tag
         (10 * usec_per_day) 7 0
         (MoreExamples.tagged_images ++ [Examples.structured_image]))
      (MoreExamples.tagged_images ++ [Examples.structured_image])
    = (Raise e, []).
Proof.
  apply (ec2_structured_date_blocks_run ExecuteExamples.image_provider
           Examples.parse Examples.ec2_source_tag (10 * usec_per_day) 7 0
           (MoreExamples.tagged_images ++ [Examples.structured_image])
           Examples.structured_image (Examples.day 1)).
  - apply in_or_app. right. left. reflexivity.
  - reflexivity.
  - reflexivity.
Defined.
End ExecuteConcrete.

Section RdsExecuteConcrete.
Import RdsDeleteSnapshotExecute.

Lemma example_rds_replies_fine :
  Forall (gone_or_accepted ExecuteExamples.delete_db_snapshot)
    (before_time_out ExecuteExamples.time_out 0 Examples.rds_snapshots).
Proof.
  cbv [before_time_out ExecuteExamples.time_out Examples.rds_snapshots
         Nat.leb].
  repeat (apply Forall_cons_iff; split); try apply List.Forall_nil.
  - left. reflexivity.
  - left. reflexivity.
  - right. eexists. reflexivity.
Qed.

Lemma rds_execute_until_time_out_witness :
  execute ExecuteExamples.delete_db_snapshot ExecuteExamples.time_out
    (Return Examples.rds_snapshots) Examples.rds_snapshots
  = (Return
       (mkresult
          (map RdsDeleteInstanceSnapshot.DBSnapshotIdentifier
             (List.filter (accepted ExecuteExamples.delete_db_snapshot)
                (before_time_out ExecuteExamples.time_out 0
                   Examples.rds_snapshots)))
          (length Examples.rds_snapshots)
          (Z.of_nat (length (List.filter
                               (accepted ExecuteExamples.delete_db_snapshot)
                               (before_time_out ExecuteExamples.time_out 0
                                  Examples.rds_snapshots))))),
     map RdsDeleteInstanceSnapshot.DBSnapshotIdentifier
       (before_time_out ExecuteExamples.time_out 0 Examples.rds_snapshots)).
Proof.
  apply (rds_execute_until_time_out ExecuteExamples.delete_db_snapshot
           ExecuteExamples.time_out Examples.rds_snapshots
           Examples.rds_snapshots example_rds_replies_fine).
Defined.

(** Of five selected snapshots three are tried before time is up; the
    third is already gone and is not reported. *)
Example rds_execute_example :
  execute ExecuteExamples.delete_db_snapshot ExecuteExamples.time_out
    (Return Examples.rds_snapshots) Examples.rds_snapshots
  = (Return (mkresult ["a-1"; "b-5"] 5%nat 2), ["a-1"; "b-5"; "a-3"]).
Proof. reflexivity. Qed.

Lemma rds_execute_stops_at_failure_witness :
  execute ExecuteExamples.failing_delete_db_snapshot
    ExecuteExamples.never_time_out (Return Examples.rds_snapshots)
    Examples.rds_snapshots
  = (Raise (Exception_ ERR_DELETING_SNAPSHOT
              ["a-3"; "db-a"; "snapshot a-3 is in use"]),
     map RdsDeleteInstanceSnapshot.DBSnapshotIdentifier
       ([Examples.db_snapshot "a-1" (Some "db-a")
           (TsDatetime (Examples.day 1));
         Examples.db_snapshot "b-5" (Some "db-b")
           (TsDatetime (Examples.day 5))]
        ++ [Examples.db_snapshot "a-3" (Some "db-a")
              (TsString "2019-06-03T00:00:00Z")])%list).
Proof.
  apply (rds_execute_stops_at_failure
           ExecuteExamples.failing_delete_db_snapshot
           ExecuteExamples.never_time_out
           [Examples.db_snapshot "a-1" (Some "db-a")
              (TsDatetime (Examples.day 1));
            Examples.db_snapshot "b-5" (Some "db-b")
              (TsDatetime (Examples.day 5))]
           [Examples.db_snapshot "a-2" (Some "db-a")
              (TsString "2019-06-02T00:00:00+00:00");
            Examples.db_snapshot "b-4" (Some "db-b")
              (TsDatetime (Examples.day 4))]
           (Examples.db_snapshot "a-3" (Some "db-a")
              (TsString "2019-06-03T00:00:00Z"))
           "InvalidDBSnapshotStateFault" "snapshot a-3 is in use"
           Examples.rds_snapshots Examples.rds_snapshots).
  - reflexivity.
  - repeat constructor; left; reflexivity.
  - reflexivity.
  - discriminate.
Defined.
End RdsExecuteConcrete.
